(** * kitdbase/mysql-query-builder: the query builder and the column differ

    A shallow embedding of [src/lib/mysql.ts]: the classes [TableQuery] and
    [Columns], the JavaScript values their methods handle, and the pooled
    connection they dispatch SQL text to.

    Conventions of the embedding.
    - JavaScript numbers are IEEE 754 doubles. The model holds the doubles
      whose value is an integer, the two infinities and [NaN]; [-0] is read
      as [0], which no operation used here tells apart. Fractions are
      outside the model.
    - A string is the sequence of the bytes of its UTF-8 encoding.
    - An object is the list of its own enumerable properties in enumeration
      order, without repeated keys.
    - A method that mutates [this] and returns [this] is a function from the
      builder to the builder; an [async] method is a computation over the
      builder and the state of the connection. *)

From Stdlib Require Import String Ascii List Arith NArith ZArith Bool Lia
  DecimalString.
Import ListNotations.
Open Scope string_scope.
Set Warnings "-register-all".

(* ===================================================================== *)
(** ** JavaScript values *)
(* ===================================================================== *)

Module Js.

(** A double whose value is the integer [z] ([z] is then its own nearest
    double, see [nearest] below), [NaN], or an infinity. *)
Inductive number :=
| Finite (z : Z)
| NaN
| Infinity (negative : bool).

Inductive value :=
| Undefined
| Null
| Boolean (b : bool)
| Number (n : number)
| Str (s : string)
| Array (elems : list value)
| Object (props : list (string * value)).

(** A thrown [Error]: [error.code] (set by the driver) and
    [error.message]. *)
Record error := Error_ { code : option string; message : string }.

Definition Error (msg : string) : error := Error_ None msg.
Definition TypeError (msg : string) : error := Error_ None msg.

(** The outcome of evaluating an expression or running a method. *)
Inductive completion (A : Type) :=
| Return (a : A)
| Throw (e : error).
Arguments Return {A} a.
Arguments Throw {A} e.

Definition typeof (v : value) : string :=
  match v with
  | Undefined => "undefined"
  | Null => "object"
  | Boolean _ => "boolean"
  | Number _ => "number"
  | Str _ => "string"
  | Array _ | Object _ => "object"
  end.

Definition isArray (v : value) : bool :=
  match v with Array _ => true | _ => false end.

Definition number_truthy (n : number) : bool :=
  match n with
  | Finite z => negb (z =? 0)%Z
  | NaN => false
  | Infinity _ => true
  end.

(** [ToBoolean]: what [if (v)], [!v], [v && ...] and [v || ...] test. *)
Definition truthy (v : value) : bool :=
  match v with
  | Undefined | Null => false
  | Boolean b => b
  | Number n => number_truthy n
  | Str s => negb (s =? EmptyString)
  | Array _ | Object _ => true
  end.

Definition isNaN (n : number) : bool :=
  match n with NaN => true | Finite _ | Infinity _ => false end.

(** The double nearest to a positive integer, as if the exponent had no
    bound: the integer itself while it fits in 53 bits, and otherwise its
    53 leading bits, rounded up when the rest is more than half a unit of
    the last of them, or is half a unit and the last of them is odd. *)
Definition nearest (a : Z) : Z :=
  let shift := (Z.log2 a + 1 - 53)%Z in
  if (shift <=? 0)%Z then a
  else
    let unit := (2 ^ shift)%Z in
    let quot := (a / unit)%Z in
    let rem := (a mod unit)%Z in
    let half := (unit / 2)%Z in
    let up := if (rem <? half)%Z then false
              else if (half <? rem)%Z then true
              else Z.odd quot in
    ((if up then quot + 1 else quot) * unit)%Z.

(** The double an exact integer result is rounded to: an infinity when
    the nearest double would take more than 1024 bits, that is from
    [2^1024] on. *)
Definition of_Z (z : Z) : number :=
  let r := nearest (Z.abs z) in
  if (1024 <=? Z.log2 r)%Z then Infinity (z <? 0)%Z
  else Finite (Z.sgn z * r).

(** [a - b]. *)
Definition sub (a b : number) : number :=
  match a, b with
  | Finite x, Finite y => of_Z (x - y)
  | Infinity s, Infinity t => if Bool.eqb s t then NaN else Infinity s
  | Infinity s, Finite _ => Infinity s
  | Finite _, Infinity t => Infinity (negb t)
  | _, _ => NaN
  end.

(** [a * b]. *)
Definition mul (a b : number) : number :=
  match a, b with
  | Finite x, Finite y => of_Z (x * y)
  | Infinity s, Infinity t => Infinity (xorb s t)
  | Infinity s, Finite y | Finite y, Infinity s =>
      if (y =? 0)%Z then NaN else Infinity (xorb s (y <? 0)%Z)
  | _, _ => NaN
  end.

(** The decimal digits of an integer, after a minus sign when it is
    negative. *)
Definition decimal (z : Z) : string := NilZero.string_of_int (Z.to_int z).

(** The number of decimal digits of a positive integer. *)
Definition digits (a : Z) : Z := Z.of_nat (String.length (decimal a)).

(** Among the multiples of [10^e], the one nearest to the double [a] that
    reads back as [a], if there is one; of two as near, the one with the
    even multiplier. *)
Definition shortest_at (a e : Z) : option Z :=
  let p := (10 ^ e)%Z in
  let lo := (a / p)%Z in
  let hi := (lo + 1)%Z in
  let lo_ok := ((0 <? lo) && (nearest (lo * p) =? a))%Z%bool in
  let hi_ok := (nearest (hi * p) =? a)%Z in
  let lo_first := (let dl := (a - lo * p)%Z in
                   let dh := (hi * p - a)%Z in
                   (dl <? dh) || ((dl =? dh) && Z.even lo))%Z%bool in
  if lo_first then
    (if lo_ok then Some (lo * p) else if hi_ok then Some (hi * p) else None)%Z
  else
    (if hi_ok then Some (hi * p) else if lo_ok then Some (lo * p) else None)%Z.

Fixpoint shortest_from (fuel : nat) (a e : Z) : Z :=
  match fuel with
  | O => a
  | S fuel =>
      match shortest_at a e with
      | Some v => v
      | None => shortest_from fuel a (e - 1)
      end
  end.

(** The integer with the fewest significant digits that reads back as the
    positive double [a], the nearest to [a] among those: the digits
    [Number::toString] writes. The exponent [0] always answers, with [a]
    itself. *)
Definition shortest (a : Z) : Z :=
  shortest_from (Z.to_nat (digits a) + 1) a (digits a).

Fixpoint drop_trailing_zeros (s : string) : string :=
  match s with
  | EmptyString => EmptyString
  | String c rest =>
      match drop_trailing_zeros rest with
      | EmptyString =>
          if Ascii.eqb c "0" then EmptyString else String c EmptyString
      | kept => String c kept
      end
  end.

(** [d.ddde+n], or [de+n] for one significant digit. *)
Definition exponent_form (v : Z) : string :=
  let all := decimal v in
  let n := String.length all in
  match drop_trailing_zeros all with
  | EmptyString => all
  | String d EmptyString =>
      String d EmptyString ++ "e+" ++ decimal (Z.of_nat (n - 1))
  | String d more =>
      String d ("." ++ more) ++ "e+" ++ decimal (Z.of_nat (n - 1))
  end.

(** [Number::toString] of a double with an integer value that is not
    negative. Below [2^53], that is on at most 53 bits, the doubles lie at
    most [1] apart, so an integer is the one integer that reads back as
    itself; from [2^53] on the shortest digits are written, followed by
    zeros up to 21 digits and in exponent form beyond. *)
Definition positive_toString (a : Z) : string :=
  if (Z.log2 a <? 53)%Z then decimal a
  else
    let v := shortest a in
    if (digits v <=? 21)%Z then decimal v else exponent_form v.

Definition number_toString (n : number) : string :=
  match n with
  | Finite z =>
      if (z <? 0)%Z then "-" ++ positive_toString (- z)
      else positive_toString z
  | NaN => "NaN"
  | Infinity false => "Infinity"
  | Infinity true => "-Infinity"
  end.

(** [String(v)], the conversion a template literal [`${v}`] applies. An
    array prints as [join(',')] does, where [undefined] and [null]
    elements print as nothing. *)
Fixpoint toString (v : value) : string :=
  match v with
  | Undefined => "undefined"
  | Null => "null"
  | Boolean true => "true"
  | Boolean false => "false"
  | Number n => number_toString n
  | Str s => s
  | Array elems =>
      String.concat ","
        (map (fun e => match e with
                       | Undefined | Null => EmptyString
                       | _ => toString e
                       end) elems)
  | Object _ => "[object Object]"
  end.

Definition join_elem (e : value) : string :=
  match e with
  | Undefined | Null => EmptyString
  | _ => toString e
  end.

(** [Array.prototype.join] on an array of values. *)
Definition join (sep : string) (elems : list value) : string :=
  String.concat sep (map join_elem elems).

(** [===] against a value that does not share a reference with the other
    operand (objects and arrays are then never equal). *)
Definition strict_eq (a b : value) : bool :=
  match a, b with
  | Undefined, Undefined => true
  | Null, Null => true
  | Boolean x, Boolean y => Bool.eqb x y
  | Number (Finite x), Number (Finite y) => (x =? y)%Z
  | Number (Infinity s), Number (Infinity t) => Bool.eqb s t
  | Str x, Str y => (x =? y)
  | _, _ => false
  end.

Fixpoint lookup (key : string) (props : list (string * value)) : value :=
  match props with
  | [] => Undefined
  | (k, v) :: rest => if k =? key then v else lookup key rest
  end.

Definition index_key (i : nat) : string :=
  NilZero.string_of_uint (Nat.to_uint i).

(** A byte that continues a character of more than one byte. *)
Definition is_continuation (c : ascii) : bool :=
  let b := N_of_ascii c in ((128 <=? b) && (b <? 192))%N%bool.

(** The characters of a string, each with the bytes that continue it. *)
Fixpoint characters (s : string) : list string :=
  match s with
  | EmptyString => []
  | String c rest =>
      let starts_inside :=
        match rest with
        | String c2 _ => is_continuation c2
        | EmptyString => false
        end in
      match characters rest with
      | piece :: pieces =>
          if starts_inside then String c piece :: pieces
          else String c EmptyString :: piece :: pieces
      | [] => [String c EmptyString]
      end
  end.

(** What the iterator of a string yields: its characters. *)
Definition chars (s : string) : list value := map Str (characters s).

(** [s.length], the number of UTF-16 code units: two for a character of
    four bytes, one for any other. *)
Definition length16 (s : string) : nat :=
  list_sum (map (fun ch => if (String.length ch =? 4)%nat then 2 else 1)
                (characters s)).

(** [v[0]]: the first element of an array, the first character of a
    string (the first half of it, which the model cannot hold, when it
    takes four bytes), the property ["0"] of an object; reading a property
    of [undefined] or [null] throws. *)
Definition index0 (v : value) : completion value :=
  match v with
  | Undefined =>
      Throw (TypeError "Cannot read properties of undefined (reading '0')")
  | Null =>
      Throw (TypeError "Cannot read properties of null (reading '0')")
  | Array elems => Return (nth 0 elems Undefined)
  | Str s => Return (nth 0 (chars s) Undefined)
  | Object props => Return (lookup "0" props)
  | Boolean _ | Number _ => Return Undefined
  end.

(** [v.insertId]. *)
Definition get_insertId (v : value) : completion value :=
  match v with
  | Undefined =>
      Throw (TypeError
               "Cannot read properties of undefined (reading 'insertId')")
  | Null =>
      Throw (TypeError
               "Cannot read properties of null (reading 'insertId')")
  | Object props => Return (lookup "insertId" props)
  | _ => Return Undefined
  end.

(** [v.key] for a key that is not an index and not [length]: reading a
    property of [undefined] or [null] throws, and only an object has such
    a property of its own. *)
Definition member (v : value) (key : string) : completion value :=
  match v with
  | Undefined =>
      Throw (TypeError ("Cannot read properties of undefined (reading '"
                        ++ key ++ "')"))
  | Null =>
      Throw (TypeError ("Cannot read properties of null (reading '"
                        ++ key ++ "')"))
  | Object props => Return (lookup key props)
  | _ => Return Undefined
  end.

(** [v[key]] on a value that is not [undefined] or [null], for a key that
    is its own when it has it: a key listed by [Object.keys], or a name no
    prototype has a member under. On a string the key is no index and not
    [length]. *)
Definition get_prop (v : value) (key : string) : value :=
  match v with
  | Object props => lookup key props
  | Array elems =>
      lookup key (combine (map index_key (seq 0 (List.length elems))) elems)
  | _ => Undefined
  end.

(** [Object.keys(v)]. *)
Definition keys (v : value) : completion (list string) :=
  match v with
  | Undefined | Null =>
      Throw (TypeError "Cannot convert undefined or null to object")
  | Object props => Return (map fst props)
  | Array elems => Return (map index_key (seq 0 (List.length elems)))
  | Str s => Return (map index_key (seq 0 (length16 s)))
  | Boolean _ | Number _ => Return []
  end.

(** [Object.values(v)]. *)
Definition values (v : value) : completion (list value) :=
  match v with
  | Undefined | Null =>
      Throw (TypeError "Cannot convert undefined or null to object")
  | Object props => Return (map snd props)
  | Array elems => Return elems
  | Str s => Return (chars s)
  | Boolean _ | Number _ => Return []
  end.

(** The array pattern [[a, b] = v]: the first two items the iterator of
    [v] yields; a value that is not iterable throws. *)
Definition destructure2 (v : value) : completion (value * value) :=
  match v with
  | Array elems => Return (nth 0 elems Undefined, nth 1 elems Undefined)
  | Str s => Return (nth 0 (chars s) Undefined, nth 1 (chars s) Undefined)
  | _ => Throw (TypeError (toString v ++ " is not iterable"))
  end.

(** [v.map(f)] for the values that have a [map] method. *)
Definition array_map (f : value -> value) (v : value)
  : completion (list value) :=
  match v with
  | Array elems => Return (map f elems)
  | Undefined =>
      Throw (TypeError "Cannot read properties of undefined (reading 'map')")
  | Null =>
      Throw (TypeError "Cannot read properties of null (reading 'map')")
  | _ => Throw (TypeError "cond.value.map is not a function")
  end.

Definition upper_ascii (c : ascii) : ascii :=
  if (Ascii.leb "a" c && Ascii.leb c "z")%bool
  then ascii_of_nat (nat_of_ascii c - 32)
  else c.

(** The characters of two bytes whose upper case is written in ASCII
    letters: U+00DF (sharp s), U+0131 (dotless i) and U+017F (long s). *)
Definition upper_of_two (c1 c2 : ascii) : option string :=
  let b1 := N_of_ascii c1 in
  let b2 := N_of_ascii c2 in
  if ((b1 =? 195) && (b2 =? 159))%N%bool then Some "SS"
  else if ((b1 =? 196) && (b2 =? 177))%N%bool then Some "I"
  else if ((b1 =? 197) && (b2 =? 191))%N%bool then Some "S"
  else None.

(** The characters of three bytes whose upper case is written in ASCII
    letters: the ligatures U+FB00 to U+FB06. *)
Definition upper_of_three (c1 c2 c3 : ascii) : option string :=
  let b1 := N_of_ascii c1 in
  let b2 := N_of_ascii c2 in
  let b3 := N_of_ascii c3 in
  if ((b1 =? 239) && (b2 =? 172))%N%bool then
    if (b3 =? 128)%N then Some "FF"
    else if (b3 =? 129)%N then Some "FI"
    else if (b3 =? 130)%N then Some "FL"
    else if (b3 =? 131)%N then Some "FFI"
    else if (b3 =? 132)%N then Some "FFL"
    else if (b3 =? 133)%N then Some "ST"
    else if (b3 =? 134)%N then Some "ST"
    else None
  else None.

(** [s.toUpperCase()], as far as its callers can tell. The letters [a] to
    [z] and every character beyond ASCII whose upper case is written in
    ASCII letters alone are mapped; any other character beyond ASCII is
    left as it is, where JavaScript may map it to characters of which at
    least one is beyond ASCII. Each caller compares the result with words
    of ASCII capitals and uses it only when it is one of them, and either
    result is none of them. *)
Fixpoint toUpperCase (s : string) : string :=
  match s with
  | EmptyString => EmptyString
  | String c1 rest1 =>
      match rest1 with
      | EmptyString => String (upper_ascii c1) EmptyString
      | String c2 rest2 =>
          match upper_of_two c1 c2 with
          | Some upper => upper ++ toUpperCase rest2
          | None =>
              match rest2 with
              | EmptyString => String (upper_ascii c1) (toUpperCase rest1)
              | String c3 rest3 =>
                  match upper_of_three c1 c2 c3 with
                  | Some upper => upper ++ toUpperCase rest3
                  | None => String (upper_ascii c1) (toUpperCase rest1)
                  end
              end
          end
      end
  end.

(** [xs.includes(x)] on an array of strings. *)
Definition includes (xs : list string) (x : string) : bool :=
  existsb (String.eqb x) xs.

(** [s.startsWith(p)]. *)
Definition startsWith (s p : string) : bool := String.prefix p s.

(** [arr.map((x, index) => f(x, index))]. *)
Fixpoint map_index_from {A B : Type} (f : A -> nat -> B) (i : nat)
         (l : list A) : list B :=
  match l with
  | [] => []
  | x :: rest => f x i :: map_index_from f (S i) rest
  end.

Definition map_index {A B : Type} (f : A -> nat -> B) (l : list A)
  : list B := map_index_from f 0 l.

(** Running a callback that may throw over an array, left to right. *)
Fixpoint map_throwing {A B : Type} (f : A -> completion B) (l : list A)
  : completion (list B) :=
  match l with
  | [] => Return []
  | x :: rest =>
      match f x with
      | Throw e => Throw e
      | Return y =>
          match map_throwing f rest with
          | Throw e => Throw e
          | Return ys => Return (y :: ys)
          end
      end
  end.

End Js.

Import Js.

(* ===================================================================== *)
(** ** The data entities of [@types/Field.ts] *)
(* ===================================================================== *)

Module Foreing.
Record t := make { table : string; column : string }.
End Foreing.

(** [interface Field]. [defaultValue] is declared a string, and callers
    also pass numbers and [null], so it is any value ([Undefined] when the
    property is absent); the other optional properties are [None] when
    absent. *)
Module Field.
Record t := make {
  name : string;
  type : string;
  defaultValue : Js.value;
  length : option Js.number;
  options : option (list string);
  foreing : option Foreing.t
}.
End Field.

(** [interface Condition]. *)
Module Condition.
Record t := make {
  column : option string;
  operator : option string;
  value : Js.value;
  query : Js.value;
  type : string;
  isGroup : bool
}.
End Condition.

(** [interface OrderBy]. *)
Module OrderBy.
Record t := make { column : string; direction : string }.
End OrderBy.

(** One row of [SHOW COLUMNS], as [Columns.get] stores it. *)
Module ColumnMeta.
Record t := make {
  type : Js.value;
  defaultValue : Js.value;
  key : Js.value;
  extra : Js.value
}.
End ColumnMeta.

(* ===================================================================== *)
(** ** The connection pool *)
(* ===================================================================== *)

(** The [mysql2] pool, the one collaborator of the two classes. [World] is
    the state of everything behind it; a pool is a handle into it. [query]
    is [pool.query(sql)] with the first component of the resolved pair
    already taken. *)
Record Driver := {
  World : Type;
  Pool : Type;
  query : Pool -> string -> World -> completion Js.value * World;
  pool_end : Pool -> World -> completion unit * World;
  createPool : bool -> World -> completion Pool * World;
  MYSQL_DATABASE : Js.value
}.

(** What the runs below thread along: the world behind the pool, and the
    statements handed to [#get_response] with a pool in place, oldest
    first. *)
Record Machine (drv : Driver) := {
  world : World drv;
  dispatched : list string
}.
Arguments world {drv} m.
Arguments dispatched {drv} m.

(** [#get_response(sql)], the same private method in both classes: it reads
    and may replace [this.conection], so it takes the field and returns its
    new value. On [ER_BAD_DB_ERROR] the pool is ended, the database is
    created over a pool without one, and [sql] is run once more. *)
Definition get_response (drv : Driver) (conection : option (Pool drv))
           (sql : string) (m : Machine drv)
  : completion Js.value * option (Pool drv) * Machine drv :=
  match conection with
  | None =>
      (Throw (Error "No se ha establecido una conexión a la base de datos."),
       conection, m)
  | Some pool =>
      let log := (dispatched m ++ [sql])%list in
      match query drv pool sql (world m) with
      | (Return result, w1) => (Return result, conection, Build_Machine drv w1 log)
      | (Throw error, w1) =>
          match Js.code error with
          | Some "ER_BAD_DB_ERROR" =>
              match pool_end drv pool w1 with
              | (Throw e, w2) => (Throw e, conection, Build_Machine drv w2 log)
              | (Return _, w2) =>
              match createPool drv false w2 with
              | (Throw e, w3) => (Throw e, conection, Build_Machine drv w3 log)
              | (Return pool_aux, w3) =>
              match query drv pool_aux
                      ("CREATE DATABASE `" ++ toString (MYSQL_DATABASE drv)
                       ++ "`") w3 with
              | (Throw e, w4) =>
                  (Throw e, Some pool_aux, Build_Machine drv w4 log)
              | (Return _, w4) =>
              match pool_end drv pool_aux w4 with
              | (Throw e, w5) =>
                  (Throw e, Some pool_aux, Build_Machine drv w5 log)
              | (Return _, w5) =>
              match createPool drv true w5 with
              | (Throw e, w6) =>
                  (Throw e, Some pool_aux, Build_Machine drv w6 log)
              | (Return pool', w6) =>
              match query drv pool' sql w6 with
              | (r, w7) => (r, Some pool', Build_Machine drv w7 log)
              end end end end end end
          | _ => (Throw error, conection, Build_Machine drv w1 log)
          end
      end
  end.

(* ===================================================================== *)
(** ** Column definitions shared by [create], [Columns.add] and
       [Columns.edit] *)
(* ===================================================================== *)

Module Ddl.

(** The conditional expression appended to a column definition, written
    three times in the source with the same branches:
    [isText ? (defaultValue ? ` DEFAULT '${defaultValue}'` : ` DEFAULT NULL`)
            : (defaultValue === 'NONE' || defaultValue === null) ? ''
            : (defaultValue ? ` DEFAULT ${defaultValue}` : ` DEFAULT NULL`)].
    The three sites differ in how [isText] is computed and in the [if] that
    guards the expression. *)
Definition default_branches (isText : bool) (defaultValue : Js.value)
  : string :=
  if isText then
    (if truthy defaultValue
     then " DEFAULT '" ++ toString defaultValue ++ "'"
     else " DEFAULT NULL")
  else if (strict_eq defaultValue (Str "NONE") || strict_eq defaultValue Null)%bool
  then EmptyString
  else (if truthy defaultValue
        then " DEFAULT " ++ toString defaultValue
        else " DEFAULT NULL").

(** [if (options) { ... }]: the three suffixes, in the fixed order. *)
Definition options_suffix (options : option (list string)) : string :=
  match options with
  | None => EmptyString
  | Some opts =>
      (if includes opts "primary" then " PRIMARY KEY" else EmptyString)
      ++ (if includes opts "autoincrement" then " AUTO_INCREMENT"
          else EmptyString)
      ++ (if includes opts "unique" then " UNIQUE" else EmptyString)
  end.

Definition length_truthy (length : option Js.number) : bool :=
  match length with
  | None => false
  | Some n => number_truthy n
  end.

Definition length_toString (length : option Js.number) : string :=
  match length with
  | None => "undefined"
  | Some n => number_toString n
  end.

(** [['VARCHAR', 'CHAR', 'TEXT', 'ENUM', 'SET'].includes(type.toUpperCase())],
    the test of [create]. *)
Definition includes_upper (type : string) : bool :=
  includes ["VARCHAR"; "CHAR"; "TEXT"; "ENUM"; "SET"] (toUpperCase type).

(** [['varchar', 'char', 'text', 'enum', 'set'].includes(type)], the test of
    [Columns.add] and [Columns.edit]. *)
Definition includes_lower (type : string) : bool :=
  includes ["varchar"; "char"; "text"; "enum"; "set"] type.

(** The text [create] adds for the default, inside [if (defaultValue)]. *)
Definition create_default (type : string) (defaultValue : Js.value) : string :=
  if truthy defaultValue then
    default_branches (includes_upper type) defaultValue
  else EmptyString.

(** The callback of [fields.map] in [TableQuery.create]. *)
Definition create_fieldDefinition (field : Field.t) : completion string :=
  let name := Field.name field in
  let type := Field.type field in
  let defaultValue := Field.defaultValue field in
  let length := Field.length field in
  if (negb (truthy (Str name)) || negb (truthy (Str type)))%bool then
    Throw (Error "Cada campo debe tener un nombre y un tipo.")
  else
    let fieldDefinition :=
      if (length_truthy length && negb (type =? "text"))%bool
      then "`" ++ name ++ "` " ++ type ++ "(" ++ length_toString length ++ ")"
      else "`" ++ name ++ "` " ++ type in
    let fieldDefinition := fieldDefinition ++ create_default type defaultValue in
    let fieldDefinition := fieldDefinition ++ options_suffix (Field.options field) in
    let fieldDefinition :=
      match Field.foreing field with
      | Some foreing =>
          fieldDefinition ++ ", FOREIGN KEY (`" ++ name ++ "`) REFERENCES `"
          ++ Foreing.table foreing ++ "`(`" ++ Foreing.column foreing ++ "`)"
      | None => fieldDefinition
      end in
    Return fieldDefinition.

(** [fullType] of [Columns.add] and [Columns.edit]. *)
Definition fullType (field : Field.t) : string :=
  if (length_truthy (Field.length field)
      && negb (Field.type field =? "TEXT"))%bool
  then Field.type field ++ "(" ++ length_toString (Field.length field) ++ ")"
  else Field.type field.

(** The text [Columns.add] adds for the default, inside
    [if (defaultValue)]. *)
Definition add_default (type : string) (defaultValue : Js.value) : string :=
  if truthy defaultValue then
    default_branches (includes_lower type) defaultValue
  else EmptyString.

Definition foreing_suffix (name : string) (foreing : option Foreing.t)
  : string :=
  match foreing with
  | Some f =>
      ", ADD FOREIGN KEY (`" ++ name ++ "`) REFERENCES `"
      ++ Foreing.table f ++ "`(`" ++ Foreing.column f ++ "`)"
  | None => EmptyString
  end.

(** [alterQuery] of [Columns.add] for a field that is not a current
    column. *)
Definition add_alterQuery (tableName : string) (field : Field.t) : string :=
  "ALTER TABLE `" ++ tableName ++ "` ADD COLUMN `" ++ Field.name field
  ++ "` " ++ fullType field
  ++ add_default (Field.type field) (Field.defaultValue field)
  ++ options_suffix (Field.options field)
  ++ foreing_suffix (Field.name field) (Field.foreing field).

(** The text [Columns.edit] adds for the default, inside
    [if (existingField.defaultValue !== defaultValue)]. *)
Definition edit_default (existing : ColumnMeta.t) (type : string)
           (defaultValue : Js.value) : string :=
  if negb (strict_eq (ColumnMeta.defaultValue existing) defaultValue) then
    default_branches (includes_lower type) defaultValue
  else EmptyString.

Definition option_requested (options : option (list string)) (o : string)
  : bool :=
  match options with
  | Some opts => includes opts o
  | None => false
  end.

(** The test of [Columns.edit] that decides whether a current column is
    modified. *)
Definition edit_differs (existing : ColumnMeta.t) (field : Field.t) : bool :=
  (negb (strict_eq (ColumnMeta.type existing) (Str (fullType field)))
   || negb (strict_eq (ColumnMeta.defaultValue existing)
                      (Field.defaultValue field))
   || (option_requested (Field.options field) "autoincrement"
       && negb (strict_eq (ColumnMeta.extra existing) (Str "auto_increment")))
   || (option_requested (Field.options field) "unique"
       && negb (strict_eq (ColumnMeta.key existing) (Str "UNI")))
   || (option_requested (Field.options field) "primary"
       && negb (strict_eq (ColumnMeta.key existing) (Str "PRI"))))%bool.

(** [modifyQuery] of [Columns.edit] for a current column that differs. *)
Definition edit_modifyQuery (tableName : string) (existing : ColumnMeta.t)
           (field : Field.t) : string :=
  "ALTER TABLE `" ++ tableName ++ "` MODIFY COLUMN `" ++ Field.name field
  ++ "` " ++ fullType field
  ++ edit_default existing (Field.type field) (Field.defaultValue field)
  ++ options_suffix (Field.options field)
  ++ foreing_suffix (Field.name field) (Field.foreing field).

End Ddl.

(* ===================================================================== *)
(** ** Asynchronous methods *)
(* ===================================================================== *)

(** An [async] method of a class runs over [this] and the machine, and ends
    by returning or by throwing (a rejected promise). *)
Module Run.

Section WithThis.

Variable drv : Driver.
Variable This : Type.

Definition Async (A : Type) : Type :=
  This -> Machine drv -> completion A * This * Machine drv.

Definition ret {A : Type} (a : A) : Async A :=
  fun this m => (Return a, this, m).

Definition throw {A : Type} (e : Js.error) : Async A :=
  fun this m => (Throw e, this, m).

Definition bind {A B : Type} (c : Async A) (k : A -> Async B) : Async B :=
  fun this m =>
    match c this m with
    | (Return a, this', m') => k a this' m'
    | (Throw e, this', m') => (Throw e, this', m')
    end.

(** [try { c } catch (error) { h error }]. *)
Definition try_catch {A : Type} (c : Async A) (h : Js.error -> Async A)
  : Async A :=
  fun this m =>
    match c this m with
    | (Return a, this', m') => (Return a, this', m')
    | (Throw e, this', m') => h e this' m'
    end.

(** A synchronous expression over [this] that may throw. *)
Definition eval {A : Type} (f : This -> completion A) : Async A :=
  fun this m => (f this, this, m).

(** A synchronous method that mutates [this]. *)
Definition mutate (f : This -> This) : Async unit :=
  fun this m => (Return tt, f this, m).

End WithThis.

Arguments ret {drv This A} a.
Arguments throw {drv This A} e.
Arguments bind {drv This A B} c k.
Arguments try_catch {drv This A} c h.
Arguments eval {drv This A} f.
Arguments mutate {drv This} f.

Module Notations.
Notation "x <- c ;; k" := (bind c (fun x => k))
  (at level 61, c at next level, right associativity).
Notation "c ;;; k" := (bind c (fun _ => k))
  (at level 61, right associativity).
End Notations.

End Run.

Import Run Run.Notations.

(* ===================================================================== *)
(** ** [class TableQuery] *)
(* ===================================================================== *)

Module TableQuery.

Section WithDriver.

Variable drv : Driver.

(** The private fields of the class. *)
Record t := make {
  conection : option (Pool drv);
  nextType : string;
  joins : list string;
  _orderBy : list OrderBy.t;
  _distinct : bool;
  _groupBy : list string;
  tableName : string;
  fields : list string;
  query : string;
  conditions : list Condition.t;
  limitValue : option Js.number;
  pageValue : option Js.number
}.

Definition set_conection (v : option (Pool drv)) (q : t) : t :=
  make v (nextType q) (joins q) (_orderBy q) (_distinct q) (_groupBy q)
       (tableName q) (fields q) (query q) (conditions q) (limitValue q)
       (pageValue q).

Definition set_nextType (v : string) (q : t) : t :=
  make (conection q) v (joins q) (_orderBy q) (_distinct q) (_groupBy q)
       (tableName q) (fields q) (query q) (conditions q) (limitValue q)
       (pageValue q).

Definition set_joins (v : list string) (q : t) : t :=
  make (conection q) (nextType q) v (_orderBy q) (_distinct q) (_groupBy q)
       (tableName q) (fields q) (query q) (conditions q) (limitValue q)
       (pageValue q).

Definition set_orderBy (v : list OrderBy.t) (q : t) : t :=
  make (conection q) (nextType q) (joins q) v (_distinct q) (_groupBy q)
       (tableName q) (fields q) (query q) (conditions q) (limitValue q)
       (pageValue q).

Definition set_distinct (v : bool) (q : t) : t :=
  make (conection q) (nextType q) (joins q) (_orderBy q) v (_groupBy q)
       (tableName q) (fields q) (query q) (conditions q) (limitValue q)
       (pageValue q).

Definition set_groupBy (v : list string) (q : t) : t :=
  make (conection q) (nextType q) (joins q) (_orderBy q) (_distinct q) v
       (tableName q) (fields q) (query q) (conditions q) (limitValue q)
       (pageValue q).

Definition set_query (v : string) (q : t) : t :=
  make (conection q) (nextType q) (joins q) (_orderBy q) (_distinct q)
       (_groupBy q) (tableName q) (fields q) v (conditions q) (limitValue q)
       (pageValue q).

Definition set_conditions (v : list Condition.t) (q : t) : t :=
  make (conection q) (nextType q) (joins q) (_orderBy q) (_distinct q)
       (_groupBy q) (tableName q) (fields q) (query q) v (limitValue q)
       (pageValue q).

Definition set_limitValue (v : option Js.number) (q : t) : t :=
  make (conection q) (nextType q) (joins q) (_orderBy q) (_distinct q)
       (_groupBy q) (tableName q) (fields q) (query q) (conditions q) v
       (pageValue q).

Definition set_pageValue (v : option Js.number) (q : t) : t :=
  make (conection q) (nextType q) (joins q) (_orderBy q) (_distinct q)
       (_groupBy q) (tableName q) (fields q) (query q) (conditions q)
       (limitValue q) v.

(** [this.conditions.push(cond)]. *)
Definition push_condition (cond : Condition.t) (q : t) : t :=
  set_conditions (conditions q ++ [cond])%list q.

(** [constructor(tableName, conection = null)]. *)
Definition new (tableName : string) (conection : option (Pool drv)) : t :=
  make conection "AND" [] [] false [] tableName []
       ("SELECT * FROM `" ++ tableName ++ "`") [] None None.

(** [select(fields = [])]. *)
Definition select (fields : list string) (q : t) : t :=
  if (0 <? List.length fields)%nat then
    set_query ("SELECT " ++ (if _distinct q then "DISTINCT " else EmptyString)
               ++ String.concat ", " fields ++ " FROM `" ++ tableName q ++ "`")
              q
  else q.

(** [where(column, operator, value)] ([where] is a keyword here, hence the
    underscore); [operator] is [None] when the caller passes [undefined]. *)
Definition where_ (column : string) (operator : option string)
           (value : Js.value) (q : t) : t :=
  let operator := match operator with None => "=" | Some op => op end in
  let q := push_condition
             (Condition.make (Some column) (Some operator) value Undefined
                             (nextType q) false) q in
  set_nextType "AND" q.

(** [orWhere(column, operator, value)]. *)
Definition orWhere (column : string) (operator : option string)
           (value : Js.value) (q : t) : t :=
  let operator := match operator with None => "=" | Some op => op end in
  push_condition
    (Condition.make (Some column) (Some operator) value Undefined "OR" false)
    q.

Definition or (q : t) : t := set_nextType "OR" q.

Definition and (q : t) : t := set_nextType "AND" q.

(** [whereBetween(column, [value1, value2])]: the second parameter is an
    array pattern, so the argument is destructured on entry. *)
Definition whereBetween (column : string) (arg : Js.value) (q : t)
  : completion t :=
  match destructure2 arg with
  | Throw e => Throw e
  | Return (value1, value2) =>
      if (negb (strict_eq value1 Undefined)
          && negb (strict_eq value2 Undefined))%bool
      then
        let q := push_condition
                   (Condition.make (Some column) (Some "BETWEEN")
                                   (Array [value1; value2]) Undefined
                                   (nextType q) false) q in
        Return (set_nextType "AND" q)
      else Return q
  end.

(** [whereIn(column, values)]. *)
Definition whereIn (column : string) (values : Js.value) (q : t) : t :=
  match values with
  | Array elems =>
      if (0 <? List.length elems)%nat then
        let q := push_condition
                   (Condition.make (Some column) (Some "IN") values Undefined
                                   (nextType q) false) q in
        set_nextType "AND" q
      else q
  | _ => q
  end.

(** [whereNull(column)]. *)
Definition whereNull (column : string) (q : t) : t :=
  let q := push_condition
             (Condition.make (Some column) (Some "IS NULL") Undefined
                             Undefined (nextType q) false) q in
  set_nextType "AND" q.

(** [whereNotNull(column)]. *)
Definition whereNotNull (column : string) (q : t) : t :=
  let q := push_condition
             (Condition.make (Some column) (Some "IS NOT NULL") Undefined
                             Undefined (nextType q) false) q in
  set_nextType "AND" q.

Definition option_toString (s : option string) : string :=
  match s with
  | Some s => s
  | None => "undefined"
  end.

Definition operator_is (cond : Condition.t) (op : string) : bool :=
  match Condition.operator cond with
  | Some o => o =? op
  | None => false
  end.

(** [typeof v === 'string' ? `'${v}'` : v], as a value. *)
Definition quote_if_string (v : Js.value) : Js.value :=
  match v with
  | Str s => Str ("'" ++ s ++ "'")
  | _ => v
  end.

(** The text of one condition without its prefix: [(${cond.query})] for a
    group, [conditionStr] otherwise. *)
Definition conditionStr (cond : Condition.t) : completion string :=
  let column := option_toString (Condition.column cond) in
  if Condition.isGroup cond then
    Return ("(" ++ toString (Condition.query cond) ++ ")")
  else if operator_is cond "BETWEEN" then
    match destructure2 (Condition.value cond) with
    | Throw e => Throw e
    | Return (value1, value2) =>
        let formattedValue1 := quote_if_string value1 in
        let formattedValue2 := quote_if_string value2 in
        Return (column ++ " BETWEEN " ++ toString formattedValue1 ++ " AND "
                ++ toString formattedValue2)
    end
  else if operator_is cond "IN" then
    match array_map quote_if_string (Condition.value cond) with
    | Throw e => Throw e
    | Return mapped =>
        let values := Js.join ", " mapped in
        Return (column ++ " IN (" ++ values ++ ")")
    end
  else if operator_is cond "IS NULL" then
    Return (column ++ " IS NULL")
  else if operator_is cond "IS NOT NULL" then
    Return (column ++ " IS NOT NULL")
  else
    let value := quote_if_string (Condition.value cond) in
    Return (column ++ " " ++ option_toString (Condition.operator cond) ++ " "
            ++ toString value).

(** The callback of [this.conditions.map((cond, index) => ...)]. *)
Definition render_condition (cond : Condition.t) (index : nat)
  : completion string :=
  let prefix := if (index =? 0)%nat then EmptyString
                else " " ++ Condition.type cond ++ " " in
  match conditionStr cond with
  | Throw e => Throw e
  | Return body => Return (prefix ++ body)
  end.

(** [buildConditions()]: the callback runs over the conditions in order
    (the first throw ends the call), and the pieces are joined with the
    empty separator. *)
Definition buildConditions (q : t) : completion string :=
  match map_throwing (fun r => r) (map_index render_condition (conditions q))
  with
  | Throw e => Throw e
  | Return pieces => Return (String.concat EmptyString pieces)
  end.

(** [whereGroup(callback)]: the callback receives a new builder on the same
    table, with no connection, and fills its conditions. *)
Definition whereGroup (callback : t -> completion t) (q : t) : completion t :=
  let groupQuery := new (tableName q) None in
  match callback groupQuery with
  | Throw e => Throw e
  | Return groupQuery =>
      match buildConditions groupQuery with
      | Throw e => Throw e
      | Return groupConditions =>
          let q := push_condition
                     (Condition.make None None Undefined (Str groupConditions)
                                     (nextType q) true) q in
          Return (set_nextType "AND" q)
      end
  end.

Definition join (table column1 operator column2 : string) (q : t) : t :=
  set_joins (joins q ++ [("JOIN " ++ table ++ " ON " ++ column1 ++ " "
                          ++ operator ++ " " ++ column2)%string])%list q.

Definition leftJoin (table column1 operator column2 : string) (q : t) : t :=
  set_joins (joins q ++ [("LEFT JOIN " ++ table ++ " ON " ++ column1 ++ " "
                          ++ operator ++ " " ++ column2)%string])%list q.

Definition rightJoin (table column1 operator column2 : string) (q : t) : t :=
  set_joins (joins q ++ [("RIGHT JOIN " ++ table ++ " ON " ++ column1 ++ " "
                          ++ operator ++ " " ++ column2)%string])%list q.

(** [orderBy(column, direction = 'ASC')]. *)
Definition orderBy (column : string) (direction : option string) (q : t)
  : completion t :=
  let direction := match direction with None => "ASC" | Some d => d end in
  let validDirections := ["ASC"; "DESC"] in
  if includes validDirections (toUpperCase direction) then
    Return (set_orderBy
              (_orderBy q ++ [OrderBy.make column (toUpperCase direction)])%list
              q)
  else
    Throw (Error ("Invalid direction: " ++ direction
                  ++ ". Use 'ASC' or 'DESC'.")).

Definition groupBy (column : string) (q : t) : t :=
  set_groupBy (_groupBy q ++ [column])%list q.

(** [this.query.replace(/^SELECT /, 'SELECT DISTINCT ')]: the pattern is
    anchored, so at most the leading [SELECT ] is replaced. *)
Definition replace_leading_SELECT (s : string) : string :=
  if startsWith s "SELECT " then
    "SELECT DISTINCT " ++ substring 7 (String.length s - 7) s
  else s.

(** [distinct()]. *)
Definition distinct (q : t) : t :=
  let q := set_distinct true q in
  set_query (replace_leading_SELECT (query q)) q.

(** [count(column = '*')]; the table name is not quoted here. *)
Definition count (column : option string) (q : t) : t :=
  let column := match column with None => "*" | Some c => c end in
  set_query ("SELECT COUNT(" ++ column ++ ") AS count FROM " ++ tableName q) q.

Definition sum (column : string) (q : t) : t :=
  set_query ("SELECT SUM(" ++ column ++ ") AS sum FROM `" ++ tableName q
             ++ "`") q.

Definition avg (column : string) (q : t) : t :=
  set_query ("SELECT AVG(" ++ column ++ ") AS avg FROM `" ++ tableName q
             ++ "`") q.

Definition max (column : string) (q : t) : t :=
  set_query ("SELECT MAX(" ++ column ++ ") AS max FROM `" ++ tableName q
             ++ "`") q.

Definition min (column : string) (q : t) : t :=
  set_query ("SELECT MIN(" ++ column ++ ") AS min FROM `" ++ tableName q
             ++ "`") q.

Definition limit (number : Js.number) (q : t) : t :=
  set_limitValue (Some number) q.

Definition page (number : Js.number) (q : t) : t :=
  set_pageValue (Some number) q.

(** The clauses [buildQuery] appends, each with its guard. *)
Definition joins_clause (q : t) : string :=
  if (0 <? List.length (joins q))%nat
  then " " ++ String.concat " " (joins q)
  else EmptyString.

Definition where_clause (whereClauses : string) : string :=
  if (0 <? String.length whereClauses)%nat
  then " WHERE " ++ whereClauses
  else EmptyString.

Definition groupBy_clause (q : t) : string :=
  if (0 <? List.length (_groupBy q))%nat
  then " GROUP BY " ++ String.concat ", " (_groupBy q)
  else EmptyString.

(** [limitValue !== null && limitValue !== undefined
     && !Number.isNaN(limitValue)]. *)
Definition limit_clause (q : t) : string :=
  match limitValue q with
  | Some n => if negb (isNaN n) then " LIMIT " ++ number_toString n
              else EmptyString
  | None => EmptyString
  end.

(** [limitValue && pageValue !== null && pageValue !== undefined
     && !Number.isNaN(pageValue)]. *)
Definition offset_clause (q : t) : string :=
  match limitValue q, pageValue q with
  | Some l, Some p =>
      if (number_truthy l && negb (isNaN p))%bool then
        let offset := Js.mul (Js.sub p (Finite 1)) l in
        " OFFSET " ++ number_toString offset
      else EmptyString
  | _, _ => EmptyString
  end.

Definition orderBy_clause (q : t) : string :=
  if ((0 <? List.length (_orderBy q))%nat
      && negb (startsWith (query q) "SELECT COUNT")
      && negb (startsWith (query q) "SELECT SUM")
      && negb (startsWith (query q) "SELECT AVG")
      && negb (startsWith (query q) "SELECT MAX")
      && negb (startsWith (query q) "SELECT MIN"))%bool
  then
    let orderByClauses :=
      String.concat ", "
        (map (fun order => OrderBy.column order ++ " "
                           ++ OrderBy.direction order) (_orderBy q)) in
    " ORDER BY " ++ orderByClauses
  else EmptyString.

(** [buildQuery(includeSelect = true)]: each [query += ...] in the order of
    the source. *)
Definition buildQuery (includeSelect : bool) (q : t) : completion string :=
  let query0 := if includeSelect then query q else EmptyString in
  let query1 := query0 ++ joins_clause q in
  match buildConditions q with
  | Throw e => Throw e
  | Return whereClauses =>
      let query2 := query1 ++ where_clause whereClauses in
      let query3 := query2 ++ groupBy_clause q in
      let query4 := query3 ++ limit_clause q in
      let query5 := query4 ++ offset_clause q in
      let query6 := query5 ++ orderBy_clause q in
      Return query6
  end.

(** *** The asynchronous methods *)

Definition Async (A : Type) : Type := Run.Async drv t A.

(** [this.#get_response(sql)]. *)
Definition get_response_ (sql : string) : Async Js.value :=
  fun this m =>
    match get_response drv (conection this) sql m with
    | (r, conection', m') => (r, set_conection conection' this, m')
    end.

(** [create(fields)]. *)
Definition create (fields : list Field.t) : Async bool :=
  defs <- eval (fun _ => map_throwing Ddl.create_fieldDefinition fields) ;;
  tableName <- eval (fun this => Return (tableName this)) ;;
  let fieldsDefinition := String.concat ", " defs in
  let sqlQuery := "CREATE TABLE IF NOT EXISTS `" ++ tableName ++ "` ("
                  ++ fieldsDefinition in
  let sqlQuery := sqlQuery ++ ")" in
  get_response_ sqlQuery ;;;
  ret true.

(** [drop()]. *)
Definition drop : Async bool :=
  try_catch
    (tableName <- eval (fun this => Return (tableName this)) ;;
     let sqlQuery := "DROP TABLE IF EXISTS `" ++ tableName ++ "`" in
     get_response_ sqlQuery ;;;
     ret true)
    (fun error =>
       throw (Error ("Error al eliminar la tabla: " ++ Js.message error))).

(** [get()]. *)
Definition get : Async Js.value :=
  sqlQuery <- eval (buildQuery true) ;;
  get_response_ sqlQuery.

(** [result[0] || null]. *)
Definition first_or_null (result : Js.value) : completion Js.value :=
  match index0 result with
  | Throw e => Throw e
  | Return r0 => Return (if truthy r0 then r0 else Null)
  end.

(** [first()]. *)
Definition first : Async Js.value :=
  sqlQuery <- eval (buildQuery true) ;;
  result <- get_response_ sqlQuery ;;
  eval (fun _ => first_or_null result).

(** [find(value, column = 'id')]. *)
Definition find (value : Js.value) (column : option string) : Async Js.value :=
  let column := match column with None => "id" | Some c => c end in
  mutate (where_ column (Some "=") value) ;;;
  sqlQuery <- eval (buildQuery true) ;;
  result <- get_response_ sqlQuery ;;
  eval (fun _ => first_or_null result).

(** [typeof item === 'object' && item !== null]. *)
Definition is_object (item : Js.value) : bool :=
  ((typeof item =? "object") && negb (strict_eq item Null))%bool.

(** The callback of [Object.values(row).map] in [insert]. *)
Definition insert_value (value : Js.value) : Js.value :=
  match value with
  | Undefined | Null => Str "NULL"
  | _ => quote_if_string value
  end.

(** [sqlQuery] of one iteration of [insert]. *)
Definition insert_sql (tableName : string) (row : Js.value)
  : completion string :=
  match Js.keys row with
  | Throw e => Throw e
  | Return ks =>
      let keys := map (fun key => "`" ++ key ++ "`") ks in
      match Js.values row with
      | Throw e => Throw e
      | Return vs =>
          let values := map insert_value vs in
          let columns := String.concat ", " keys in
          let placeholders := Js.join ", " values in
          Return ("INSERT INTO `" ++ tableName ++ "` (" ++ columns
                  ++ ") VALUES (" ++ placeholders ++ ")")
      end
  end.

(** [result.insertId || 0]. *)
Definition insertId_or_0 (result : Js.value) : completion Js.value :=
  match get_insertId result with
  | Throw e => Throw e
  | Return id => Return (if truthy id then id else Number (Finite 0))
  end.

(** The body of [for (const row of data)] in [insert]; it returns
    [insertedRow]. *)
Definition insert_row (row : Js.value) : Async Js.value :=
  sqlQuery <- eval (fun this => insert_sql (tableName this) row) ;;
  result <- get_response_ sqlQuery ;;
  id <- eval (fun _ => insertId_or_0 result) ;;
  mutate (where_ "id" (Some "=") id) ;;;
  first.

(** The [for ... of] loop of [insert], with [results] as it stands. *)
Fixpoint insert_loop (data : list Js.value) (results : list Js.value)
  : Async (list Js.value) :=
  match data with
  | [] => ret results
  | row :: rest =>
      insertedRow <- insert_row row ;;
      insert_loop rest (results ++ [insertedRow])%list
  end.

(** [insert(data)]. *)
Definition insert (data : Js.value) : Async (list Js.value) :=
  match data with
  | Array items =>
      if negb (forallb is_object items) then
        throw (Error "El array debe contener solo objetos válidos.")
      else
        try_catch (insert_loop items [])
          (fun error =>
             throw (Error ("Error al insertar los datos: "
                           ++ Js.message error)))
  | _ =>
      throw (Error
        "El método insert requiere un array de objetos con pares clave-valor.")
  end.

(** [updates] of [update]. *)
Definition update_assignments (data : Js.value) : completion string :=
  match Js.keys data with
  | Throw e => Throw e
  | Return ks =>
      Return (String.concat ", "
                (map (fun key =>
                        let value := get_prop data key in
                        key ++ " = " ++ toString (quote_if_string value))
                     ks))
  end.

(** [update(data)]. *)
Definition update (data : Js.value) : Async Js.value :=
  if (negb (typeof data =? "object") || isArray data)%bool then
    throw (Error "El método update requiere un objeto con pares clave-valor.")
  else
    updates <- eval (fun _ => update_assignments data) ;;
    whereClauses <- eval buildConditions ;;
    if (String.length whereClauses =? 0)%nat then
      throw (Error
        "Debe especificar al menos una condición WHERE para realizar un update.")
    else
      tableName <- eval (fun this => Return (tableName this)) ;;
      let sqlQuery := "UPDATE `" ++ tableName ++ "` SET " ++ updates
                      ++ " WHERE " ++ whereClauses in
      get_response_ sqlQuery.

(** [delete()]. *)
Definition delete : Async Js.value :=
  whereClauses <- eval buildConditions ;;
  if (String.length whereClauses =? 0)%nat then
    throw (Error
      "Debe especificar al menos una condición WHERE para realizar un delete.")
  else
    tableName <- eval (fun this => Return (tableName this)) ;;
    let sqlQuery := "DELETE FROM `" ++ tableName ++ "` WHERE "
                    ++ whereClauses in
    get_response_ sqlQuery.

End WithDriver.

Arguments conection {drv}.
Arguments nextType {drv}.
Arguments joins {drv}.
Arguments _orderBy {drv}.
Arguments _distinct {drv}.
Arguments _groupBy {drv}.
Arguments tableName {drv}.
Arguments fields {drv}.
Arguments query {drv}.
Arguments conditions {drv}.
Arguments limitValue {drv}.
Arguments pageValue {drv}.
Arguments set_conection {drv}.
Arguments set_nextType {drv}.
Arguments set_joins {drv}.
Arguments set_orderBy {drv}.
Arguments set_distinct {drv}.
Arguments set_groupBy {drv}.
Arguments set_query {drv}.
Arguments set_conditions {drv}.
Arguments set_limitValue {drv}.
Arguments set_pageValue {drv}.
Arguments push_condition {drv}.
Arguments select {drv}.
Arguments where_ {drv}.
Arguments orWhere {drv}.
Arguments or {drv}.
Arguments and {drv}.
Arguments whereBetween {drv}.
Arguments whereIn {drv}.
Arguments whereNull {drv}.
Arguments whereNotNull {drv}.
Arguments buildConditions {drv}.
Arguments whereGroup {drv}.
Arguments join {drv}.
Arguments leftJoin {drv}.
Arguments rightJoin {drv}.
Arguments orderBy {drv}.
Arguments groupBy {drv}.
Arguments distinct {drv}.
Arguments count {drv}.
Arguments sum {drv}.
Arguments avg {drv}.
Arguments max {drv}.
Arguments min {drv}.
Arguments limit {drv}.
Arguments page {drv}.
Arguments joins_clause {drv}.
Arguments groupBy_clause {drv}.
Arguments limit_clause {drv}.
Arguments offset_clause {drv}.
Arguments orderBy_clause {drv}.
Arguments buildQuery {drv}.

End TableQuery.

(* ===================================================================== *)
(** ** [class Columns] *)
(* ===================================================================== *)

Module Columns.

Section WithDriver.

Variable drv : Driver.

Record t := make {
  conection : option (Pool drv);
  tableName : string
}.

Definition set_conection (v : option (Pool drv)) (c : t) : t :=
  make v (tableName c).

Definition Async (A : Type) : Type := Run.Async drv t A.

(** [this.#get_response(sql)]. *)
Definition get_response_ (sql : string) : Async Js.value :=
  fun this m =>
    match get_response drv (conection this) sql m with
    | (r, conection', m') => (r, set_conection conection' this, m')
    end.

(** [columns()] of [TableQuery]: [new Columns(this.tableName,
    this.conection)]. *)
Definition columns (q : TableQuery.t drv) : t :=
  make (TableQuery.conection q) (TableQuery.tableName q).

(** The object [get] returns, as the list of what the fold stored in it:
    column name to what [SHOW COLUMNS] says of it. The object starts as
    [{}], so its prototype is [Object.prototype], and an assignment under
    the key [__proto__] stores no property of its own: it makes the object
    assigned the prototype. The list keeps that object under the key
    [__proto__], which is then no own property. *)
Definition CurrentFields : Type := list (string * ColumnMeta.t).

(** [acc[key] = meta]. *)
Fixpoint assign (key : string) (meta : ColumnMeta.t) (acc : CurrentFields)
  : CurrentFields :=
  match acc with
  | [] => [(key, meta)]
  | (k, old) :: rest =>
      if k =? key then (k, meta) :: rest else (k, old) :: assign key meta rest
  end.

(** What the fold stored under [name], if anything. *)
Fixpoint current (name : string) (acc : CurrentFields)
  : option ColumnMeta.t :=
  match acc with
  | [] => None
  | (k, meta) :: rest => if k =? name then Some meta else current name rest
  end.

(** The names under which [Object.prototype] has a property. Each is a
    function, but for [__proto__], which reads as the prototype of the
    object. *)
Definition object_prototype_names : list string :=
  ["constructor"; "__defineGetter__"; "__defineSetter__"; "hasOwnProperty";
   "__lookupGetter__"; "__lookupSetter__"; "isPrototypeOf";
   "propertyIsEnumerable"; "toString"; "valueOf"; "__proto__";
   "toLocaleString"].

(** The property of an object stored by the fold that is read under
    [name]. *)
Definition meta_property (meta : ColumnMeta.t) (name : string)
  : option Js.value :=
  if name =? "type" then Some (ColumnMeta.type meta)
  else if name =? "defaultValue" then Some (ColumnMeta.defaultValue meta)
  else if name =? "key" then Some (ColumnMeta.key meta)
  else if name =? "extra" then Some (ColumnMeta.extra meta)
  else None.

(** What [currentFields[name]] evaluates to. *)
Inductive slot :=
| Stored (meta : ColumnMeta.t)
| Inherited (v : Js.value)
| Builtin
| Missing.

(** [currentFields[name]]: the object stored under the name (under
    [__proto__], the object made the prototype); failing that, the
    property of that name of the object made the prototype; failing that,
    the member of [Object.prototype] of that name; failing that,
    [undefined]. *)
Definition read (name : string) (acc : CurrentFields) : slot :=
  match current name acc with
  | Some meta => Stored meta
  | None =>
      match match current "__proto__" acc with
            | Some prototype => meta_property prototype name
            | None => None
            end with
      | Some v => Inherited v
      | None =>
          if includes object_prototype_names name then Builtin else Missing
      end
  end.

(** [if (currentFields[name])]. *)
Definition slot_truthy (s : slot) : bool :=
  match s with
  | Stored _ | Builtin => true
  | Inherited v => truthy v
  | Missing => false
  end.

(** [existingField.type], [.defaultValue], [.key] and [.extra] of what was
    read, when it is truthy: the four of a stored object; [undefined] four
    times of a function and of [Object.prototype], which have none of
    them; and of a value of the driver its own property of that name. *)
Definition four (s : slot) : ColumnMeta.t :=
  match s with
  | Stored meta => meta
  | Inherited v =>
      ColumnMeta.make (get_prop v "type") (get_prop v "defaultValue")
                      (get_prop v "key") (get_prop v "extra")
  | Builtin | Missing => ColumnMeta.make Undefined Undefined Undefined Undefined
  end.

(** [currentFields[name]] as the loops of [add], [edit] and [delete] use
    it: nothing when it is falsy, and otherwise the four properties [edit]
    reads of it. *)
Definition existing (name : string) (acc : CurrentFields)
  : option ColumnMeta.t :=
  let s := read name acc in
  if slot_truthy s then Some (four s) else None.

(** The callback of [existingFields.reduce]. *)
Definition reduce_step (acc : CurrentFields) (field : Js.value)
  : completion CurrentFields :=
  match member field "Field" with
  | Throw e => Throw e
  | Return f =>
  match member field "Type" with
  | Throw e => Throw e
  | Return ty =>
  match member field "Default" with
  | Throw e => Throw e
  | Return d =>
  match member field "Key" with
  | Throw e => Throw e
  | Return k =>
  match member field "Extra" with
  | Throw e => Throw e
  | Return x => Return (assign (toString f) (ColumnMeta.make ty d k x) acc)
  end end end end end.

Fixpoint reduce (rows : list Js.value) (acc : CurrentFields)
  : completion CurrentFields :=
  match rows with
  | [] => Return acc
  | field :: rest =>
      match reduce_step acc field with
      | Throw e => Throw e
      | Return acc' => reduce rest acc'
      end
  end.

(** [tableExistsResult && tableExistsResult.length > 0], for the results a
    driver gives (arrays of rows). *)
Definition has_rows (v : Js.value) : bool :=
  match v with
  | Array elems => (0 <? List.length elems)%nat
  | Str s => (0 <? String.length s)%nat
  | _ => false
  end.

(** [get()]. *)
Definition get : Async CurrentFields :=
  tableName <- eval (fun this => Return (tableName this)) ;;
  let tableExistsQuery := "SHOW TABLES LIKE '" ++ tableName ++ "'" in
  tableExistsResult <- get_response_ tableExistsQuery ;;
  if has_rows tableExistsResult then
    let existingFieldsQuery := "SHOW COLUMNS FROM `" ++ tableName ++ "`" in
    existingFields <- get_response_ existingFieldsQuery ;;
    match existingFields with
    | Array rows => eval (fun _ => reduce rows [])
    | _ => throw (TypeError "existingFields.reduce is not a function")
    end
  else ret [].

(** The [for ... of] loop of [add]. *)
Fixpoint add_loop (currentFields : CurrentFields) (fields : list Field.t)
  : Async unit :=
  match fields with
  | [] => ret tt
  | field :: rest =>
      match existing (Field.name field) currentFields with
      | None =>
          tableName <- eval (fun this => Return (tableName this)) ;;
          get_response_ (Ddl.add_alterQuery tableName field) ;;;
          add_loop currentFields rest
      | Some _ => add_loop currentFields rest
      end
  end.

(** [add(fields)]; the [catch] logs and throws the error again. *)
Definition add (fields : list Field.t) : Async bool :=
  currentFields <- get ;;
  add_loop currentFields fields ;;;
  ret true.

(** The [for ... of] loop of [edit]. *)
Fixpoint edit_loop (currentFields : CurrentFields) (fields : list Field.t)
  : Async unit :=
  match fields with
  | [] => ret tt
  | field :: rest =>
      match existing (Field.name field) currentFields with
      | Some existingField =>
          if Ddl.edit_differs existingField field then
            tableName <- eval (fun this => Return (tableName this)) ;;
            get_response_ (Ddl.edit_modifyQuery tableName existingField field) ;;;
            edit_loop currentFields rest
          else edit_loop currentFields rest
      | None => edit_loop currentFields rest
      end
  end.

(** [edit(fields)]. *)
Definition edit (fields : list Field.t) : Async bool :=
  currentFields <- get ;;
  edit_loop currentFields fields ;;;
  ret true.

(** The [for ... of] loop of [delete]; the table name is not quoted
    here. *)
Fixpoint delete_loop (currentFields : CurrentFields) (fields : list string)
  : Async unit :=
  match fields with
  | [] => ret tt
  | key :: rest =>
      match existing key currentFields with
      | Some _ =>
          tableName <- eval (fun this => Return (tableName this)) ;;
          let dropQuery := "ALTER TABLE " ++ tableName ++ " DROP COLUMN `"
                           ++ key ++ "`;" in
          get_response_ dropQuery ;;;
          delete_loop currentFields rest
      | None => delete_loop currentFields rest
      end
  end.

(** [delete(fields)]. *)
Definition delete (fields : list string) : Async bool :=
  currentFields <- get ;;
  delete_loop currentFields fields ;;;
  ret true.

End WithDriver.

End Columns.

(* ===================================================================== *)
(** ** [class MySQL] *)
(* ===================================================================== *)

Module MySQL.

(** The white space and the line terminators [String.prototype.trim]
    strips, by the bytes of their UTF-8 encoding. Of one byte: tab, line
    feed, vertical tab, form feed, carriage return and space. *)
Definition is_space (c : ascii) : bool :=
  let b := N_of_ascii c in
  ((9 <=? b) && (b <=? 13) || (b =? 32))%N%bool.

(** Of two bytes: the no-break space U+00A0. *)
Definition is_space2 (c1 c2 : ascii) : bool :=
  ((N_of_ascii c1 =? 194) && (N_of_ascii c2 =? 160))%N%bool.

(** Of three bytes: U+1680, U+2000 to U+200A, the line and paragraph
    separators U+2028 and U+2029, U+202F, U+205F, U+3000, and the byte
    order mark U+FEFF. *)
Definition is_space3 (c1 c2 c3 : ascii) : bool :=
  let b1 := N_of_ascii c1 in
  let b2 := N_of_ascii c2 in
  let b3 := N_of_ascii c3 in
  (((b1 =? 225) && (b2 =? 154) && (b3 =? 128))
   || ((b1 =? 226) && (b2 =? 128)
       && (((128 <=? b3) && (b3 <=? 138)) || (b3 =? 168) || (b3 =? 169)
           || (b3 =? 175)))
   || ((b1 =? 226) && (b2 =? 129) && (b3 =? 159))
   || ((b1 =? 227) && (b2 =? 128) && (b3 =? 128))
   || ((b1 =? 239) && (b2 =? 187) && (b3 =? 191)))%N%bool.

Fixpoint trimStart (s : string) : string :=
  match s with
  | EmptyString => EmptyString
  | String c1 rest1 =>
      if is_space c1 then trimStart rest1
      else
        match rest1 with
        | EmptyString => s
        | String c2 rest2 =>
            if is_space2 c1 c2 then trimStart rest2
            else
              match rest2 with
              | EmptyString => s
              | String c3 rest3 =>
                  if is_space3 c1 c2 c3 then trimStart rest3 else s
              end
        end
  end.

(** What is left of the string once the white space at its end is gone:
    nothing when the string is white space throughout, and otherwise its
    first byte and what is left of the rest. *)
Fixpoint trimEnd (s : string) : string :=
  match s with
  | EmptyString => EmptyString
  | String c rest =>
      match trimStart s with
      | EmptyString => EmptyString
      | _ => String c (trimEnd rest)
      end
  end.

(** [s.trim()]. *)
Definition trim (s : string) : string := trimEnd (trimStart s).

(** [s.split(sep)] for a separator of one character. *)
Fixpoint split (sep : ascii) (s : string) : list string :=
  match s with
  | EmptyString => [EmptyString]
  | String c rest =>
      if Ascii.eqb c sep then EmptyString :: split sep rest
      else match split sep rest with
           | [] => [String c EmptyString]
           | piece :: pieces => String c piece :: pieces
           end
  end.

(** [sqlQuery.split(';').filter(cmd => cmd.trim().length > 0)]. *)
Definition sqlCommands (sqlQuery : string) : list string :=
  filter (fun cmd => (0 <? String.length (trim cmd))%nat) (split ";" sqlQuery).

(** The object [query] resolves to. *)
Definition envelope (status : string) (message data : Js.value) : Js.value :=
  Object [("status", Str status); ("message", message); ("data", data)].

(** [error.sqlMessage || error.message
     || 'An error occurred while executing the query.'], from the two
    properties read. *)
Definition error_message (sqlMessage : Js.value) (message : string)
  : Js.value :=
  if truthy sqlMessage then sqlMessage
  else if truthy (Str message) then Str message
  else Str "An error occurred while executing the query.".

Section WithDriver.

Variable drv : Driver.

(** [error.sqlMessage], which the driver sets on the errors it throws
    ([undefined] when it does not). *)
Variable sqlMessage : Js.error -> Js.value.

Record t := make { pool : option (Pool drv) }.

(** [new MySQL()], given the static [MySQL.instance] as it stands: the
    instance, the static field after the call, and the world. A pool is
    created only when there is no instance yet; when its creation throws,
    the error is logged, the static field stays unset, and the object under
    construction, with no pool, is what [new] gives. *)
Definition constructor (instance : option t) (w : World drv)
  : t * option t * World drv :=
  match instance with
  | Some db => (db, instance, w)
  | None =>
      match createPool drv true w with
      | (Return p, w') => let this := make (Some p) in (this, Some this, w')
      | (Throw _, w') => (make None, None, w')
      end
  end.

(** [table(tableName)]. *)
Definition table (tableName : string) (db : t) : TableQuery.t drv :=
  TableQuery.new drv tableName (pool db).

(** The [for ... of] loop of [query], with [results] as it stands; each
    statement handed to the pool is recorded in the machine. *)
Fixpoint run_commands (p : Pool drv) (commands : list string)
         (results : list Js.value) (m : Machine drv)
  : completion (list Js.value) * Machine drv :=
  match commands with
  | [] => (Return results, m)
  | command :: rest =>
      let statement := command ++ ";" in
      let log := (dispatched m ++ [statement])%list in
      match query drv p statement (world m) with
      | (Return result, w) =>
          run_commands p rest (results ++ [result])%list
                       (Build_Machine drv w log)
      | (Throw e, w) => (Throw e, Build_Machine drv w log)
      end
  end.

(** [query(sqlQuery)]. Whatever is thrown inside the [try], the missing
    pool included, comes back as an [error] object. *)
Definition query (sqlQuery : Js.value) (db : t) (m : Machine drv)
  : completion Js.value * Machine drv :=
  match sqlQuery with
  | Str text =>
      let sqlCommands := sqlCommands text in
      match pool db with
      | None =>
          (Return (envelope "error"
                     (error_message Undefined
                        "Database connection pool is not available.")
                     Null), m)
      | Some p =>
          match run_commands p sqlCommands [] m with
          | (Return results, m') =>
              (Return (envelope "success"
                         (Str "Query executed successfully")
                         (if (List.length results =? 1)%nat
                          then nth 0 results Undefined
                          else Array results)), m')
          | (Throw error, m') =>
              (Return (envelope "error"
                         (error_message (sqlMessage error)
                                        (Js.message error))
                         Null), m')
          end
      end
  | _ => (Throw (Error "The SQL query must be a string."), m)
  end.

End WithDriver.

Arguments pool {drv}.
Arguments table {drv}.

End MySQL.

(* ===================================================================== *)
(** ** Vocabulary of the properties *)
(* ===================================================================== *)

(** How often [needle] occurs in [hay], overlapping occurrences
    included. *)
Fixpoint occurrences (needle hay : string) : nat :=
  match hay with
  | EmptyString => 0
  | String _ rest =>
      (if String.prefix needle hay then 1 else 0) + occurrences needle rest
  end.

(** The conditions whose text [buildConditions] can write: a group, a
    [BETWEEN] whose value can be destructured (an array or a string), an
    [IN] whose value is an array, and any condition on another
    operator. *)
Definition renders (cond : Condition.t) : bool :=
  if Condition.isGroup cond then true
  else if TableQuery.operator_is cond "BETWEEN" then
    match Condition.value cond with
    | Array _ | Str _ => true
    | _ => false
    end
  else if TableQuery.operator_is cond "IN" then isArray (Condition.value cond)
  else true.

(** Every combinator in the builder is [AND] or [OR]. *)
Definition is_combinator (type : string) : Prop := type = "AND" \/ type = "OR".

Definition combinators_ok {drv : Driver} (q : TableQuery.t drv) : Prop :=
  Forall (fun cond => is_combinator (Condition.type cond))
         (TableQuery.conditions q)
  /\ is_combinator (TableQuery.nextType q).

(** A condition after the first with its text, as [buildConditions]
    writes it: a space, the combinator of the condition, a space, the
    text. *)
Definition prefixed (cb : Condition.t * string) : string :=
  " " ++ Condition.type (fst cb) ++ " " ++ snd cb.

(** The condition [where('id', '=', id)] pushes when the pending
    combinator is [type]. *)
Definition id_condition (type : string) (id : Js.value) : Condition.t :=
  Condition.make (Some "id") (Some "=") id Undefined type false.

(** The conditions a run of [where('id', '=', id)] calls pushes, one per
    identifier: the first carries the pending combinator, the others
    [AND]. *)
Definition id_conditions (type : string) (ids : list Js.value)
  : list Condition.t :=
  match ids with
  | [] => []
  | id :: rest => id_condition type id :: map (id_condition "AND") rest
  end.

(** What one iteration of the loop of [insert] leaves behind: the INSERT
    statement, the identifier it filtered on, the lookup statement, and the
    row it pushed on [results]. *)
Record InsertStep := {
  step_insert : string;
  step_id : Js.value;
  step_lookup : string;
  step_row : Js.value
}.

(** The statements of a run of the loop, in the order of dispatch. *)
Definition statements (steps : list InsertStep) : list string :=
  flat_map (fun s => [step_insert s; step_lookup s]) steps.

(** The builders that differ from [q] in the conditions, the pending
    combinator and the pool only. *)
Definition same_clauses {drv : Driver} (q q' : TableQuery.t drv) : Prop :=
  TableQuery.tableName q' = TableQuery.tableName q
  /\ TableQuery.query q' = TableQuery.query q
  /\ TableQuery.joins q' = TableQuery.joins q
  /\ TableQuery._groupBy q' = TableQuery._groupBy q
  /\ TableQuery._orderBy q' = TableQuery._orderBy q
  /\ TableQuery.limitValue q' = TableQuery.limitValue q
  /\ TableQuery.pageValue q' = TableQuery.pageValue q.

(** Each lookup of a run is what [buildQuery] gives on [q] once the
    conditions are [conds] followed by the equalities on [id] of the run up
    to and including its own; the first equality carries [type], the
    others [AND]. *)
Fixpoint lookups_from {drv : Driver} (q : TableQuery.t drv)
         (conds : list Condition.t) (type : string)
         (steps : list InsertStep) : Prop :=
  match steps with
  | [] => True
  | s :: rest =>
      let conds' := (conds ++ [id_condition type (step_id s)])%list in
      TableQuery.buildQuery true (TableQuery.set_conditions conds' q)
      = Return (step_lookup s)
      /\ lookups_from q conds' "AND" rest
  end.

(** A pool for the examples. The world counts the rows inserted: an
    [INSERT] answers with the new [insertId], any other statement with one
    row that carries the count. *)
Module Sample.

Definition query (_ : unit) (sql : string) (w : nat)
  : completion Js.value * nat :=
  if startsWith sql "INSERT" then
    (Return (Object [("insertId", Number (Finite (Z.of_nat (S w))))]), S w)
  else
    (Return (Array [Object [("id", Number (Finite (Z.of_nat w)))]]), w).

Definition driver : Driver :=
  Build_Driver nat unit query
               (fun _ w => (Return tt, w))
               (fun _ w => (Return tt, w))
               (Str "app").

Definition machine : Machine driver := Build_Machine driver 0 [].

(** [db.table('users')]. *)
Definition users : TableQuery.t driver :=
  TableQuery.new driver "users" (Some tt).

End Sample.

(** Every registered order has the direction [ASC] or [DESC]. *)
Definition orders_ok {drv : Driver} (q : TableQuery.t drv) : Prop :=
  Forall (fun order => OrderBy.direction order = "ASC"
                       \/ OrderBy.direction order = "DESC")
         (TableQuery._orderBy q).

(** [s] holds the character [c]. *)
Fixpoint has_char (c : ascii) (s : string) : bool :=
  match s with
  | EmptyString => false
  | String x rest => (Ascii.eqb x c || has_char c rest)%bool
  end.

(** The white space and the line terminators of JavaScript, each by the
    bytes of its UTF-8 encoding: tab, line feed, vertical tab, form feed,
    carriage return, space, U+00A0, U+1680, U+2000 to U+200A, U+2028,
    U+2029, U+202F, U+205F, U+3000 and U+FEFF. *)
Definition white_space : list string :=
  [String "009" EmptyString; String "010" EmptyString;
   String "011" EmptyString; String "012" EmptyString;
   String "013" EmptyString; " ";
   String "194" (String "160" EmptyString);
   String "225" (String "154" (String "128" EmptyString));
   String "226" (String "128" (String "128" EmptyString));
   String "226" (String "128" (String "129" EmptyString));
   String "226" (String "128" (String "130" EmptyString));
   String "226" (String "128" (String "131" EmptyString));
   String "226" (String "128" (String "132" EmptyString));
   String "226" (String "128" (String "133" EmptyString));
   String "226" (String "128" (String "134" EmptyString));
   String "226" (String "128" (String "135" EmptyString));
   String "226" (String "128" (String "136" EmptyString));
   String "226" (String "128" (String "137" EmptyString));
   String "226" (String "128" (String "138" EmptyString));
   String "226" (String "128" (String "168" EmptyString));
   String "226" (String "128" (String "169" EmptyString));
   String "226" (String "128" (String "175" EmptyString));
   String "226" (String "129" (String "159" EmptyString));
   String "227" (String "128" (String "128" EmptyString));
   String "239" (String "187" (String "191" EmptyString))].

(** The strings that are white space throughout. *)
Inductive blank : string -> Prop :=
| blank_empty : blank EmptyString
| blank_more (space rest : string) :
    In space white_space -> blank rest -> blank (space ++ rest).

(** The entry [meta] under [name] was read off the row [row]. *)
Definition read_off (row : Js.value) (name : string) (meta : ColumnMeta.t)
  : Prop :=
  exists f,
    member row "Field" = Return f /\ toString f = name
    /\ member row "Type" = Return (ColumnMeta.type meta)
    /\ member row "Default" = Return (ColumnMeta.defaultValue meta)
    /\ member row "Key" = Return (ColumnMeta.key meta)
    /\ member row "Extra" = Return (ColumnMeta.extra meta).

(** The statements [add] owes for a list of fields: one [ADD COLUMN] for
    each field, in order, under whose name [currentFields] reads
    nothing. *)
Definition add_statements (tableName : string)
           (currentFields : Columns.CurrentFields) (fields : list Field.t)
  : list string :=
  flat_map (fun field =>
              match Columns.existing (Field.name field) currentFields with
              | None => [Ddl.add_alterQuery tableName field]
              | Some _ => []
              end) fields.

(** The statements [edit] owes: one [MODIFY COLUMN] for each field, in
    order, under whose name [currentFields] reads something the field
    differs from. *)
Definition edit_statements (tableName : string)
           (currentFields : Columns.CurrentFields) (fields : list Field.t)
  : list string :=
  flat_map (fun field =>
              match Columns.existing (Field.name field) currentFields with
              | Some existing =>
                  if Ddl.edit_differs existing field
                  then [Ddl.edit_modifyQuery tableName existing field]
                  else []
              | None => []
              end) fields.

(** The statements [delete] owes: one [DROP COLUMN] for each name, in
    order, under which [currentFields] reads something. *)
Definition delete_statements (tableName : string)
           (currentFields : Columns.CurrentFields) (keys : list string)
  : list string :=
  flat_map (fun key =>
              match Columns.existing key currentFields with
              | Some _ => ["ALTER TABLE " ++ tableName ++ " DROP COLUMN `"
                           ++ key ++ "`;"]
              | None => []
              end) keys.

(** What is read under a name of [Object.prototype] that is no column: a
    function, or the prototype, with none of the four properties. *)
Definition no_properties : ColumnMeta.t :=
  ColumnMeta.make Undefined Undefined Undefined Undefined.

(** The field differs in nothing from what is there: the type with its
    length is the live type, the default is the live default, and each of
    the three options asked for shows in the live key or extra. *)
Definition nothing_to_modify (existing : ColumnMeta.t) (field : Field.t)
  : Prop :=
  ColumnMeta.type existing = Str (Ddl.fullType field)
  /\ strict_eq (ColumnMeta.defaultValue existing) (Field.defaultValue field)
     = true
  /\ (Ddl.option_requested (Field.options field) "autoincrement" = true ->
      ColumnMeta.extra existing = Str "auto_increment")
  /\ (Ddl.option_requested (Field.options field) "unique" = true ->
      ColumnMeta.key existing = Str "UNI")
  /\ (Ddl.option_requested (Field.options field) "primary" = true ->
      ColumnMeta.key existing = Str "PRI").

(** A pool over a schema, for the examples of [Columns]. The world is what
    [SHOW COLUMNS] lists for the one table, which exists when it has a
    column; every other statement is answered and changes nothing. *)
Module Catalog.

Definition query (_ : unit) (sql : string) (w : list Js.value)
  : completion Js.value * list Js.value :=
  if startsWith sql "SHOW TABLES" then
    (Return (Array match w with
                   | [] => []
                   | _ => [Object [("Tables_in_app", Str "users")]]
                   end), w)
  else if startsWith sql "SHOW COLUMNS" then (Return (Array w), w)
  else (Return (Object [("affectedRows", Number (Finite 0))]), w).

Definition driver : Driver :=
  Build_Driver (list Js.value) unit query
               (fun _ w => (Return tt, w))
               (fun _ w => (Return tt, w))
               (Str "app").

(** The row of [SHOW COLUMNS] for a column. *)
Definition row (name type : string) (default : Js.value) (key extra : string)
  : Js.value :=
  Object [("Field", Str name); ("Type", Str type); ("Null", Str "YES");
          ("Key", Str key); ("Default", default); ("Extra", Str extra)].

(** A table [users] with the columns [id] and [email]. *)
Definition machine : Machine driver :=
  Build_Machine driver
    [row "id" "int" Null "PRI" "auto_increment";
     row "email" "varchar(255)" (Str "none") EmptyString EmptyString]
    [].

(** A table [users] with the column [id] alone. *)
Definition id_only : Machine driver :=
  Build_Machine driver [row "id" "int" Null "PRI" "auto_increment"] [].

(** A table [users] with the columns [id], [email] and [age]. *)
Definition with_age : Machine driver :=
  Build_Machine driver
    [row "id" "int" Null "PRI" "auto_increment";
     row "email" "varchar(255)" (Str "none") EmptyString EmptyString;
     row "age" "int" Null EmptyString EmptyString]
    [].

(** No table. *)
Definition empty_machine : Machine driver := Build_Machine driver [] [].

(** [db.table('users').columns()]. *)
Definition users : Columns.t driver := Columns.make driver (Some tt) "users".

End Catalog.

(** A pool over a table [users] whose [id] counts the rows up and whose
    [name] may not be [NULL], for the examples of [insert]. The world is
    the number of rows. An [INSERT] of a [NULL] name fails and any other
    answers with the new [insertId]. A lookup on one [id] alone answers
    with the row of that id, if there is one; any other statement answers
    with no row, as does a lookup on two different ids at once. *)
Module Stored.

Definition row (k : nat) : Js.value :=
  Object [("id", Number (Finite (Z.of_nat k)))].

Definition query (_ : unit) (sql : string) (w : nat)
  : completion Js.value * nat :=
  if startsWith sql "INSERT" then
    if sql =? "INSERT INTO `users` (`name`) VALUES (NULL)" then
      (Throw (Error_ (Some "ER_BAD_NULL_ERROR")
                     "Column 'name' cannot be null"), w)
    else
      (Return (Object [("affectedRows", Number (Finite 1));
                       ("insertId", Number (Finite (Z.of_nat (S w))))]),
       S w)
  else
    (Return (Array (map row
                      (filter (fun k =>
                                 sql =? "SELECT * FROM `users` WHERE id = "
                                        ++ decimal (Z.of_nat k))
                              (seq 1 w)))), w).

Definition driver : Driver :=
  Build_Driver nat unit query
               (fun _ w => (Return tt, w))
               (fun _ w => (Return tt, w))
               (Str "app").

(** The table without a row. *)
Definition machine : Machine driver := Build_Machine driver 0 [].

(** [db.table('users')]. *)
Definition users : TableQuery.t driver :=
  TableQuery.new driver "users" (Some tt).

End Stored.

(** A pool whose database may be missing, for the examples of
    [#get_response]. The world says whether the database exists: until it
    does, every statement but [CREATE DATABASE] fails with
    [ER_BAD_DB_ERROR]. *)
Module Recovering.

Definition query (_ : unit) (sql : string) (w : bool)
  : completion Js.value * bool :=
  if startsWith sql "CREATE DATABASE" then
    (Return (Object [("affectedRows", Number (Finite 1))]), true)
  else if w then (Return (Array []), w)
  else (Throw (Error_ (Some "ER_BAD_DB_ERROR") "Unknown database 'app'"), w).

Definition driver : Driver :=
  Build_Driver bool unit query
               (fun _ w => (Return tt, w))
               (fun _ w => (Return tt, w))
               (Str "app").

Definition machine : Machine driver := Build_Machine driver false [].

End Recovering.

(* ===================================================================== *)
(** ** Properties of the builder calls *)
(* ===================================================================== *)

Section BuilderCalls.

Variable drv : Driver.
Implicit Types q : TableQuery.t drv.

Lemma conditions_push q cond :
  TableQuery.conditions (TableQuery.push_condition cond q)
  = (TableQuery.conditions q ++ [cond])%list.
Proof. reflexivity. Qed.

(** C6. [where] appends one condition that carries the pending combinator
    and resets the pending combinator to [AND]; [orWhere] appends one
    condition that carries [OR] and leaves the pending combinator as it
    was; a new builder starts with [AND] pending, and [or()] and [and()]
    set it. So after [or()] the next [where] is an [OR] condition and the
    one after it an [AND] condition, whatever [orWhere] calls come in
    between. *)
Theorem where_takes_pending_orWhere_keeps_it :
  forall q column operator value,
    let op := match operator with None => "=" | Some o => o end in
    (TableQuery.conditions (TableQuery.where_ column operator value q)
     = (TableQuery.conditions q
        ++ [Condition.make (Some column) (Some op) value Undefined
                           (TableQuery.nextType q) false])%list
     /\ TableQuery.nextType (TableQuery.where_ column operator value q) = "AND")
    /\ (TableQuery.conditions (TableQuery.orWhere column operator value q)
        = (TableQuery.conditions q
           ++ [Condition.make (Some column) (Some op) value Undefined
                              "OR" false])%list
        /\ TableQuery.nextType (TableQuery.orWhere column operator value q)
           = TableQuery.nextType q)
    /\ (forall table pool,
           TableQuery.nextType (TableQuery.new drv table pool) = "AND")
    /\ TableQuery.nextType (TableQuery.or q) = "OR"
    /\ TableQuery.nextType (TableQuery.and q) = "AND"
    /\ (forall c1 o1 v1 c2 o2 v2,
           map Condition.type
               (TableQuery.conditions
                  (TableQuery.where_ c2 o2 v2
                     (TableQuery.where_ column operator value
                        (TableQuery.orWhere c1 o1 v1 (TableQuery.or q)))))
           = (map Condition.type (TableQuery.conditions q)
              ++ ["OR"; "OR"; "AND"])%list).
Proof.
  intros q column operator value op.
  repeat split; try reflexivity.
  intros c1 o1 v1 c2 o2 v2.
  cbn. rewrite !map_app, <- !app_assoc. reflexivity.
Qed.

End BuilderCalls.

(* ===================================================================== *)
(** ** [distinct()] *)
(* ===================================================================== *)

Lemma append_assoc (a b c : string) : (a ++ b) ++ c = a ++ b ++ c.
Proof. induction a as [|x a IH]; cbn; [reflexivity | now rewrite IH]. Qed.

Lemma append_nil_r (a : string) : a ++ EmptyString = a.
Proof. induction a as [|x a IH]; cbn; [reflexivity | now rewrite IH]. Qed.

Lemma length_append (a b : string) :
  String.length (a ++ b) = String.length a + String.length b.
Proof. induction a as [|x a IH]; cbn; [reflexivity | now rewrite IH]. Qed.

Lemma prefix_app (p s : string) : String.prefix p (p ++ s) = true.
Proof.
  induction p as [|c p IH]; cbn.
  - destruct s; reflexivity.
  - destruct (ascii_dec c c) as [_|n]; [exact IH | contradiction].
Qed.

Lemma substring_all (s : string) : substring 0 (String.length s) s = s.
Proof. induction s as [|c s IH]; cbn; [reflexivity | now rewrite IH]. Qed.

(** On a base clause that starts with [SELECT ], [distinct()] puts one more
    [DISTINCT ] behind the leading [SELECT ], whatever follows it. *)
Lemma replace_leading_SELECT_app (rest : string) :
  TableQuery.replace_leading_SELECT ("SELECT " ++ rest)
  = "SELECT DISTINCT " ++ rest.
Proof.
  unfold TableQuery.replace_leading_SELECT, startsWith.
  rewrite prefix_app. cbn.
  now rewrite Nat.sub_0_r, substring_all.
Qed.

Lemma distinct_twice_on_SELECT (drv : Driver) (q : TableQuery.t drv)
      (rest : string) :
  TableQuery.query q = "SELECT " ++ rest ->
  TableQuery.query (TableQuery.distinct (TableQuery.distinct q))
  = "SELECT DISTINCT DISTINCT " ++ rest.
Proof.
  intros H. cbn. rewrite H, replace_leading_SELECT_app.
  exact (replace_leading_SELECT_app ("DISTINCT " ++ rest)).
Qed.

(** C3. [db.table('users').distinct().distinct()] has the base clause
    [SELECT DISTINCT DISTINCT * FROM `users`], with two [DISTINCT] tokens;
    so has [distinct().select(['name']).distinct()]. With [select] last the
    flag is read and one token is written. *)
Theorem distinct_twice_two_tokens :
  TableQuery.query (TableQuery.distinct (TableQuery.distinct Sample.users))
  = "SELECT DISTINCT DISTINCT * FROM `users`"
  /\ occurrences "DISTINCT"
       (TableQuery.query
          (TableQuery.distinct (TableQuery.distinct Sample.users))) = 2
  /\ TableQuery.query
       (TableQuery.distinct
          (TableQuery.select ["name"] (TableQuery.distinct Sample.users)))
     = "SELECT DISTINCT DISTINCT name FROM `users`"
  /\ TableQuery.query
       (TableQuery.select ["name"]
          (TableQuery.distinct (TableQuery.distinct Sample.users)))
     = "SELECT DISTINCT name FROM `users`".
Proof. repeat split; vm_compute; reflexivity. Qed.

(* ===================================================================== *)
(** ** Column definitions: length and default *)
(* ===================================================================== *)

(** C4. [create] leaves the length out only for the type spelled [text],
    and [Columns.add] only for the type spelled [TEXT]: [create] on
    [{name: 'bio', type: 'TEXT', length: 100}] gives [`bio` TEXT(100)], and
    [add] on [{name: 'bio', type: 'text', length: 100}] gives [text(100)],
    while each leaves the length out for the spelling the other misses. *)
Theorem text_length_depends_on_spelling :
  Ddl.create_fieldDefinition
    (Field.make "bio" "TEXT" Undefined (Some (Finite 100)) None None)
  = Return "`bio` TEXT(100)"
  /\ Ddl.add_alterQuery "users"
       (Field.make "bio" "text" Undefined (Some (Finite 100)) None None)
     = "ALTER TABLE `users` ADD COLUMN `bio` text(100)"
  /\ Ddl.create_fieldDefinition
       (Field.make "bio" "text" Undefined (Some (Finite 100)) None None)
     = Return "`bio` text"
  /\ Ddl.add_alterQuery "users"
       (Field.make "bio" "TEXT" Undefined (Some (Finite 100)) None None)
     = "ALTER TABLE `users` ADD COLUMN `bio` TEXT".
Proof. repeat split; vm_compute; reflexivity. Qed.

(** C1. The three sites do not follow one rule. On the field of the doc
    comment of [Columns.add], a [VARCHAR] with a default, [create] writes
    the default in quotes and [Columns.add] writes it bare: [add] looks the
    type up among the lower-case names without folding its case, and so
    does [Columns.edit], on the field of its own doc comment; on the type
    spelled [varchar] both write the quotes. And on a field without a
    default, [{name: 'age', type: 'INT'}], [create] and [Columns.add] write
    no default clause, their [ DEFAULT NULL] being out of reach under [if
    (defaultValue)], where [Columns.edit] writes [ DEFAULT NULL]. *)
Theorem default_clause_differs_between_sites :
  let email := Field.make "email" "VARCHAR" (Str "example@example.com")
                          (Some (Finite 255)) None None in
  let email' := Field.make "email" "VARCHAR" (Str "new@example.com")
                           (Some (Finite 255)) None None in
  let nick := Field.make "nick" "varchar" (Str "joe") (Some (Finite 20))
                         None None in
  let age := Field.make "age" "INT" Undefined None None None in
  dispatched
    (snd (TableQuery.create Sample.driver [email; age] Sample.users
                            Sample.machine))
  = ["CREATE TABLE IF NOT EXISTS `users` (`email` VARCHAR(255) DEFAULT 'example@example.com', `age` INT)"]
  /\ dispatched
       (snd (Columns.add Catalog.driver [email; nick; age] Catalog.users
                         Catalog.id_only))
     = ["SHOW TABLES LIKE 'users'"; "SHOW COLUMNS FROM `users`";
        "ALTER TABLE `users` ADD COLUMN `email` VARCHAR(255) DEFAULT example@example.com";
        "ALTER TABLE `users` ADD COLUMN `nick` varchar(20) DEFAULT 'joe'";
        "ALTER TABLE `users` ADD COLUMN `age` INT"]
  /\ dispatched
       (snd (Columns.edit Catalog.driver [email'; age] Catalog.users
                          Catalog.with_age))
     = ["SHOW TABLES LIKE 'users'"; "SHOW COLUMNS FROM `users`";
        "ALTER TABLE `users` MODIFY COLUMN `email` VARCHAR(255) DEFAULT new@example.com";
        "ALTER TABLE `users` MODIFY COLUMN `age` INT DEFAULT NULL"].
Proof. cbv zeta. repeat split; vm_compute; reflexivity. Qed.

(* ===================================================================== *)
(** ** [buildQuery]: LIMIT, OFFSET and ORDER BY *)
(* ===================================================================== *)

Section BuildQuery.

Variable drv : Driver.
Implicit Types q : TableQuery.t drv.

(** [buildQuery] is the base clause followed by the six clauses in the
    order of the source, once the conditions have compiled. *)
Lemma buildQuery_clauses q (whereClauses : string) :
  TableQuery.buildConditions q = Return whereClauses ->
  TableQuery.buildQuery true q
  = Return (TableQuery.query q ++ TableQuery.joins_clause q
            ++ TableQuery.where_clause whereClauses
            ++ TableQuery.groupBy_clause q ++ TableQuery.limit_clause q
            ++ TableQuery.offset_clause q ++ TableQuery.orderBy_clause q).
Proof.
  intros H. unfold TableQuery.buildQuery. rewrite H.
  now rewrite !append_assoc.
Qed.

Lemma number_truthy_Finite (n : Z) :
  number_truthy (Finite n) = true <-> n <> 0%Z.
Proof.
  cbn. rewrite negb_true_iff. apply Z.eqb_neq.
Qed.

Lemma log2_53 (a : Z) : (0 <= a < 2 ^ 53)%Z -> (Z.log2 a < 53)%Z.
Proof.
  intros H. destruct (Z.eq_dec a 0) as [->|N]; [reflexivity|].
  apply Z.log2_lt_pow2; lia.
Qed.

(** An integer below [2^53] in magnitude is a double, and an exact result
    that is one is not rounded. *)
Lemma of_Z_exact (z : Z) : (Z.abs z < 2 ^ 53)%Z -> of_Z z = Finite z.
Proof.
  intros H. unfold of_Z, nearest.
  assert (L : (Z.log2 (Z.abs z) < 53)%Z) by (apply log2_53; lia).
  replace (Z.log2 (Z.abs z) + 1 - 53 <=? 0)%Z with true
    by (symmetry; apply Z.leb_le; lia).
  replace (1024 <=? Z.log2 (Z.abs z))%Z with false
    by (symmetry; apply Z.leb_gt; lia).
  f_equal. rewrite Z.mul_comm. apply Z.abs_sgn.
Qed.

(** Such an integer prints as its decimal digits. *)
Lemma number_toString_exact (z : Z) :
  (Z.abs z < 2 ^ 53)%Z -> number_toString (Finite z) = decimal z.
Proof.
  intros H. unfold number_toString, positive_toString.
  destruct (z <? 0)%Z eqn:N.
  - apply Z.ltb_lt in N.
    replace (Z.log2 (- z) <? 53)%Z with true
      by (symmetry; apply Z.ltb_lt, log2_53; lia).
    destruct z as [|p|p]; try discriminate N. reflexivity.
  - apply Z.ltb_ge in N.
    replace (Z.log2 z <? 53)%Z with true
      by (symmetry; apply Z.ltb_lt, log2_53; lia).
    reflexivity.
Qed.

(** C9, as the code has it. [limit(n)] gives the clause [ LIMIT n], in
    decimal digits for an integer below [2^53] in magnitude, and no clause
    for [NaN]. The clause
    [ OFFSET ...] is written exactly when a limit that is truthy (a number
    other than [0] and [NaN], so a negative one too) and a page that is not
    [NaN] are set, and it holds the product of the page less one and the
    limit as JavaScript computes it: in decimal digits, the integer
    [(p-1)*n] while that stays below [2^53] in magnitude, and the double
    nearest to it beyond, as on [limit(94906267).page(94906268)]. Without
    a limit there is no OFFSET whatever the page. [limit(10).page(2)]
    compiles to [... LIMIT 10 OFFSET 10], and [page(2)] alone to the base
    clause. *)
Theorem limit_and_offset_clauses :
  forall q,
    (forall n : Z,
        TableQuery.limit_clause (TableQuery.limit (Finite n) q)
        = " LIMIT " ++ number_toString (Finite n)
        /\ ((Z.abs n < 2 ^ 53)%Z ->
            TableQuery.limit_clause (TableQuery.limit (Finite n) q)
            = " LIMIT " ++ decimal n))
    /\ TableQuery.limit_clause (TableQuery.limit NaN q) = EmptyString
    /\ (forall l p : Js.number,
           TableQuery.limitValue q = Some l ->
           TableQuery.pageValue q = Some p ->
           number_truthy l = true -> isNaN p = false ->
           TableQuery.offset_clause q
           = " OFFSET " ++ number_toString (Js.mul (Js.sub p (Finite 1)) l))
    /\ (forall n p : Z,
           TableQuery.limitValue q = Some (Finite n) ->
           TableQuery.pageValue q = Some (Finite p) ->
           n <> 0%Z ->
           (Z.abs (p - 1) < 2 ^ 53)%Z -> (Z.abs ((p - 1) * n) < 2 ^ 53)%Z ->
           TableQuery.offset_clause q = " OFFSET " ++ decimal ((p - 1) * n))
    /\ (TableQuery.offset_clause q <> EmptyString <->
        exists l p,
          TableQuery.limitValue q = Some l
          /\ TableQuery.pageValue q = Some p
          /\ number_truthy l = true /\ isNaN p = false)
    /\ (forall p,
           TableQuery.limitValue q = None ->
           TableQuery.offset_clause (TableQuery.page p q) = EmptyString)
    /\ TableQuery.buildQuery true
         (TableQuery.page (Finite 2)
            (TableQuery.limit (Finite 10) (TableQuery.new drv "users" None)))
       = Return "SELECT * FROM `users` LIMIT 10 OFFSET 10"
    /\ TableQuery.buildQuery true
         (TableQuery.page (Finite 2) (TableQuery.new drv "users" None))
       = Return "SELECT * FROM `users`"
    /\ TableQuery.buildQuery true
         (TableQuery.page (Finite 94906268)
            (TableQuery.limit (Finite 94906267)
               (TableQuery.new drv "users" None)))
       = Return
           "SELECT * FROM `users` LIMIT 94906267 OFFSET 9007199515875288".
Proof.
  intros q. repeat match goal with |- _ /\ _ => split end.
  - intros n. split; [reflexivity|].
    intros H. unfold TableQuery.limit_clause, TableQuery.limit.
    cbn [TableQuery.limitValue TableQuery.set_limitValue isNaN negb].
    now rewrite number_toString_exact.
  - reflexivity.
  - intros l p L P T I. unfold TableQuery.offset_clause.
    now rewrite L, P, T, I.
  - intros n p L P N B1 B2. unfold TableQuery.offset_clause. rewrite L, P.
    apply number_truthy_Finite in N. rewrite N. cbn [isNaN negb andb].
    unfold Js.sub. rewrite (of_Z_exact (p - 1) B1).
    unfold Js.mul. rewrite (of_Z_exact _ B2).
    now rewrite (number_toString_exact _ B2).
  - unfold TableQuery.offset_clause.
    destruct (TableQuery.limitValue q) as [l|];
      [destruct (TableQuery.pageValue q) as [p|]|].
    + destruct (number_truthy l) eqn:T, (isNaN p) eqn:I; cbn [negb andb];
        (split; [intros H; try (now contradiction H);
                 exists l, p; repeat split; assumption
                | intros (l' & p' & El & Ep & Tl & Ip);
                  injection El as <-; injection Ep as <-;
                  try congruence; discriminate]).
    + split; [intros H; now contradiction H
             | intros (l' & p' & _ & Ep & _); discriminate Ep].
    + split; [intros H; now contradiction H
             | intros (l' & p' & El & _); discriminate El].
  - intros p L. unfold TableQuery.offset_clause. cbn. now rewrite L.
  - vm_compute. reflexivity.
  - vm_compute. reflexivity.
  - vm_compute. reflexivity.
Qed.

End BuildQuery.

(** C9, on [db.table('users').limit(3).page(4)]: a limit of [3] and a page
    of [4] give [ OFFSET 9]. *)
Lemma limit_and_offset_clauses_witness :
  TableQuery.offset_clause
    (TableQuery.page (Finite 4) (TableQuery.limit (Finite 3) Sample.users))
  = " OFFSET 9".
Proof.
  destruct (limit_and_offset_clauses Sample.driver
              (TableQuery.page (Finite 4)
                 (TableQuery.limit (Finite 3) Sample.users)))
    as (_ & _ & _ & offset_of & _).
  apply (offset_of 3%Z 4%Z); [reflexivity | reflexivity | discriminate
                              | reflexivity | reflexivity].
Defined.

(** C9 fails as stated: [db.table('users').limit(-5).page(2)] writes an
    OFFSET although the limit is not positive. *)
Lemma negative_limit_emits_offset :
  TableQuery.buildQuery true
    (TableQuery.page (Finite 2)
       (TableQuery.limit (Finite (-5)) Sample.users))
  = Return "SELECT * FROM `users` LIMIT -5 OFFSET -5"
  /\ ~ (0 < -5)%Z.
Proof. split; [vm_compute; reflexivity | discriminate]. Qed.

(** C8. No aggregate was called on
    [db.table('users').select(['COUNTRY']).orderBy('COUNTRY', 'asc')], the
    order is registered, and [buildQuery] writes no ORDER BY: the base
    clause [SELECT COUNTRY ...] starts with [SELECT COUNT]. And
    [count().distinct().orderBy('id')] is a COUNT query with an ORDER BY,
    as its base clause starts with [SELECT DISTINCT]. *)
Theorem orderBy_follows_the_text_of_the_base_clause :
  (exists q,
      TableQuery.orderBy "COUNTRY" (Some "asc")
        (TableQuery.select ["COUNTRY"] Sample.users) = Return q
      /\ TableQuery._orderBy q = [OrderBy.make "COUNTRY" "ASC"]
      /\ TableQuery.buildQuery true q = Return "SELECT COUNTRY FROM `users`")
  /\ (exists q,
         TableQuery.orderBy "id" None
           (TableQuery.distinct (TableQuery.count None Sample.users))
         = Return q
         /\ TableQuery.buildQuery true q
            = Return
                "SELECT DISTINCT COUNT(*) AS count FROM users ORDER BY id ASC").
Proof.
  split; eexists; (split; [reflexivity|]); repeat split; reflexivity.
Qed.

(* ===================================================================== *)
(** ** [buildConditions] *)
(* ===================================================================== *)

Section BuildConditions.

Variable drv : Driver.
Implicit Types q : TableQuery.t drv.

Lemma concat_empty_cons (x : string) (l : list string) :
  String.concat EmptyString (x :: l) = x ++ String.concat EmptyString l.
Proof.
  destruct l as [|y l]; cbn; [now rewrite append_nil_r | reflexivity].
Qed.

Lemma concat_empty_app (l1 l2 : list string) :
  String.concat EmptyString (l1 ++ l2)
  = String.concat EmptyString l1 ++ String.concat EmptyString l2.
Proof.
  induction l1 as [|x l1 IH]; [reflexivity|].
  rewrite <- app_comm_cons, !concat_empty_cons, IH.
  now rewrite append_assoc.
Qed.

(** Past the first index every piece is the prefix of its own condition
    followed by its text, and the first condition that throws ends the
    call. *)
Lemma render_tail (cs : list Condition.t) :
  forall i,
    map_throwing (fun r => r)
                 (map_index_from TableQuery.render_condition (S i) cs)
    = match map_throwing TableQuery.conditionStr cs with
      | Return bs => Return (map prefixed (combine cs bs))
      | Throw e => Throw e
      end.
Proof.
  induction cs as [|c cs IH]; intros i; [reflexivity|].
  cbn [map_index_from map_throwing]. unfold TableQuery.render_condition at 1.
  cbn [Nat.eqb].
  destruct (TableQuery.conditionStr c) as [b|e]; [|reflexivity].
  rewrite IH.
  destruct (map_throwing TableQuery.conditionStr cs) as [bs|e];
    [|reflexivity].
  cbn [combine map]. unfold prefixed at 2. cbn [fst snd].
  now rewrite !append_assoc.
Qed.

Lemma buildConditions_cons q c cs :
  TableQuery.conditions q = c :: cs ->
  TableQuery.buildConditions q
  = match TableQuery.conditionStr c with
    | Throw e => Throw e
    | Return b =>
        match map_throwing TableQuery.conditionStr cs with
        | Throw e => Throw e
        | Return bs =>
            Return (b ++ String.concat EmptyString
                                       (map prefixed (combine cs bs)))
        end
    end.
Proof.
  intros H. unfold TableQuery.buildConditions, map_index. rewrite H.
  cbn [map_index_from map_throwing]. unfold TableQuery.render_condition at 1.
  cbn [Nat.eqb].
  destruct (TableQuery.conditionStr c) as [b|e]; [|reflexivity].
  rewrite render_tail.
  destruct (map_throwing TableQuery.conditionStr cs) as [bs|e];
    [|reflexivity].
  now rewrite concat_empty_cons.
Qed.

Lemma conditionStr_renders (c : Condition.t) :
  renders c = true <-> exists b, TableQuery.conditionStr c = Return b.
Proof.
  unfold renders, TableQuery.conditionStr.
  destruct (Condition.isGroup c); [split; eauto|].
  destruct (TableQuery.operator_is c "BETWEEN").
  { destruct (Condition.value c) as [| |x|n|s|l|l]; cbn;
      split; eauto; try discriminate; intros (b & H); discriminate H. }
  destruct (TableQuery.operator_is c "IN").
  { destruct (Condition.value c) as [| |x|n|s|l|l]; cbn;
      split; eauto; try discriminate; intros (b & H); discriminate H. }
  destruct (TableQuery.operator_is c "IS NULL"); [split; eauto|].
  destruct (TableQuery.operator_is c "IS NOT NULL"); split; eauto.
Qed.

Lemma map_throwing_renders (cs : list Condition.t) :
  forallb renders cs = true ->
  exists bs, map_throwing TableQuery.conditionStr cs = Return bs.
Proof.
  induction cs as [|c cs IH]; cbn; [eauto|].
  rewrite andb_true_iff. intros (R & Rs).
  apply conditionStr_renders in R. destruct R as (b & ->).
  destruct (IH Rs) as (bs & ->). eauto.
Qed.

(** A sequence of conditions that render compiles. *)
Lemma buildConditions_renders q :
  forallb renders (TableQuery.conditions q) = true ->
  exists w, TableQuery.buildConditions q = Return w.
Proof.
  destruct (TableQuery.conditions q) as [|c cs] eqn:E.
  - intros _. unfold TableQuery.buildConditions. rewrite E. cbn. eauto.
  - cbn. rewrite andb_true_iff. intros (R & Rs).
    rewrite (buildConditions_cons q c cs E).
    apply conditionStr_renders in R. destruct R as (b & ->).
    destruct (map_throwing_renders cs Rs) as (bs & ->). eauto.
Qed.

(** What the builder pushes renders, but for [where] and [orWhere] called
    with the operator [BETWEEN] or [IN] and a value of the wrong shape;
    and it keeps the combinators among [AND] and [OR]. *)
Lemma where_family_renders q (column : string) :
  forallb renders (TableQuery.conditions q) = true ->
  (forall operator value,
      operator <> Some "BETWEEN" -> operator <> Some "IN" ->
      forallb renders
              (TableQuery.conditions (TableQuery.where_ column operator value q))
      = true
      /\ forallb renders
                 (TableQuery.conditions
                    (TableQuery.orWhere column operator value q)) = true)
  /\ (forall values,
         forallb renders
                 (TableQuery.conditions (TableQuery.whereIn column values q))
         = true)
  /\ (forall arg q',
         TableQuery.whereBetween column arg q = Return q' ->
         forallb renders (TableQuery.conditions q') = true)
  /\ forallb renders (TableQuery.conditions (TableQuery.whereNull column q))
     = true
  /\ forallb renders (TableQuery.conditions (TableQuery.whereNotNull column q))
     = true
  /\ (forall callback q',
         TableQuery.whereGroup callback q = Return q' ->
         forallb renders (TableQuery.conditions q') = true).
Proof.
  intros R. repeat match goal with |- _ /\ _ => split end.
  - intros operator value B I. cbn.
    rewrite !forallb_app, R. cbn. unfold renders, TableQuery.operator_is. cbn.
    assert (Hb : (match operator with None => "=" | Some op => op end
                  =? "BETWEEN") = false).
    { destruct operator as [o|]; [|reflexivity].
      apply String.eqb_neq. congruence. }
    assert (Hi : (match operator with None => "=" | Some op => op end
                  =? "IN") = false).
    { destruct operator as [o|]; [|reflexivity].
      apply String.eqb_neq. congruence. }
    rewrite Hb, Hi. split; reflexivity.
  - intros values. unfold TableQuery.whereIn.
    destruct values as [| |x|n|s|l|l]; try exact R.
    destruct (0 <? List.length l)%nat; [|exact R].
    cbn. rewrite forallb_app, R. reflexivity.
  - intros arg q'. unfold TableQuery.whereBetween.
    destruct (destructure2 arg) as [[v1 v2]|e]; [|discriminate].
    destruct (negb (strict_eq v1 Undefined) && negb (strict_eq v2 Undefined));
      intros H; injection H as <-; [|exact R].
    cbn. rewrite forallb_app, R. reflexivity.
  - cbn. rewrite forallb_app, R. reflexivity.
  - cbn. rewrite forallb_app, R. reflexivity.
  - intros callback q'. unfold TableQuery.whereGroup.
    destruct (callback (TableQuery.new drv (TableQuery.tableName q) None))
      as [g|e]; [|discriminate].
    destruct (TableQuery.buildConditions g) as [w|e]; [|discriminate].
    intros H. injection H as <-. cbn. rewrite forallb_app, R. reflexivity.
Qed.

Lemma combinators_ok_new (table : string) (pool : option (Pool drv)) :
  combinators_ok (TableQuery.new drv table pool).
Proof. split; [constructor | now left]. Qed.

Lemma combinators_ok_push q (c : Condition.t) (type : string) :
  combinators_ok q -> is_combinator (Condition.type c) ->
  is_combinator type ->
  combinators_ok
    (TableQuery.set_nextType type (TableQuery.push_condition c q)).
Proof.
  intros (F & N) C T. split; [|exact T].
  cbn. apply Forall_app. split; [exact F | now constructor].
Qed.

(** The conditioning calls keep every combinator among [AND] and [OR]. *)
Lemma combinators_ok_calls q (column : string) :
  combinators_ok q ->
  (forall operator value,
      combinators_ok (TableQuery.where_ column operator value q)
      /\ combinators_ok (TableQuery.orWhere column operator value q))
  /\ combinators_ok (TableQuery.or q)
  /\ combinators_ok (TableQuery.and q)
  /\ (forall values, combinators_ok (TableQuery.whereIn column values q))
  /\ combinators_ok (TableQuery.whereNull column q)
  /\ combinators_ok (TableQuery.whereNotNull column q)
  /\ (forall arg q',
         TableQuery.whereBetween column arg q = Return q' ->
         combinators_ok q')
  /\ (forall callback q',
         TableQuery.whereGroup callback q = Return q' -> combinators_ok q').
Proof.
  intros OK. pose proof OK as (F & N).
  repeat match goal with |- _ /\ _ => split end.
  - intros operator value. split.
    + apply combinators_ok_push; [exact OK | exact N | now left].
    + split; [|exact N]. cbn. apply Forall_app.
      split; [exact F | constructor; [now right | constructor]].
  - split; [exact F | now right].
  - split; [exact F | now left].
  - intros values. unfold TableQuery.whereIn.
    destruct values as [| |x|n|s|l|l]; try exact OK.
    destruct (0 <? List.length l)%nat; [|exact OK].
    apply combinators_ok_push; [exact OK | exact N | now left].
  - apply combinators_ok_push; [exact OK | exact N | now left].
  - apply combinators_ok_push; [exact OK | exact N | now left].
  - intros arg q'. unfold TableQuery.whereBetween.
    destruct (destructure2 arg) as [[v1 v2]|e]; [|discriminate].
    destruct (negb (strict_eq v1 Undefined) && negb (strict_eq v2 Undefined));
      intros H; injection H as <-; [|exact OK].
    apply combinators_ok_push; [exact OK | exact N | now left].
  - intros callback q'. unfold TableQuery.whereGroup.
    destruct (callback (TableQuery.new drv (TableQuery.tableName q) None))
      as [g|e]; [|discriminate].
    destruct (TableQuery.buildConditions g) as [w|e]; [|discriminate].
    intros H. injection H as <-.
    apply combinators_ok_push; [exact OK | exact N | now left].
Qed.

(** C5. The empty sequence compiles to the empty string. Otherwise the
    text of the first condition comes with no prefix, whatever its
    combinator, and each later condition comes as a space, its own
    combinator, a space and its text: [ AND ...] for [AND] and [ OR ...]
    for [OR]. The text of a group is its inner fragment in parentheses,
    under the same rule. A sequence whose conditions all render does
    compile. *)
Theorem buildConditions_prefix_rule :
  forall q,
    (TableQuery.conditions q = [] ->
     TableQuery.buildConditions q = Return EmptyString)
    /\ (forall c cs b bs,
           TableQuery.conditions q = c :: cs ->
           TableQuery.conditionStr c = Return b ->
           map_throwing TableQuery.conditionStr cs = Return bs ->
           TableQuery.buildConditions q
           = Return (b ++ String.concat EmptyString
                                        (map prefixed (combine cs bs))))
    /\ (forallb renders (TableQuery.conditions q) = true ->
        exists w, TableQuery.buildConditions q = Return w)
    /\ (forall c b,
           Condition.type c = "AND" -> prefixed (c, b) = " AND " ++ b)
    /\ (forall c b,
           Condition.type c = "OR" -> prefixed (c, b) = " OR " ++ b)
    /\ (forall c,
           Condition.isGroup c = true ->
           TableQuery.conditionStr c
           = Return ("(" ++ toString (Condition.query c) ++ ")")).
Proof.
  intros q. repeat match goal with |- _ /\ _ => split end.
  - intros H. unfold TableQuery.buildConditions. now rewrite H.
  - intros c cs b bs H Hb Hbs.
    now rewrite (buildConditions_cons q c cs H), Hb, Hbs.
  - exact (buildConditions_renders q).
  - intros c b H. unfold prefixed. cbn. now rewrite H.
  - intros c b H. unfold prefixed. cbn. now rewrite H.
  - intros c H. unfold TableQuery.conditionStr. now rewrite H.
Qed.

(** Every condition has a text that is not empty. *)
Lemma conditionStr_not_empty (c : Condition.t) (b : string) :
  TableQuery.conditionStr c = Return b -> b <> EmptyString.
Proof.
  unfold TableQuery.conditionStr. intros H E. subst b.
  assert (L : forall s : string, Return s = Return EmptyString ->
                                 String.length s = 0)
    by (intros s Hs; injection Hs as ->; reflexivity).
  destruct (Condition.isGroup c).
  { apply L in H. discriminate H. }
  destruct (TableQuery.operator_is c "BETWEEN").
  { destruct (destructure2 (Condition.value c)) as [[v1 v2]|e];
      [|discriminate H].
    apply L in H. rewrite !length_append in H. cbn in H. lia. }
  destruct (TableQuery.operator_is c "IN").
  { destruct (array_map TableQuery.quote_if_string (Condition.value c))
      as [mapped|e]; [|discriminate H].
    apply L in H. rewrite !length_append in H. cbn in H. lia. }
  destruct (TableQuery.operator_is c "IS NULL").
  { apply L in H. rewrite !length_append in H. cbn in H. lia. }
  destruct (TableQuery.operator_is c "IS NOT NULL").
  { apply L in H. rewrite !length_append in H. cbn in H. lia. }
  apply L in H. rewrite !length_append in H. cbn in H. lia.
Qed.

(** A sequence with a condition in it never compiles to the empty
    string. *)
Lemma buildConditions_not_empty q (w : string) :
  TableQuery.conditions q <> [] ->
  TableQuery.buildConditions q = Return w -> w <> EmptyString.
Proof.
  intros N H. destruct (TableQuery.conditions q) as [|c cs] eqn:E;
    [now contradiction N|].
  rewrite (buildConditions_cons q c cs E) in H.
  destruct (TableQuery.conditionStr c) as [b|e] eqn:Hb; [|discriminate H].
  destruct (map_throwing TableQuery.conditionStr cs) as [bs|e];
    [|discriminate H].
  injection H as <-. intros W.
  apply (conditionStr_not_empty c b Hb).
  destruct b; [reflexivity | discriminate W].
Qed.

End BuildConditions.

(** C5, on [where('age', '>', 25).orWhere('name', '=', 'Jane')]: the text
    is [age > 25 OR name = 'Jane']. *)
Lemma buildConditions_prefix_rule_witness :
  TableQuery.buildConditions
    (TableQuery.orWhere "name" (Some "=") (Str "Jane")
       (TableQuery.where_ "age" (Some ">") (Number (Finite 25)) Sample.users))
  = Return "age > 25 OR name = 'Jane'".
Proof.
  destruct (buildConditions_prefix_rule Sample.driver
              (TableQuery.orWhere "name" (Some "=") (Str "Jane")
                 (TableQuery.where_ "age" (Some ">") (Number (Finite 25))
                                    Sample.users)))
    as (_ & rule & _).
  apply (rule (Condition.make (Some "age") (Some ">") (Number (Finite 25))
                              Undefined "AND" false)
              [Condition.make (Some "name") (Some "=") (Str "Jane")
                              Undefined "OR" false]
              "age > 25" ["name = 'Jane'"]); reflexivity.
Defined.

(* ===================================================================== *)
(** ** Dispatching to the pool *)
(* ===================================================================== *)

Section Dispatch.

Variable drv : Driver.
Implicit Types q : TableQuery.t drv.
Implicit Types m : Machine drv.

(** With a pool in place [#get_response] records the statement once,
    whatever the pool answers and whether or not the database had to be
    created, and leaves a pool in place. *)
Lemma get_response_dispatched (pool : Pool drv) (sql : string) m :
  dispatched (snd (get_response drv (Some pool) sql m))
  = (dispatched m ++ [sql])%list
  /\ exists pool', snd (fst (get_response drv (Some pool) sql m)) = Some pool'.
Proof.
  unfold get_response.
  repeat match goal with
         | |- context [match ?x with _ => _ end] =>
             match type of x with
             | (_ * _)%type => destruct x
             | completion _ => destruct x
             | option _ => destruct x
             | string => destruct x
             | ascii => destruct x
             | bool => destruct x
             end
         end; cbn; split; try reflexivity; eexists; reflexivity.
Qed.

(** Without a pool nothing is dispatched. *)
Lemma get_response_no_pool (sql : string) m :
  get_response drv None sql m
  = (Throw (Error "No se ha establecido una conexión a la base de datos."),
     None, m).
Proof. reflexivity. Qed.

Lemma set_conection_same q :
  TableQuery.set_conection (TableQuery.conection q) q = q.
Proof. destruct q; reflexivity. Qed.

(** A statement answered with a result went to a pool. *)
Lemma get_response_Return (c : option (Pool drv)) (sql : string) m
      (r : Js.value) (c' : option (Pool drv)) (m' : Machine drv) :
  get_response drv c sql m = (Return r, c', m') ->
  dispatched m' = (dispatched m ++ [sql])%list
  /\ (exists pool, c = Some pool) /\ (exists pool', c' = Some pool').
Proof.
  destruct c as [pool|]; [|discriminate].
  intros H. destruct (get_response_dispatched pool sql m) as (D & p' & P).
  rewrite H in D, P. cbn in D, P. eauto.
Qed.

(** C7. With a patch that is an object, [update] on a builder whose
    conditions compile to the empty string throws its own error and leaves
    the machine as it was: nothing is dispatched; so does [delete]; and no
    conditions compile to the empty string. On a builder with a pool and
    with at least one condition, all of which render, the conditions
    compile to a text [w] that is not empty, and each of the two hands
    exactly its statement, with [ WHERE w] at its end, to [#get_response]
    and ends as that call ends. *)
Theorem update_and_delete_need_a_condition :
  forall q (props : list (string * Js.value)) m,
    let data := Object props in
    (TableQuery.buildConditions q = Return EmptyString ->
     TableQuery.update drv data q m
     = (Throw (Error
          "Debe especificar al menos una condición WHERE para realizar un update."),
        q, m)
     /\ TableQuery.delete drv q m
        = (Throw (Error
             "Debe especificar al menos una condición WHERE para realizar un delete."),
           q, m))
    /\ (TableQuery.conditions q = [] ->
        TableQuery.buildConditions q = Return EmptyString)
    /\ (forall (pool : Pool drv),
           TableQuery.conditions q <> [] ->
           forallb renders (TableQuery.conditions q) = true ->
           TableQuery.conection q = Some pool ->
           exists w,
           TableQuery.buildConditions q = Return w
           /\ w <> EmptyString
           /\ (exists updates,
                  TableQuery.update_assignments data = Return updates
                  /\ let sql := "UPDATE `" ++ TableQuery.tableName q
                                ++ "` SET " ++ updates ++ " WHERE " ++ w in
                     TableQuery.update drv data q m
                     = TableQuery.get_response_ drv sql q m
                     /\ dispatched (snd (TableQuery.update drv data q m))
                        = (dispatched m ++ [sql])%list)
           /\ (let sql := "DELETE FROM `" ++ TableQuery.tableName q
                          ++ "` WHERE " ++ w in
               TableQuery.delete drv q m
               = TableQuery.get_response_ drv sql q m
               /\ dispatched (snd (TableQuery.delete drv q m))
                  = (dispatched m ++ [sql])%list)).
Proof.
  intros q props m data. split; [|split].
  - intros H. unfold TableQuery.update, TableQuery.delete, bind, eval, throw.
    cbn. rewrite H. cbn. split; reflexivity.
  - intros H. unfold TableQuery.buildConditions. now rewrite H.
  - intros pool N R P.
    destruct (buildConditions_renders drv q R) as (w & H).
    exists w. split; [exact H|].
    assert (W : w <> EmptyString)
      by exact (buildConditions_not_empty drv q w N H).
    assert (L : (String.length w =? 0)%nat = false)
      by (destruct w; [now contradiction W | reflexivity]).
    split; [exact W|]. split.
    + eexists. split; [reflexivity|].
      cbv zeta.
      assert (E : TableQuery.update drv data q m
                  = TableQuery.get_response_ drv
                      ("UPDATE `" ++ TableQuery.tableName q ++ "` SET "
                       ++ String.concat ", "
                            (map (fun key =>
                                    key ++ " = "
                                    ++ toString (TableQuery.quote_if_string
                                                   (get_prop data key)))
                                 (map fst props))
                       ++ " WHERE " ++ w) q m).
      { unfold TableQuery.update, bind, eval, throw. cbn.
        rewrite H. cbn. rewrite L. reflexivity. }
      split; [exact E|]. rewrite E.
      unfold TableQuery.get_response_. rewrite P.
      match goal with
      | |- context [get_response drv (Some pool) ?s m] =>
          destruct (get_response_dispatched pool s m) as (D & _);
          destruct (get_response drv (Some pool) s m) as [[r c] m']
      end.
      exact D.
    + cbv zeta.
      assert (E : TableQuery.delete drv q m
                  = TableQuery.get_response_ drv
                      ("DELETE FROM `" ++ TableQuery.tableName q
                       ++ "` WHERE " ++ w) q m).
      { unfold TableQuery.delete, bind, eval, throw.
        rewrite H. cbn. rewrite L. reflexivity. }
      split; [exact E|]. rewrite E.
      unfold TableQuery.get_response_. rewrite P.
      match goal with
      | |- context [get_response drv (Some pool) ?s m] =>
          destruct (get_response_dispatched pool s m) as (D & _);
          destruct (get_response drv (Some pool) s m) as [[r c] m']
      end.
      exact D.
Qed.

End Dispatch.

(* ===================================================================== *)
(** ** [insert] *)
(* ===================================================================== *)

Section Insert.

Variable drv : Driver.
Implicit Types q : TableQuery.t drv.
Implicit Types m : Machine drv.

Lemma same_clauses_refl q : same_clauses q q.
Proof. repeat split. Qed.

Lemma same_clauses_trans q1 q2 q3 :
  same_clauses q1 q2 -> same_clauses q2 q3 -> same_clauses q1 q3.
Proof.
  unfold same_clauses. intros (a1 & a2 & a3 & a4 & a5 & a6 & a7)
                              (b1 & b2 & b3 & b4 & b5 & b6 & b7).
  repeat split; congruence.
Qed.

(** [buildQuery] reads the conditions and the clauses only. *)
Lemma buildQuery_same_clauses q q' :
  same_clauses q q' ->
  TableQuery.conditions q' = TableQuery.conditions q ->
  TableQuery.buildQuery true q' = TableQuery.buildQuery true q.
Proof.
  intros (a1 & a2 & a3 & a4 & a5 & a6 & a7) C.
  unfold TableQuery.buildQuery, TableQuery.buildConditions,
    TableQuery.joins_clause, TableQuery.groupBy_clause,
    TableQuery.limit_clause, TableQuery.offset_clause,
    TableQuery.orderBy_clause.
  now rewrite a2, a3, a4, a5, a6, a7, C.
Qed.

(** One iteration of the loop that returns, step by step. *)
Lemma insert_row_inv (row : Js.value) q m (r : Js.value) q' m' :
  TableQuery.insert_row drv row q m = (Return r, q', m') ->
  exists ins result id look rows c1 m1 c2,
    TableQuery.insert_sql (TableQuery.tableName q) row = Return ins
    /\ get_response drv (TableQuery.conection q) ins m
       = (Return result, c1, m1)
    /\ TableQuery.insertId_or_0 result = Return id
    /\ TableQuery.buildQuery true
         (TableQuery.where_ "id" (Some "=") id (TableQuery.set_conection c1 q))
       = Return look
    /\ get_response drv c1 look m1 = (Return rows, c2, m')
    /\ TableQuery.first_or_null rows = Return r
    /\ q' = TableQuery.set_conection c2
              (TableQuery.where_ "id" (Some "=") id
                 (TableQuery.set_conection c1 q)).
Proof.
  unfold TableQuery.insert_row, TableQuery.first, bind, eval, mutate,
    TableQuery.get_response_.
  destruct (TableQuery.insert_sql (TableQuery.tableName q) row) as [ins|e] eqn:E1;
    [|discriminate].
  destruct (get_response drv (TableQuery.conection q) ins m)
    as [[[result|e] c1] m1] eqn:E2; [|discriminate].
  destruct (TableQuery.insertId_or_0 result) as [id|e] eqn:E3; [|discriminate].
  destruct (TableQuery.buildQuery true
              (TableQuery.where_ "id" (Some "=") id
                 (TableQuery.set_conection c1 q))) as [look|e] eqn:E4;
    [|discriminate].
  cbn [TableQuery.conection TableQuery.where_ TableQuery.set_nextType
       TableQuery.push_condition TableQuery.set_conditions
       TableQuery.set_conection].
  destruct (get_response drv c1 look m1) as [[[rows|e] c2] m2] eqn:G;
    [|discriminate].
  intros H. injection H as H1 H2 H3. subst q' m'.
  exists ins, result, id, look, rows, c1, m1, c2.
  repeat split; try reflexivity; assumption.
Qed.

Lemma id_conditions_AND (ids : list Js.value) :
  id_conditions "AND" ids = map (id_condition "AND") ids.
Proof. destruct ids; reflexivity. Qed.

Lemma lookups_from_same_clauses q q' (steps : list InsertStep) :
  same_clauses q q' ->
  forall conds type,
    lookups_from q' conds type steps -> lookups_from q conds type steps.
Proof.
  intros S. induction steps as [|s rest IH]; intros conds type; [trivial|].
  cbn. intros (L & R). split; [|now apply IH].
  rewrite <- L. symmetry. apply buildQuery_same_clauses; [|reflexivity].
  destruct S as (a1 & a2 & a3 & a4 & a5 & a6 & a7). repeat split; assumption.
Qed.

(** The loop of [insert], when it returns: one step per row. *)
Lemma insert_loop_inv (items : list Js.value) :
  forall (acc : list Js.value) q m (results : list Js.value) q' m',
    TableQuery.insert_loop drv items acc q m = (Return results, q', m') ->
    exists steps,
      Forall2 (fun row s =>
                 TableQuery.insert_sql (TableQuery.tableName q) row
                 = Return (step_insert s)) items steps
      /\ results = (acc ++ map step_row steps)%list
      /\ TableQuery.conditions q'
         = (TableQuery.conditions q
            ++ id_conditions (TableQuery.nextType q) (map step_id steps))%list
      /\ same_clauses q q'
      /\ dispatched m' = (dispatched m ++ statements steps)%list
      /\ lookups_from q (TableQuery.conditions q) (TableQuery.nextType q)
                      steps.
Proof.
  induction items as [|row rest IH]; intros acc q m results q' m' H.
  - cbn in H. injection H as <- <- <-. exists [].
    cbn. rewrite !app_nil_r.
    repeat split; try reflexivity. constructor.
  - cbn [TableQuery.insert_loop] in H. unfold bind in H.
    destruct (TableQuery.insert_row drv row q m) as [[[r|e] q1] m1] eqn:R;
      [|discriminate H].
    apply insert_row_inv in R.
    destruct R as (ins & result & id & look & rows & c1 & m0 & c2
                   & E1 & E2 & E3 & E4 & E5 & E6 & E7).
    apply IH in H.
    destruct H as (steps & F & Hr & Hc & Hs & Hd & Hl).
    assert (S1 : same_clauses q q1) by (subst q1; repeat split).
    assert (C1 : TableQuery.conditions q1
                 = (TableQuery.conditions q
                    ++ [id_condition (TableQuery.nextType q) id])%list)
      by (subst q1; reflexivity).
    assert (N1 : TableQuery.nextType q1 = "AND") by (subst q1; reflexivity).
    assert (T1 : TableQuery.tableName q1 = TableQuery.tableName q)
      by (subst q1; reflexivity).
    apply get_response_Return in E2. destruct E2 as (D2 & _ & _).
    apply get_response_Return in E5. destruct E5 as (D5 & _ & _).
    exists (Build_InsertStep ins id look r :: steps).
    repeat match goal with |- _ /\ _ => split end.
    + constructor; [exact E1|]. now rewrite T1 in F.
    + rewrite Hr, <- app_assoc. reflexivity.
    + rewrite Hc, C1, N1, id_conditions_AND, <- app_assoc. reflexivity.
    + exact (same_clauses_trans q q1 q' S1 Hs).
    + rewrite Hd, D5, D2, <- !app_assoc. reflexivity.
    + cbn [lookups_from step_id step_lookup]. split.
      * rewrite <- E4. apply buildQuery_same_clauses; [|reflexivity].
        repeat split.
      * rewrite C1, N1 in Hl.
        exact (lookups_from_same_clauses q q1 steps S1 _ _ Hl).
Qed.

(** [insert] returns only when its argument passed the two tests and the
    loop returned. *)
Lemma insert_Return (items : list Js.value) q m (results : list Js.value)
      q' m' :
  TableQuery.insert drv (Array items) q m = (Return results, q', m') ->
  forallb TableQuery.is_object items = true
  /\ TableQuery.insert_loop drv items [] q m = (Return results, q', m').
Proof.
  unfold TableQuery.insert, try_catch, throw.
  destruct (forallb TableQuery.is_object items); cbn; [|discriminate].
  destruct (TableQuery.insert_loop drv items [] q m) as [[[r|e] q1] m1];
    [|discriminate].
  intros H. now split.
Qed.

Lemma lookups_from_nth q (steps : list InsertStep) :
  forall conds type,
    lookups_from q conds type steps ->
    forall i s,
      nth_error steps i = Some s ->
      TableQuery.buildQuery true
        (TableQuery.set_conditions
           (conds ++ firstn (S i) (id_conditions type (map step_id steps)))%list
           q)
      = Return (step_lookup s).
Proof.
  induction steps as [|s0 rest IH]; intros conds type L i s Hn.
  - destruct i; discriminate Hn.
  - destruct L as (L0 & L). destruct i as [|i].
    + injection Hn as <-. exact L0.
    + cbn in Hn. specialize (IH _ _ L i s Hn).
      rewrite id_conditions_AND, <- app_assoc in IH. exact IH.
Qed.

Lemma statements_length (steps : list InsertStep) :
  List.length (statements steps) = 2 * List.length steps.
Proof.
  induction steps as [|s rest IH]; [reflexivity|].
  cbn [statements flat_map List.length app]. fold (statements rest).
  rewrite IH. lia.
Qed.

Lemma id_conditions_length (type : string) (ids : list Js.value) :
  List.length (id_conditions type ids) = List.length ids.
Proof. destruct ids; cbn; [reflexivity | now rewrite length_map]. Qed.

Lemma insertId_or_0_inv (result id : Js.value) :
  TableQuery.insertId_or_0 result = Return id ->
  exists raw,
    get_insertId result = Return raw
    /\ id = (if truthy raw then raw else Number (Finite 0)).
Proof.
  unfold TableQuery.insertId_or_0.
  destruct (get_insertId result) as [raw|e]; [|discriminate].
  intros H. injection H as <-. now exists raw.
Qed.

(** C10. An iteration of the loop of [insert] that returns has pushed, on
    the builder [insert] was called on, one equality on [id] under the
    pending combinator: with the [insertId] read off the answer to its
    INSERT when that is truthy, and with [0] when it is not (no
    [insertId], or [0], [null], an empty text). Its lookup is [buildQuery]
    of that builder, dispatched after the INSERT. So when [insert] returns
    on a list of [k] rows the conditions of the builder are the ones it
    had followed by [k] such equalities, and the lookup of row [i] (from
    0) is compiled from the conditions the builder had followed by the
    first [i+1] of them. *)
Theorem insert_grows_the_conditions :
  (forall (row : Js.value) q m (r : Js.value) q' m',
      TableQuery.insert_row drv row q m = (Return r, q', m') ->
      exists ins result raw id look,
        TableQuery.insert_sql (TableQuery.tableName q) row = Return ins
        /\ fst (fst (get_response drv (TableQuery.conection q) ins m))
           = Return result
        /\ get_insertId result = Return raw
        /\ id = (if truthy raw then raw else Number (Finite 0))
        /\ TableQuery.conditions q'
           = (TableQuery.conditions q
              ++ [id_condition (TableQuery.nextType q) id])%list
        /\ TableQuery.buildQuery true q' = Return look
        /\ dispatched m' = (dispatched m ++ [ins; look])%list)
  /\ (forall (items : list Js.value) q m (results : list Js.value) q' m',
         TableQuery.insert drv (Array items) q m = (Return results, q', m') ->
         exists steps,
           List.length steps = List.length items
           /\ TableQuery.conditions q'
              = (TableQuery.conditions q
                 ++ id_conditions (TableQuery.nextType q)
                                  (map step_id steps))%list
           /\ List.length (TableQuery.conditions q')
              = List.length (TableQuery.conditions q) + List.length items
           /\ dispatched m' = (dispatched m ++ statements steps)%list
           /\ forall i s,
               nth_error steps i = Some s ->
               TableQuery.buildQuery true
                 (TableQuery.set_conditions
                    (TableQuery.conditions q
                     ++ firstn (S i)
                          (id_conditions (TableQuery.nextType q)
                                         (map step_id steps)))%list q)
               = Return (step_lookup s)).
Proof.
  split.
  - intros row q m r q' m' H. apply insert_row_inv in H.
    destruct H as (ins & result & id & look & rows & c1 & m1 & c2
                   & E1 & E2 & E3 & E4 & E5 & E6 & E7).
    destruct (insertId_or_0_inv result id E3) as (raw & R & I).
    exists ins, result, raw, id, look. rewrite E2. cbn [fst].
    apply get_response_Return in E2. destruct E2 as (D2 & _ & _).
    apply get_response_Return in E5. destruct E5 as (D5 & _ & _).
    repeat match goal with |- _ /\ _ => split end.
    + exact E1.
    + reflexivity.
    + exact R.
    + exact I.
    + subst q'. reflexivity.
    + rewrite <- E4. subst q'.
      apply buildQuery_same_clauses; [repeat split | reflexivity].
    + rewrite D5, D2, <- app_assoc. reflexivity.
  - intros items q m results q' m' H.
    apply insert_Return in H. destruct H as (_ & H).
    apply insert_loop_inv in H.
    destruct H as (steps & F & Hr & Hc & Hs & Hd & Hl).
    exists steps.
    assert (Len : List.length steps = List.length items)
      by (symmetry; exact (Forall2_length F)).
    repeat match goal with |- _ /\ _ => split end.
    + exact Len.
    + exact Hc.
    + rewrite Hc, length_app, id_conditions_length, length_map, Len.
      reflexivity.
    + exact Hd.
    + exact (lookups_from_nth q steps _ _ Hl).
Qed.

End Insert.

(** C10, twice. On [db.table('users').insert([{name: 'Alice', age: 28},
    {name: 'Bob'}])] over the pool of the examples the builder ends with
    two conditions, and the second lookup filters on both. And over the
    pool of the schema, whose answer to an INSERT carries no [insertId],
    the iteration on [{name: 'Alice'}] pushes the equality on [0]. *)
Lemma insert_grows_the_conditions_witness :
  (exists q' m',
      TableQuery.insert Sample.driver
        (Array [Object [("name", Str "Alice"); ("age", Number (Finite 28))];
                Object [("name", Str "Bob")]])
        Sample.users Sample.machine
      = (Return [Object [("id", Number (Finite 1))];
                 Object [("id", Number (Finite 2))]], q', m')
      /\ List.length (TableQuery.conditions q') = 2
      /\ dispatched m'
         = ["INSERT INTO `users` (`name`, `age`) VALUES ('Alice', 28)";
            "SELECT * FROM `users` WHERE id = 1";
            "INSERT INTO `users` (`name`) VALUES ('Bob')";
            "SELECT * FROM `users` WHERE id = 1 AND id = 2"])
  /\ (exists q' m',
         TableQuery.insert_row Catalog.driver
           (Object [("name", Str "Alice")])
           (TableQuery.new Catalog.driver "users" (Some tt))
           Catalog.empty_machine
         = (Return Null, q', m')
         /\ TableQuery.conditions q'
            = [id_condition "AND" (Number (Finite 0))]
         /\ dispatched m'
            = ["INSERT INTO `users` (`name`) VALUES ('Alice')";
               "SELECT * FROM `users` WHERE id = 0"]).
Proof.
  split.
  - eexists. eexists. split; [vm_compute; reflexivity|].
    split.
    + match goal with
      | |- List.length (TableQuery.conditions ?q') = _ =>
          destruct (proj2 (insert_grows_the_conditions Sample.driver)
                      [Object [("name", Str "Alice");
                               ("age", Number (Finite 28))];
                       Object [("name", Str "Bob")]]
                      Sample.users Sample.machine
                      [Object [("id", Number (Finite 1))];
                       Object [("id", Number (Finite 2))]]
                      q' _ eq_refl)
            as (steps & _ & _ & L & _)
      end.
      exact L.
    + reflexivity.
  - eexists. eexists. split; [vm_compute; reflexivity|].
    match goal with
    | |- TableQuery.conditions ?q' = _ /\ dispatched ?m' = _ =>
        destruct (proj1 (insert_grows_the_conditions Catalog.driver)
                    (Object [("name", Str "Alice")])
                    (TableQuery.new Catalog.driver "users" (Some tt))
                    Catalog.empty_machine Null q' m' eq_refl)
          as (ins & result & raw & id & look & I & A & R & F & C & _)
    end.
    injection I as <-.
    injection A as <-.
    injection R as <-.
    cbn in F. subst id.
    split; [exact C | reflexivity].
Defined.

Lemma map_index_from_app {A B : Type} (f : A -> nat -> B) (l1 l2 : list A) :
  forall i,
    map_index_from f i (l1 ++ l2)
    = (map_index_from f i l1
       ++ map_index_from f (i + List.length l1) l2)%list.
Proof.
  induction l1 as [|x l1 IH]; intros i; cbn.
  - now rewrite Nat.add_0_r.
  - rewrite IH. now rewrite Nat.add_succ_r.
Qed.

Lemma where_clause_not_empty (w : string) :
  w <> EmptyString -> TableQuery.where_clause w = " WHERE " ++ w.
Proof. destruct w; [intros N; now contradiction N | reflexivity]. Qed.

(** C2. [insert] on the two rows of its doc comment, over a table without
    a row: the lookup of the second row is filtered by the identifier of
    the first row too, [WHERE id = 1 AND id = 2], no row has both, and the
    list returned holds [null] where the second row should be. The second
    row inserted alone, through a builder of its own, is read back. And
    the empty list is not refused: it gives the empty list, with nothing
    dispatched. *)
Theorem insert_second_lookup_keeps_the_first_id :
  let alice := Object [("name", Str "Alice"); ("age", Number (Finite 28))] in
  let bob := Object [("name", Str "Bob"); ("age", Number (Finite 32))] in
  (exists q',
      TableQuery.insert Stored.driver (Array [alice; bob]) Stored.users
                        Stored.machine
      = (Return [Stored.row 1; Null], q',
         Build_Machine Stored.driver 2
           ["INSERT INTO `users` (`name`, `age`) VALUES ('Alice', 28)";
            "SELECT * FROM `users` WHERE id = 1";
            "INSERT INTO `users` (`name`, `age`) VALUES ('Bob', 32)";
            "SELECT * FROM `users` WHERE id = 1 AND id = 2"]))
  /\ (exists q',
         TableQuery.insert Stored.driver (Array [bob]) Stored.users
                           (Build_Machine Stored.driver 1 [])
         = (Return [Stored.row 2], q',
            Build_Machine Stored.driver 2
              ["INSERT INTO `users` (`name`, `age`) VALUES ('Bob', 32)";
               "SELECT * FROM `users` WHERE id = 2"]))
  /\ TableQuery.insert Stored.driver (Array []) Stored.users Stored.machine
     = (Return [], Stored.users, Stored.machine).
Proof.
  cbv zeta. repeat split; try (eexists; vm_compute; reflexivity).
Qed.

(** C7, over the pool of the examples: [update({name: 'Bob'})] on
    [db.table('users')] throws before anything is dispatched, and
    [where('id', 1).delete()] dispatches its one statement. *)
Lemma update_and_delete_need_a_condition_witness :
  TableQuery.update Sample.driver (Object [("name", Str "Bob")])
                    Sample.users Sample.machine
  = (Throw (Error
       "Debe especificar al menos una condición WHERE para realizar un update."),
     Sample.users, Sample.machine)
  /\ dispatched
       (snd (TableQuery.delete Sample.driver
               (TableQuery.where_ "id" None (Number (Finite 1)) Sample.users)
               Sample.machine))
     = ["DELETE FROM `users` WHERE id = 1"].
Proof.
  split.
  - destruct (update_and_delete_need_a_condition
                Sample.driver Sample.users [("name", Str "Bob")]
                Sample.machine) as (none & _).
    destruct (none eq_refl) as (U & _). exact U.
  - destruct (update_and_delete_need_a_condition
                Sample.driver
                (TableQuery.where_ "id" None (Number (Finite 1)) Sample.users)
                [("name", Str "Bob")] Sample.machine) as (_ & _ & some).
    destruct (some tt) as (w & W & _ & _ & _ & D);
      [discriminate | reflexivity | reflexivity |].
    injection W as <-. exact D.
Defined.

(* ===================================================================== *)
(** ** What holds of the length suffix and of ORDER BY *)
(* ===================================================================== *)

(** The length suffix, as the code has it: [create] writes [type(length)]
    for a truthy length unless the type is spelled [text], and
    [Columns.add] and [Columns.edit] unless it is spelled [TEXT]. *)
Lemma length_suffix_rule (field : Field.t) :
  Field.name field <> EmptyString -> Field.type field <> EmptyString ->
  (Ddl.length_truthy (Field.length field) = true ->
   Field.type field <> "text" ->
   exists rest,
     Ddl.create_fieldDefinition field
     = Return ("`" ++ Field.name field ++ "` " ++ Field.type field ++ "("
               ++ Ddl.length_toString (Field.length field) ++ ")" ++ rest))
  /\ (Field.type field = "text" ->
      exists rest,
        Ddl.create_fieldDefinition field
        = Return ("`" ++ Field.name field ++ "` text" ++ rest)
        /\ String.prefix "(" rest = false)
  /\ (Ddl.length_truthy (Field.length field) = true ->
      Field.type field <> "TEXT" ->
      Ddl.fullType field
      = Field.type field ++ "("
        ++ Ddl.length_toString (Field.length field) ++ ")")
  /\ (Field.type field = "TEXT" -> Ddl.fullType field = "TEXT").
Proof.
  intros Hn Ht.
  assert (Tn : truthy (Str (Field.name field)) = true)
    by (cbn; now apply negb_true_iff, String.eqb_neq).
  assert (Tt : truthy (Str (Field.type field)) = true)
    by (cbn; now apply negb_true_iff, String.eqb_neq).
  repeat match goal with |- _ /\ _ => split end.
  - intros L N. unfold Ddl.create_fieldDefinition. rewrite Tn, Tt, L.
    apply String.eqb_neq in N. rewrite N. cbn [negb orb andb].
    destruct (Field.foreing field); eexists;
      rewrite !append_assoc; cbn; rewrite ?append_assoc; reflexivity.
  - intros E. unfold Ddl.create_fieldDefinition. rewrite Tn, Tt, E.
    rewrite andb_false_r. cbn [negb orb].
    unfold Ddl.create_default, Ddl.default_branches, Ddl.options_suffix.
    cbn [Ddl.includes_upper].
    change (Ddl.includes_upper "text") with true. cbn iota.
    destruct (truthy (Field.defaultValue field));
      destruct (Field.options field) as [opts|];
      try destruct (includes opts "primary");
      try destruct (includes opts "autoincrement");
      try destruct (includes opts "unique");
      destruct (Field.foreing field);
      eexists; (split; [rewrite !append_assoc; cbn; reflexivity
                       | reflexivity]).
  - intros L N. unfold Ddl.fullType. rewrite L.
    apply String.eqb_neq in N. now rewrite N.
  - intros E. unfold Ddl.fullType. rewrite E. cbn.
    now rewrite andb_false_r.
Qed.

Section OrderBy.

Variable drv : Driver.
Implicit Types q : TableQuery.t drv.

(** Right after [count], [sum], [avg], [max] or [min] the base clause
    starts with its aggregate, and no ORDER BY is written whatever orders
    are registered. *)
Lemma aggregate_suppresses_orderBy q (column : string) :
  TableQuery.orderBy_clause (TableQuery.count (Some column) q) = EmptyString
  /\ TableQuery.orderBy_clause (TableQuery.count None q) = EmptyString
  /\ TableQuery.orderBy_clause (TableQuery.sum column q) = EmptyString
  /\ TableQuery.orderBy_clause (TableQuery.avg column q) = EmptyString
  /\ TableQuery.orderBy_clause (TableQuery.max column q) = EmptyString
  /\ TableQuery.orderBy_clause (TableQuery.min column q) = EmptyString.
Proof.
  unfold TableQuery.orderBy_clause.
  repeat split; cbn;
    destruct (TableQuery._orderBy q); reflexivity.
Qed.

(** On the base clause of a new builder every registered order is
    written, in the order of registration; [orderBy] registers at the
    end. *)
Lemma star_lists_every_order q (table : string) :
  TableQuery.query q = "SELECT * FROM `" ++ table ++ "`" ->
  TableQuery._orderBy q <> [] ->
  TableQuery.orderBy_clause q
  = " ORDER BY "
    ++ String.concat ", "
         (map (fun order => OrderBy.column order ++ " "
                            ++ OrderBy.direction order)
              (TableQuery._orderBy q)).
Proof.
  intros Q N. unfold TableQuery.orderBy_clause. rewrite Q.
  destruct (TableQuery._orderBy q); [now contradiction N | reflexivity].
Qed.

Lemma orderBy_registers_last q (column direction : string) q' :
  TableQuery.orderBy column (Some direction) q = Return q' ->
  TableQuery._orderBy q'
  = (TableQuery._orderBy q
     ++ [OrderBy.make column (toUpperCase direction)])%list
  /\ TableQuery.query q' = TableQuery.query q.
Proof.
  unfold TableQuery.orderBy.
  destruct (includes ["ASC"; "DESC"] (toUpperCase direction));
    [|discriminate].
  intros H. injection H as <-. split; reflexivity.
Qed.

End OrderBy.

(* ===================================================================== *)
(** ** How the builder calls compose with the compiler *)
(* ===================================================================== *)

Section Composition.

Variable drv : Driver.
Implicit Types q : TableQuery.t drv.

Lemma map_throwing_app {A B : Type} (f : A -> completion B)
      (l1 l2 : list A) (r1 r2 : list B) :
  map_throwing f l1 = Return r1 -> map_throwing f l2 = Return r2 ->
  map_throwing f (l1 ++ l2) = Return (r1 ++ r2)%list.
Proof.
  revert r1. induction l1 as [|x l1 IH]; intros r1 H1 H2.
  - injection H1 as <-. exact H2.
  - cbn in H1 |- *. destruct (f x) as [y|e]; [|discriminate H1].
    destruct (map_throwing f l1) as [ys|e]; [|discriminate H1].
    injection H1 as <-. now rewrite (IH ys eq_refl H2).
Qed.

(** Pushing a condition that renders on conditions that compile appends
    its text, under its combinator unless it is the first. *)
Lemma buildConditions_push q (c : Condition.t) (w b : string) :
  TableQuery.buildConditions q = Return w ->
  TableQuery.conditionStr c = Return b ->
  forall q',
    TableQuery.conditions q' = (TableQuery.conditions q ++ [c])%list ->
    TableQuery.buildConditions q'
    = Return match TableQuery.conditions q with
             | [] => b
             | _ :: _ => w ++ " " ++ Condition.type c ++ " " ++ b
             end.
Proof.
  intros W B q' C. unfold TableQuery.buildConditions, map_index in *.
  rewrite C, map_index_from_app.
  destruct (map_throwing (fun r => r)
              (map_index_from TableQuery.render_condition 0
                 (TableQuery.conditions q))) as [pieces|e] eqn:P;
    [|discriminate W].
  injection W as <-.
  rewrite (map_throwing_app (fun r => r) _ _ pieces
             [(if (List.length (TableQuery.conditions q) =? 0)%nat
               then EmptyString
               else " " ++ Condition.type c ++ " ") ++ b] P).
  - rewrite concat_empty_app. cbn [String.concat].
    destruct (TableQuery.conditions q) as [|c0 cs].
    + cbn in P. injection P as <-. reflexivity.
    + cbn [List.length Nat.eqb]. now rewrite !append_assoc.
  - cbn. unfold TableQuery.render_condition. now rewrite B.
Qed.

(** X1. On a builder whose conditions compile to [w], [where] with a
    comparison operator compiles to [w], a space, the pending combinator, a
    space and [column operator value], the value in single quotes when it
    is a string; [orWhere] does the same under [OR]; on a builder without
    conditions both compile to the comparison alone. *)
Theorem where_extends_the_compiled_text :
  forall q (column operator : string) (value : Js.value) (w : string),
    operator <> "BETWEEN" -> operator <> "IN" ->
    operator <> "IS NULL" -> operator <> "IS NOT NULL" ->
    TableQuery.buildConditions q = Return w ->
    let text := column ++ " " ++ operator ++ " "
                ++ toString (TableQuery.quote_if_string value) in
    TableQuery.buildConditions
      (TableQuery.where_ column (Some operator) value q)
    = Return match TableQuery.conditions q with
             | [] => text
             | _ :: _ => w ++ " " ++ TableQuery.nextType q ++ " " ++ text
             end
    /\ TableQuery.buildConditions
         (TableQuery.orWhere column (Some operator) value q)
       = Return match TableQuery.conditions q with
                | [] => text
                | _ :: _ => w ++ " OR " ++ text
                end.
Proof.
  intros q column operator value w B I N NN W text.
  assert (T : forall type,
             TableQuery.conditionStr
               (Condition.make (Some column) (Some operator) value Undefined
                               type false) = Return text).
  { intros type. unfold TableQuery.conditionStr, TableQuery.operator_is.
    cbn [Condition.isGroup Condition.operator Condition.column
         Condition.value TableQuery.option_toString].
    apply String.eqb_neq in B, I, N, NN. now rewrite B, I, N, NN. }
  split.
  - apply (buildConditions_push q _ w text W (T (TableQuery.nextType q))).
    reflexivity.
  - apply (buildConditions_push q _ w text W (T "OR")). reflexivity.
Qed.

(** X2. When the conditions compile to [w], [buildQuery] is the base
    clause, the joins, [ WHERE w] exactly when the builder has a condition,
    then GROUP BY, LIMIT, OFFSET and, last, ORDER BY. *)
Theorem buildQuery_writes_WHERE_for_conditions :
  forall q (w : string),
    TableQuery.buildConditions q = Return w ->
    TableQuery.buildQuery true q
    = Return (TableQuery.query q ++ TableQuery.joins_clause q
              ++ match TableQuery.conditions q with
                 | [] => EmptyString
                 | _ :: _ => " WHERE " ++ w
                 end
              ++ TableQuery.groupBy_clause q ++ TableQuery.limit_clause q
              ++ TableQuery.offset_clause q ++ TableQuery.orderBy_clause q).
Proof.
  intros q w W. rewrite (buildQuery_clauses drv q w W).
  destruct (TableQuery.conditions q) as [|c cs] eqn:C.
  - unfold TableQuery.buildConditions in W. rewrite C in W.
    injection W as <-. reflexivity.
  - rewrite where_clause_not_empty; [reflexivity|].
    apply (buildConditions_not_empty drv q w); [|exact W].
    rewrite C. discriminate.
Qed.

End Composition.

(** X1, on [where('age', '>', 25)] followed by [or().where('name', '=',
    'Jane')]. *)
Lemma where_extends_the_compiled_text_witness :
  TableQuery.buildConditions
    (TableQuery.where_ "name" (Some "=") (Str "Jane")
       (TableQuery.or
          (TableQuery.where_ "age" (Some ">") (Number (Finite 25))
                             Sample.users)))
  = Return "age > 25 OR name = 'Jane'".
Proof.
  apply (where_extends_the_compiled_text Sample.driver
           (TableQuery.or
              (TableQuery.where_ "age" (Some ">") (Number (Finite 25))
                                 Sample.users))
           "name" "=" (Str "Jane") "age > 25");
    try discriminate; reflexivity.
Defined.

(** X2, on [where('id', '=', 7).limit(1)] followed by [orderBy('id')]
    registered by hand. *)
Lemma buildQuery_writes_WHERE_for_conditions_witness :
  TableQuery.buildQuery true
    (TableQuery.set_orderBy [OrderBy.make "id" "ASC"]
       (TableQuery.limit (Finite 1)
          (TableQuery.where_ "id" (Some "=") (Number (Finite 7))
                             Sample.users)))
  = Return "SELECT * FROM `users` WHERE id = 7 LIMIT 1 ORDER BY id ASC".
Proof.
  apply (buildQuery_writes_WHERE_for_conditions Sample.driver
           (TableQuery.set_orderBy [OrderBy.make "id" "ASC"]
              (TableQuery.limit (Finite 1)
                 (TableQuery.where_ "id" (Some "=") (Number (Finite 7))
                                    Sample.users)))
           "id = 7").
  reflexivity.
Defined.

Lemma concat_snoc (sep : string) (l : list string) (x : string) :
  l <> [] ->
  String.concat sep (l ++ [x]) = String.concat sep l ++ sep ++ x.
Proof.
  induction l as [|y l IH]; intros N; [now contradiction N|].
  destruct l as [|z l]; [reflexivity|].
  cbn [app String.concat] in *. rewrite IH by discriminate.
  now rewrite !append_assoc.
Qed.

Lemma strict_eq_Undefined (v : Js.value) :
  v <> Undefined -> strict_eq v Undefined = false.
Proof.
  destruct v as [| |b|n|s|l|l]; try reflexivity; try congruence.
  destruct n; reflexivity.
Qed.

Section BuilderEdges.

Variable drv : Driver.
Implicit Types q : TableQuery.t drv.

(** X3. [orderBy] returns exactly when the direction, in upper case, is
    [ASC] or [DESC]; it then registers the column with the direction in
    upper case behind the orders already there, touches neither the base
    clause nor the conditions, keeps every registered direction among
    [ASC] and [DESC], and does what it does on the direction written in
    upper case. Otherwise it throws [Invalid direction: ...], naming the
    direction as given. Without a direction it is [orderBy(column,
    'ASC')]. The upper case is the one of [toUpperCase], under which the
    long s is an [S]: [orderBy(column, 'deſc')] registers [DESC]. *)
Theorem orderBy_checks_the_direction :
  forall q (column direction : string),
    match TableQuery.orderBy column (Some direction) q with
    | Return q' =>
        includes ["ASC"; "DESC"] (toUpperCase direction) = true
        /\ TableQuery._orderBy q'
           = (TableQuery._orderBy q
              ++ [OrderBy.make column (toUpperCase direction)])%list
        /\ TableQuery.query q' = TableQuery.query q
        /\ TableQuery.conditions q' = TableQuery.conditions q
        /\ (orders_ok q -> orders_ok q')
        /\ TableQuery.orderBy column (Some (toUpperCase direction)) q
           = Return q'
    | Throw e =>
        includes ["ASC"; "DESC"] (toUpperCase direction) = false
        /\ e = Error ("Invalid direction: " ++ direction
                      ++ ". Use 'ASC' or 'DESC'.")
    end
    /\ TableQuery.orderBy column None q
       = TableQuery.orderBy column (Some "ASC") q
    /\ TableQuery.orderBy column (Some "deſc") q
       = Return (TableQuery.set_orderBy
                   (TableQuery._orderBy q ++ [OrderBy.make column "DESC"])%list
                   q).
Proof.
  intros q column direction. split; [|split; reflexivity].
  unfold TableQuery.orderBy.
  destruct (includes ["ASC"; "DESC"] (toUpperCase direction)) eqn:V.
  - assert (U : toUpperCase direction = "ASC"
                \/ toUpperCase direction = "DESC").
    { unfold includes in V. cbn [existsb] in V. rewrite orb_false_r in V.
      apply orb_true_iff in V. destruct V as [V|V];
        apply String.eqb_eq in V; [now left | now right]. }
    repeat match goal with |- _ /\ _ => split end; try reflexivity.
    + intros OK. unfold orders_ok. cbn. apply Forall_app. split; [exact OK|].
      constructor; [exact U | constructor].
    + destruct U as [-> | ->]; reflexivity.
  - split; reflexivity.
Qed.

(** X4. [select] with columns after [distinct] writes one [DISTINCT], on
    any builder; on a builder where [distinct] was not called before,
    [select] followed by [distinct] gives the same base clause; and
    [select([])] changes nothing. *)
Theorem select_and_distinct_commute :
  forall q (fields : list string),
    fields <> [] ->
    TableQuery.query (TableQuery.select fields (TableQuery.distinct q))
    = "SELECT DISTINCT " ++ String.concat ", " fields ++ " FROM `"
      ++ TableQuery.tableName q ++ "`"
    /\ (TableQuery._distinct q = false ->
        TableQuery.query (TableQuery.distinct (TableQuery.select fields q))
        = TableQuery.query (TableQuery.select fields (TableQuery.distinct q)))
    /\ TableQuery.select [] q = q.
Proof.
  intros q fields N.
  assert (L : (0 <? List.length fields)%nat = true)
    by (destruct fields; [now contradiction N | reflexivity]).
  repeat match goal with |- _ /\ _ => split end.
  - unfold TableQuery.select. rewrite L. reflexivity.
  - intros D. unfold TableQuery.select, TableQuery.distinct. rewrite L.
    cbn [TableQuery.query TableQuery.set_query TableQuery.set_distinct
         TableQuery._distinct TableQuery.tableName].
    rewrite D.
    exact (replace_leading_SELECT_app
             (EmptyString ++ String.concat ", " fields ++ " FROM `"
              ++ TableQuery.tableName q ++ "`")).
  - reflexivity.
Qed.

(** X5. Each join adds its fragment, [JOIN], [LEFT JOIN] or [RIGHT JOIN]
    with [table ON column1 operator column2], behind the joins already
    written; [groupBy] opens [ GROUP BY] with its column or adds it behind
    a comma. *)
Theorem joins_and_groups_append :
  forall q (table column1 operator column2 : string),
    let on := table ++ " ON " ++ column1 ++ " " ++ operator ++ " "
              ++ column2 in
    TableQuery.joins_clause (TableQuery.join table column1 operator column2 q)
    = TableQuery.joins_clause q ++ " JOIN " ++ on
    /\ TableQuery.joins_clause
         (TableQuery.leftJoin table column1 operator column2 q)
       = TableQuery.joins_clause q ++ " LEFT JOIN " ++ on
    /\ TableQuery.joins_clause
         (TableQuery.rightJoin table column1 operator column2 q)
       = TableQuery.joins_clause q ++ " RIGHT JOIN " ++ on
    /\ TableQuery.groupBy_clause (TableQuery.groupBy column1 q)
       = match TableQuery._groupBy q with
         | [] => " GROUP BY " ++ column1
         | _ :: _ => TableQuery.groupBy_clause q ++ ", " ++ column1
         end.
Proof.
  intros q table column1 operator column2 on.
  unfold TableQuery.joins_clause, TableQuery.groupBy_clause,
    TableQuery.join, TableQuery.leftJoin, TableQuery.rightJoin,
    TableQuery.groupBy.
  cbn [TableQuery.joins TableQuery.set_joins TableQuery._groupBy
       TableQuery.set_groupBy].
  rewrite !length_app. cbn [List.length].
  rewrite !Nat.add_1_r. cbn [Nat.ltb Nat.leb].
  repeat match goal with |- _ /\ _ => split end.
  - destruct (TableQuery.joins q) as [|j js]; [reflexivity|].
    rewrite concat_snoc by discriminate. cbn [List.length Nat.ltb Nat.leb].
    now rewrite !append_assoc.
  - destruct (TableQuery.joins q) as [|j js]; [reflexivity|].
    rewrite concat_snoc by discriminate. cbn [List.length Nat.ltb Nat.leb].
    now rewrite !append_assoc.
  - destruct (TableQuery.joins q) as [|j js]; [reflexivity|].
    rewrite concat_snoc by discriminate. cbn [List.length Nat.ltb Nat.leb].
    now rewrite !append_assoc.
  - destruct (TableQuery._groupBy q) as [|g gs]; [reflexivity|].
    rewrite concat_snoc by discriminate. cbn [List.length Nat.ltb Nat.leb].
    now rewrite !append_assoc.
Qed.

End BuilderEdges.

(** X4, on [db.table('users')] and the columns [id] and [name]. *)
Lemma select_and_distinct_commute_witness :
  TableQuery.query
    (TableQuery.distinct (TableQuery.select ["id"; "name"] Sample.users))
  = "SELECT DISTINCT id, name FROM `users`".
Proof.
  destruct (select_and_distinct_commute Sample.driver Sample.users
              ["id"; "name"]) as (one & commute & _); [discriminate|].
  rewrite (commute eq_refl). exact one.
Defined.

Section ConditionCalls.

Variable drv : Driver.
Implicit Types q : TableQuery.t drv.

(** X6. [whereGroup] runs the callback on a new builder of the same table,
    so the group holds nothing of the outer conditions; when what the
    callback leaves compiles to [w], the outer builder gains one group
    under the pending combinator, written [(w)] after what was there, and
    the pending combinator is [AND] again. A callback that adds nothing
    gives the group [()]. *)
Theorem whereGroup_wraps_the_inner_fragment :
  forall q (callback : TableQuery.t drv -> completion (TableQuery.t drv))
         (g : TableQuery.t drv) (w : string),
    callback (TableQuery.new drv (TableQuery.tableName q) None) = Return g ->
    TableQuery.buildConditions g = Return w ->
    exists q',
      TableQuery.whereGroup callback q = Return q'
      /\ TableQuery.conditions q'
         = (TableQuery.conditions q
            ++ [Condition.make None None Undefined (Str w)
                               (TableQuery.nextType q) true])%list
      /\ TableQuery.nextType q' = "AND"
      /\ (forall w0,
             TableQuery.buildConditions q = Return w0 ->
             TableQuery.buildConditions q'
             = Return match TableQuery.conditions q with
                      | [] => "(" ++ w ++ ")"
                      | _ :: _ => w0 ++ " " ++ TableQuery.nextType q
                                  ++ " (" ++ w ++ ")"
                      end)
      /\ (w = EmptyString <-> TableQuery.conditions g = []).
Proof.
  intros q callback g w C W. unfold TableQuery.whereGroup. rewrite C, W.
  eexists. split; [reflexivity|].
  repeat match goal with |- _ /\ _ => split end; try reflexivity.
  - intros w0 W0.
    match goal with
    | |- TableQuery.buildConditions ?q' = _ =>
        rewrite (buildConditions_push drv q
                   (Condition.make None None Undefined (Str w)
                                   (TableQuery.nextType q) true)
                   w0 ("(" ++ w ++ ")") W0 eq_refl q' eq_refl)
    end.
    destruct (TableQuery.conditions q); reflexivity.
  - split.
    + intros ->. destruct (TableQuery.conditions g) as [|c cs] eqn:E;
        [reflexivity|].
      exfalso. apply (buildConditions_not_empty drv g EmptyString);
        [rewrite E; discriminate | exact W | reflexivity].
    + intros E. unfold TableQuery.buildConditions in W. rewrite E in W.
      now injection W as <-.
Qed.

(** X7. [whereBetween] reads the first two items of its argument. When
    neither is [undefined] it pushes one [BETWEEN] condition on the two,
    under the pending combinator, whose text is [column BETWEEN v1 AND
    v2], each bound in quotes when it is a string; further items are
    ignored; on conditions that compile to [w] the result compiles to [w]
    followed by that text under the pending combinator. With a bound
    missing or [undefined] the builder comes back unchanged, and an
    argument that cannot be destructured throws. *)
Theorem whereBetween_reads_two_bounds :
  forall q (column : string) (v1 v2 : Js.value) (more : list Js.value),
    (v1 <> Undefined -> v2 <> Undefined ->
     let cond := Condition.make (Some column) (Some "BETWEEN")
                                (Array [v1; v2]) Undefined
                                (TableQuery.nextType q) false in
     TableQuery.whereBetween column (Array (v1 :: v2 :: more)) q
     = Return (TableQuery.set_nextType "AND"
                 (TableQuery.push_condition cond q))
     /\ (forall w,
            TableQuery.buildConditions q = Return w ->
            let text := column ++ " BETWEEN "
                        ++ toString (TableQuery.quote_if_string v1) ++ " AND "
                        ++ toString (TableQuery.quote_if_string v2) in
            TableQuery.buildConditions
              (TableQuery.set_nextType "AND"
                 (TableQuery.push_condition cond q))
            = Return match TableQuery.conditions q with
                     | [] => text
                     | _ :: _ => w ++ " " ++ TableQuery.nextType q ++ " "
                                 ++ text
                     end))
    /\ TableQuery.whereBetween column (Array []) q = Return q
    /\ TableQuery.whereBetween column (Array [v1]) q = Return q
    /\ TableQuery.whereBetween column (Array (Undefined :: v2 :: more)) q
       = Return q
    /\ TableQuery.whereBetween column (Array (v1 :: Undefined :: more)) q
       = Return q
    /\ (forall arg,
           (forall l, arg <> Array l) -> (forall s, arg <> Str s) ->
           exists e, TableQuery.whereBetween column arg q = Throw e).
Proof.
  intros q column v1 v2 more.
  repeat match goal with |- _ /\ _ => split end.
  - intros N1 N2 cond. split.
    + unfold TableQuery.whereBetween. cbn.
      now rewrite (strict_eq_Undefined v1 N1), (strict_eq_Undefined v2 N2).
    + intros w W text.
      apply (buildConditions_push drv q cond w text W); reflexivity.
  - reflexivity.
  - unfold TableQuery.whereBetween. cbn.
    now rewrite andb_false_r.
  - reflexivity.
  - unfold TableQuery.whereBetween. cbn.
    now rewrite andb_false_r.
  - intros arg NA NS. unfold TableQuery.whereBetween.
    destruct arg as [| |b|n|s|l|l]; cbn; eauto.
    + now contradiction (NS s).
    + now contradiction (NA l).
Qed.

(** X8. [whereIn] with an array that is not empty pushes one [IN]
    condition under the pending combinator; on conditions that compile to
    [w] the result compiles to [w] followed, under that combinator, by
    [column IN (...)] with the values in order, separated by a comma and a
    space, strings in quotes. With the empty array, or with a value that
    is not an array, the builder comes back as it was, pending combinator
    included. *)
Theorem whereIn_lists_the_values :
  forall q (column : string) (v : Js.value) (vs : list Js.value),
    let cond := Condition.make (Some column) (Some "IN") (Array (v :: vs))
                               Undefined (TableQuery.nextType q) false in
    TableQuery.whereIn column (Array (v :: vs)) q
    = TableQuery.set_nextType "AND" (TableQuery.push_condition cond q)
    /\ (forall w,
           TableQuery.buildConditions q = Return w ->
           let text := column ++ " IN ("
                       ++ Js.join ", "
                            (map TableQuery.quote_if_string (v :: vs))
                       ++ ")" in
           TableQuery.buildConditions
             (TableQuery.whereIn column (Array (v :: vs)) q)
           = Return match TableQuery.conditions q with
                    | [] => text
                    | _ :: _ => w ++ " " ++ TableQuery.nextType q ++ " "
                                ++ text
                    end)
    /\ TableQuery.whereIn column (Array []) q = q
    /\ (forall values,
           isArray values = false -> TableQuery.whereIn column values q = q).
Proof.
  intros q column v vs cond.
  repeat match goal with |- _ /\ _ => split end; try reflexivity.
  - intros w W text.
    apply (buildConditions_push drv q cond w text W); reflexivity.
  - intros values H. destruct values; try reflexivity. discriminate H.
Qed.

End ConditionCalls.

(** X6, on [whereGroup(q => q.where('age', '>', 25).orWhere('name', '=',
    'Jane'))] as the only condition. *)
Lemma whereGroup_wraps_the_inner_fragment_witness :
  exists q',
    TableQuery.whereGroup
      (fun g => Return (TableQuery.orWhere "name" (Some "=") (Str "Jane")
                          (TableQuery.where_ "age" (Some ">")
                                             (Number (Finite 25)) g)))
      Sample.users = Return q'
    /\ TableQuery.buildConditions q' = Return "(age > 25 OR name = 'Jane')".
Proof.
  destruct (whereGroup_wraps_the_inner_fragment Sample.driver Sample.users
              (fun g => Return (TableQuery.orWhere "name" (Some "=")
                                  (Str "Jane")
                                  (TableQuery.where_ "age" (Some ">")
                                     (Number (Finite 25)) g)))
              _ "age > 25 OR name = 'Jane'" eq_refl eq_refl)
    as (q' & R & _ & _ & text & _).
  exists q'. split; [exact R|]. exact (text EmptyString eq_refl).
Defined.

(** X7, on [whereBetween('age', [20, 30])]. *)
Lemma whereBetween_reads_two_bounds_witness :
  exists q',
    TableQuery.whereBetween "age"
      (Array [Number (Finite 20); Number (Finite 30)]) Sample.users
    = Return q'
    /\ TableQuery.buildConditions q' = Return "age BETWEEN 20 AND 30".
Proof.
  destruct (whereBetween_reads_two_bounds Sample.driver Sample.users "age"
              (Number (Finite 20)) (Number (Finite 30)) [])
    as (two & _).
  destruct two as (pushed & text); [discriminate | discriminate |].
  eexists. split; [exact pushed|].
  exact (text EmptyString eq_refl).
Defined.

(* ===================================================================== *)
(** ** The pool behind [#get_response], and the calls that use it *)
(* ===================================================================== *)

Lemma bad_db_code_match {A : Type} (c : option string) (a b : A) :
  match c with
  | Some "ER_BAD_DB_ERROR" => a
  | _ => b
  end
  = if match c with
       | Some s => s =? "ER_BAD_DB_ERROR"
       | None => false
       end
    then a else b.
Proof.
  destruct c as [s|]; [|reflexivity].
  repeat (destruct s as [|[[] [] [] [] [] [] [] []] s]; try reflexivity).
Qed.

Section Recovery.

Variable drv : Driver.
Implicit Types m : Machine drv.

(** X9. With a pool in place, [#get_response] hands the statement to the
    pool. An answer comes back as it is and the pool is kept. An error
    whose code is not [ER_BAD_DB_ERROR] is thrown as it is and the pool is
    kept. On [ER_BAD_DB_ERROR], when ending the pool, creating one without
    a database, [CREATE DATABASE], ending that one and creating the pool
    anew all succeed, the statement is run once more on the new pool, its
    outcome is the outcome of the call whatever it is, and the new pool
    replaces the old one. *)
Theorem get_response_retries_once :
  forall (pool : Pool drv) (sql : string) m,
    let log := (dispatched m ++ [sql])%list in
    (forall result w,
        query drv pool sql (world m) = (Return result, w) ->
        get_response drv (Some pool) sql m
        = (Return result, Some pool, Build_Machine drv w log))
    /\ (forall e w,
           query drv pool sql (world m) = (Throw e, w) ->
           Js.code e <> Some "ER_BAD_DB_ERROR" ->
           get_response drv (Some pool) sql m
           = (Throw e, Some pool, Build_Machine drv w log))
    /\ (forall e w1 w2 aux w3 made w4 w5 pool' w6,
           query drv pool sql (world m) = (Throw e, w1) ->
           Js.code e = Some "ER_BAD_DB_ERROR" ->
           pool_end drv pool w1 = (Return tt, w2) ->
           createPool drv false w2 = (Return aux, w3) ->
           query drv aux
                 ("CREATE DATABASE `" ++ toString (MYSQL_DATABASE drv) ++ "`")
                 w3 = (Return made, w4) ->
           pool_end drv aux w4 = (Return tt, w5) ->
           createPool drv true w5 = (Return pool', w6) ->
           get_response drv (Some pool) sql m
           = (fst (query drv pool' sql w6), Some pool',
              Build_Machine drv (snd (query drv pool' sql w6)) log)).
Proof.
  intros pool sql m log. unfold get_response. fold log.
  repeat match goal with |- _ /\ _ => split end.
  - intros result w H. now rewrite H.
  - intros e w H C. rewrite H, bad_db_code_match.
    destruct (Js.code e) as [s|]; [|reflexivity].
    destruct (String.eqb_spec s "ER_BAD_DB_ERROR") as [->|_];
      [now contradiction C | reflexivity].
  - intros e w1 w2 aux w3 made w4 w5 pool' w6 H C E1 P1 Q E2 P2.
    rewrite H, bad_db_code_match, C. cbn [String.eqb].
    change ("ER_BAD_DB_ERROR" =? "ER_BAD_DB_ERROR") with true. cbn iota.
    rewrite E1, P1, Q, E2, P2.
    destruct (query drv pool' sql w6) as [r w7]. reflexivity.
Qed.

End Recovery.

(** X9, on the pool whose database is missing: the statement fails, the
    database is created, and the second run answers. *)
Lemma get_response_retries_once_witness :
  get_response Recovering.driver (Some tt) "SELECT 1" Recovering.machine
  = (Return (Array []), Some tt,
     Build_Machine Recovering.driver true ["SELECT 1"]).
Proof.
  destruct (get_response_retries_once Recovering.driver tt "SELECT 1"
              Recovering.machine) as (_ & _ & retry).
  exact (retry (Error_ (Some "ER_BAD_DB_ERROR") "Unknown database 'app'")
               false false tt false
               (Object [("affectedRows", Number (Finite 1))])
               true true tt true
               eq_refl eq_refl eq_refl eq_refl eq_refl eq_refl eq_refl).
Defined.

Section Terminals.

Variable drv : Driver.
Implicit Types q : TableQuery.t drv.
Implicit Types m : Machine drv.

(** X10. [first] is [get] followed by [result[0] || null]: it compiles and
    dispatches as [get] does, throws when [get] throws, and of an array it
    gives the first row, or [null] when there is none; what it returns is
    never [undefined]. *)
Theorem first_is_get_then_head :
  forall q m,
    TableQuery.first drv q m
    = match TableQuery.get drv q m with
      | (Return result, q', m') => (TableQuery.first_or_null result, q', m')
      | (Throw e, q', m') => (Throw e, q', m')
      end
    /\ TableQuery.first_or_null (Array []) = Return Null
    /\ (forall row rows,
           truthy row = true ->
           TableQuery.first_or_null (Array (row :: rows)) = Return row)
    /\ (forall result r,
           TableQuery.first_or_null result = Return r -> r <> Undefined).
Proof.
  intros q m. repeat match goal with |- _ /\ _ => split end.
  - unfold TableQuery.first, TableQuery.get, bind, eval.
    destruct (TableQuery.buildQuery true q) as [sql|e]; [|reflexivity].
    destruct (TableQuery.get_response_ drv sql q m) as [[[r|e] q'] m'];
      reflexivity.
  - reflexivity.
  - intros row rows T. unfold TableQuery.first_or_null. cbn. now rewrite T.
  - intros result r. unfold TableQuery.first_or_null.
    destruct (index0 result) as [r0|e]; [|discriminate].
    destruct (truthy r0) eqn:T; intros H; injection H as <-;
      [|discriminate].
    intros ->. discriminate T.
Qed.

(** X11. [find] leaves its equality on the builder, under the pending
    combinator and with the pending combinator reset, whatever the outcome
    of the call; the column is [id] when none is given. A second [find] on
    the same builder therefore filters on both values. When [find]
    returns, the one statement dispatched is [buildQuery] of the builder
    it leaves. *)
Theorem find_leaves_its_condition :
  forall (value : Js.value) (column : option string) q m,
    let name := match column with None => "id" | Some c => c end in
    let out := TableQuery.find drv value column q m in
    TableQuery.conditions (snd (fst out))
    = (TableQuery.conditions q
       ++ [Condition.make (Some name) (Some "=") value Undefined
                          (TableQuery.nextType q) false])%list
    /\ TableQuery.nextType (snd (fst out)) = "AND"
    /\ (forall r,
           fst (fst out) = Return r ->
           exists look,
             TableQuery.buildQuery true (snd (fst out)) = Return look
             /\ dispatched (snd out) = (dispatched m ++ [look])%list).
Proof.
  intros value column q m name out. subst out.
  unfold TableQuery.find, bind, eval, mutate, TableQuery.get_response_.
  fold name.
  set (q1 := TableQuery.where_ name (Some "=") value q).
  destruct (TableQuery.buildQuery true q1) as [look|e] eqn:B.
  - destruct (get_response drv (TableQuery.conection q1) look m)
      as [[[result|e] c] m1] eqn:G; cbn [fst snd].
    + repeat split. intros r _. exists look. split.
      * rewrite <- B. apply buildQuery_same_clauses;
          [repeat split | reflexivity].
      * now destruct (get_response_Return drv _ _ _ _ _ _ G).
    + repeat split. intros r H. discriminate H.
  - cbn [fst snd]. repeat split. intros r H. discriminate H.
Qed.

(** X12. [create] checks every field before anything is dispatched: with a
    field whose name or type is empty it throws and the machine is
    untouched, wherever the field stands in the list. Otherwise it hands
    one statement to [#get_response], [CREATE TABLE IF NOT EXISTS] with
    one definition per field, separated by a comma and a space, and gives
    [true] when that call returns. *)
Theorem create_checks_fields_first :
  forall (fields : list Field.t) q m,
    let invalid := fun f : Field.t =>
                     ((Field.name f =? EmptyString)
                      || (Field.type f =? EmptyString))%bool in
    (existsb invalid fields = true ->
     TableQuery.create drv fields q m
     = (Throw (Error "Cada campo debe tener un nombre y un tipo."), q, m))
    /\ (existsb invalid fields = false ->
        exists defs,
          map_throwing Ddl.create_fieldDefinition fields = Return defs
          /\ List.length defs = List.length fields
          /\ TableQuery.create drv fields q m
             = match TableQuery.get_response_ drv
                       ("CREATE TABLE IF NOT EXISTS `"
                        ++ TableQuery.tableName q ++ "` ("
                        ++ String.concat ", " defs ++ ")") q m with
               | (Return _, q', m') => (Return true, q', m')
               | (Throw e, q', m') => (Throw e, q', m')
               end).
Proof.
  intros fields q m invalid.
  assert (V : forall f, invalid f = false ->
                        exists d, Ddl.create_fieldDefinition f = Return d).
  { intros f H. unfold Ddl.create_fieldDefinition. subst invalid.
    cbn in H |- *. apply orb_false_iff in H. destruct H as (Hn & Ht).
    rewrite Hn, Ht. cbn. eauto. }
  assert (I : forall f, invalid f = true ->
                        Ddl.create_fieldDefinition f
                        = Throw (Error
                            "Cada campo debe tener un nombre y un tipo.")).
  { intros f H. unfold Ddl.create_fieldDefinition. subst invalid.
    cbn in H |- *. apply orb_true_iff in H.
    destruct H as [H|H]; rewrite H; [reflexivity|].
    now rewrite orb_true_r. }
  split.
  - intros E. unfold TableQuery.create, bind, eval.
    assert (T : map_throwing Ddl.create_fieldDefinition fields
                = Throw (Error
                    "Cada campo debe tener un nombre y un tipo.")).
    { induction fields as [|f fields IH]; [discriminate E|].
      cbn in E |- *. destruct (invalid f) eqn:F.
      - now rewrite (I f F).
      - destruct (V f F) as (d & ->). cbn in E. now rewrite (IH E). }
    now rewrite T.
  - intros E.
    assert (T : exists defs,
               map_throwing Ddl.create_fieldDefinition fields = Return defs
               /\ List.length defs = List.length fields).
    { induction fields as [|f fields IH]; [exists []; now split|].
      cbn in E. apply orb_false_iff in E. destruct E as (F & E).
      destruct (V f F) as (d & D). destruct (IH E) as (ds & Ds & L).
      exists (d :: ds). cbn. rewrite D, Ds, L. now split. }
    destruct T as (defs & T & L). exists defs.
    split; [exact T|]. split; [exact L|].
    unfold TableQuery.create, bind, eval, ret. rewrite T.
    rewrite !append_assoc.
    destruct (TableQuery.get_response_ drv _ q m) as [[[r|e] q'] m'];
      reflexivity.
Qed.

(** X13. [drop] hands [DROP TABLE IF EXISTS `table`] to [#get_response]
    and gives [true] when that call returns; whatever that call throws
    comes out as a new error, without a code, whose message is [Error al
    eliminar la tabla: ] followed by the message thrown. *)
Theorem drop_wraps_errors :
  forall q m,
    match TableQuery.drop drv q m with
    | (Return b, q', m') =>
        b = true
        /\ dispatched m'
           = (dispatched m
              ++ [("DROP TABLE IF EXISTS `" ++ TableQuery.tableName q
                   ++ "`")%string])%list
    | (Throw e, q', m') =>
        exists thrown,
          fst (fst (TableQuery.get_response_ drv
                      ("DROP TABLE IF EXISTS `" ++ TableQuery.tableName q
                       ++ "`") q m)) = Throw thrown
          /\ e = Error_ None ("Error al eliminar la tabla: "
                              ++ Js.message thrown)
    end.
Proof.
  intros q m.
  unfold TableQuery.drop, try_catch, bind, eval, ret, throw,
    TableQuery.get_response_.
  destruct (get_response drv (TableQuery.conection q)
              ("DROP TABLE IF EXISTS `" ++ TableQuery.tableName q ++ "`") m)
    as [[[r|e] c] m1] eqn:G; cbn [fst].
  - split; [reflexivity|].
    now destruct (get_response_Return drv _ _ _ _ _ _ G).
  - exists e. split; reflexivity.
Qed.

(** X14. [update] refuses, with nothing dispatched and on any builder, a
    patch whose [typeof] is not [object] and a patch that is an array;
    [null] passes that test and makes [Object.keys] throw a [TypeError],
    again with nothing dispatched. *)
Theorem update_refuses_what_is_not_an_object :
  forall (data : Js.value) q m,
    ((typeof data =? "object") = false \/ isArray data = true ->
     TableQuery.update drv data q m
     = (Throw (Error
          "El método update requiere un objeto con pares clave-valor."),
        q, m))
    /\ TableQuery.update drv Null q m
       = (Throw (TypeError "Cannot convert undefined or null to object"),
          q, m).
Proof.
  intros data q m. split; [|reflexivity].
  intros [H|H]; unfold TableQuery.update; rewrite H;
    [reflexivity | now rewrite orb_true_r].
Qed.

End Terminals.

(** X12, on [create([{name: 'id', type: 'INT', options: ['primary',
    'autoincrement']}, {name: 'name', type: 'VARCHAR', length: 255}])]. *)
Lemma create_checks_fields_first_witness :
  TableQuery.create Sample.driver
    [Field.make "id" "INT" Undefined None
                (Some ["primary"; "autoincrement"]) None;
     Field.make "name" "VARCHAR" Undefined (Some (Finite 255)) None None]
    Sample.users Sample.machine
  = (Return true, Sample.users,
     Build_Machine Sample.driver 0
       ["CREATE TABLE IF NOT EXISTS `users` (`id` INT PRIMARY KEY AUTO_INCREMENT, `name` VARCHAR(255))"])
  /\ TableQuery.create Sample.driver
       [Field.make "id" "INT" Undefined None None None;
        Field.make EmptyString "INT" Undefined None None None]
       Sample.users Sample.machine
     = (Throw (Error "Cada campo debe tener un nombre y un tipo."),
        Sample.users, Sample.machine).
Proof.
  split.
  - destruct (create_checks_fields_first Sample.driver
                [Field.make "id" "INT" Undefined None
                            (Some ["primary"; "autoincrement"]) None;
                 Field.make "name" "VARCHAR" Undefined (Some (Finite 255))
                            None None]
                Sample.users Sample.machine) as (_ & valid).
    destruct (valid eq_refl) as (defs & D & _ & C).
    injection D as <-. exact C.
  - destruct (create_checks_fields_first Sample.driver
                [Field.make "id" "INT" Undefined None None None;
                 Field.make EmptyString "INT" Undefined None None None]
                Sample.users Sample.machine) as (invalid & _).
    exact (invalid eq_refl).
Defined.

(** X14, on [update('Bob')] and [update(['Bob'])]. *)
Lemma update_refuses_what_is_not_an_object_witness :
  TableQuery.update Sample.driver (Str "Bob") Sample.users Sample.machine
  = (Throw (Error
       "El método update requiere un objeto con pares clave-valor."),
     Sample.users, Sample.machine)
  /\ TableQuery.update Sample.driver (Array [Str "Bob"]) Sample.users
                       Sample.machine
     = (Throw (Error
          "El método update requiere un objeto con pares clave-valor."),
        Sample.users, Sample.machine).
Proof.
  split.
  - destruct (update_refuses_what_is_not_an_object Sample.driver (Str "Bob")
                Sample.users Sample.machine) as (refused & _).
    apply refused. left. reflexivity.
  - destruct (update_refuses_what_is_not_an_object Sample.driver
                (Array [Str "Bob"]) Sample.users Sample.machine)
      as (refused & _).
    apply refused. right. reflexivity.
Defined.

Section InsertFailure.

Variable drv : Driver.
Implicit Types q : TableQuery.t drv.
Implicit Types m : Machine drv.

(** [#get_response] adds at most the statement to what was dispatched. *)
Lemma get_response_adds (c : option (Pool drv)) (sql : string) m :
  exists more,
    dispatched (snd (get_response drv c sql m)) = (dispatched m ++ more)%list
    /\ List.length more <= 1.
Proof.
  destruct c as [pool|].
  - destruct (get_response_dispatched drv pool sql m) as (D & _).
    exists [sql]. split; [exact D | reflexivity].
  - exists []. split; [now rewrite app_nil_r | cbn; lia].
Qed.

(** One iteration of the loop of [insert], however it ends, adds at most
    its two statements to what was dispatched and at most its one equality
    to the conditions of the builder. *)
Lemma insert_row_adds (row : Js.value) q m :
  (exists more,
      dispatched (snd (TableQuery.insert_row drv row q m))
      = (dispatched m ++ more)%list
      /\ List.length more <= 2)
  /\ (exists more,
         TableQuery.conditions (snd (fst (TableQuery.insert_row drv row q m)))
         = (TableQuery.conditions q ++ more)%list
         /\ List.length more <= 1).
Proof.
  assert (Same : forall (A : Type) (l : list A),
             exists more, l = (l ++ more)%list /\ List.length more <= 2)
    by (intros A l; exists []; split; [now rewrite app_nil_r | cbn; lia]).
  assert (Same1 : forall (A : Type) (l : list A),
             exists more, l = (l ++ more)%list /\ List.length more <= 1)
    by (intros A l; exists []; split; [now rewrite app_nil_r | cbn; lia]).
  assert (One : forall (A : Type) (l : list A) (x : A),
             exists more, (l ++ [x])%list = (l ++ more)%list
                          /\ List.length more <= 1)
    by (intros A l x; exists [x]; split; [reflexivity | cbn; lia]).
  unfold TableQuery.insert_row, TableQuery.first, bind, eval, mutate,
    TableQuery.get_response_.
  destruct (TableQuery.insert_sql (TableQuery.tableName q) row) as [ins|e];
    [|split; [apply Same | apply Same1]].
  destruct (get_response_adds (TableQuery.conection q) ins m)
    as (d1 & D1 & L1).
  destruct (get_response drv (TableQuery.conection q) ins m)
    as [[[result|e] c1] m1]; cbn [fst snd] in *;
    [|split; [exists d1; split; [exact D1 | lia] | apply Same1]].
  destruct (TableQuery.insertId_or_0 result) as [id|e];
    [|split; [exists d1; split; [exact D1 | lia] | apply Same1]].
  destruct (TableQuery.buildQuery true
              (TableQuery.where_ "id" (Some "=") id
                 (TableQuery.set_conection c1 q))) as [look|e];
    [|split; [exists d1; split; [exact D1 | lia] | apply One]].
  cbn [TableQuery.conection TableQuery.where_ TableQuery.set_nextType
       TableQuery.push_condition TableQuery.set_conditions
       TableQuery.set_conection].
  destruct (get_response_adds c1 look m1) as (d2 & D2 & L2).
  assert (Two : exists more,
             dispatched (snd (get_response drv c1 look m1))
             = (dispatched m ++ more)%list /\ List.length more <= 2).
  { exists (d1 ++ d2)%list. rewrite D2, D1, <- app_assoc.
    split; [reflexivity | rewrite length_app; lia]. }
  destruct (get_response drv c1 look m1) as [[[rows|e] c2] m2];
    cbn [fst snd] in *; [|split; [exact Two | apply One]].
  destruct (TableQuery.first_or_null rows);
    cbn [fst snd]; (split; [exact Two | apply One]).
Qed.

(** When the loop of [insert] throws, the rows before one of them went
    through the loop, and the iteration on that one threw. *)
Lemma insert_loop_Throw (items : list Js.value) :
  forall (acc : list Js.value) q m (thrown : Js.error) q' m',
    TableQuery.insert_loop drv items acc q m = (Throw thrown, q', m') ->
    exists k results q_k m_k,
      k < List.length items
      /\ TableQuery.insert_loop drv (firstn k items) acc q m
         = (Return results, q_k, m_k)
      /\ TableQuery.insert_row drv (nth k items Undefined) q_k m_k
         = (Throw thrown, q', m').
Proof.
  induction items as [|row rest IH]; intros acc q m thrown q' m' H.
  - discriminate H.
  - cbn [TableQuery.insert_loop] in H. unfold bind in H.
    destruct (TableQuery.insert_row drv row q m) as [[[r|e] q1] m1] eqn:R.
    + apply IH in H.
      destruct H as (k & results & q_k & m_k & K & L & T).
      exists (S k), results, q_k, m_k.
      split; [cbn; lia|]. split; [|exact T].
      cbn [firstn TableQuery.insert_loop]. unfold bind. now rewrite R.
    + injection H as <- <- <-.
      exists 0, acc, q, m.
      split; [cbn; lia|]. split; [reflexivity | exact R].
Qed.

Lemma forallb_firstn {A : Type} (f : A -> bool) (k : nat) (l : list A) :
  forallb f l = true -> forallb f (firstn k l) = true.
Proof.
  revert k. induction l as [|x l IH]; intros k H.
  - now destruct k.
  - destruct k as [|k]; [reflexivity|].
    cbn in H |- *. apply andb_true_iff in H. destruct H as (Hx & Hl).
    now rewrite Hx, (IH k Hl).
Qed.

(** X15. When [insert], on an array of objects, throws, the error is a new
    one, without a code, whose message is [Error al insertar los datos: ]
    followed by the message of what was thrown inside the loop. Nothing of
    what the loop did before is undone: the rows before the one that
    failed, [k] of them, are inserted and looked up as by an [insert] of
    those rows alone, which returns; their statements stay dispatched and
    their equalities on [id] stay on the builder; and the iteration that
    threw starts from there, adding at most its own two statements and
    its own equality. *)
Theorem insert_failure_keeps_what_was_done :
  forall (items : list Js.value) q m (e : Js.error) q' m',
    forallb TableQuery.is_object items = true ->
    TableQuery.insert drv (Array items) q m = (Throw e, q', m') ->
    exists (k : nat) (steps : list InsertStep) q_k m_k (thrown : Js.error),
      k < List.length items
      /\ List.length steps = k
      /\ TableQuery.insert drv (Array (firstn k items)) q m
         = (Return (map step_row steps), q_k, m_k)
      /\ dispatched m_k = (dispatched m ++ statements steps)%list
      /\ TableQuery.conditions q_k
         = (TableQuery.conditions q
            ++ id_conditions (TableQuery.nextType q)
                             (map step_id steps))%list
      /\ TableQuery.insert_row drv (nth k items Undefined) q_k m_k
         = (Throw thrown, q', m')
      /\ e = Error_ None ("Error al insertar los datos: "
                          ++ Js.message thrown)
      /\ (exists more,
             dispatched m'
             = (dispatched m ++ statements steps ++ more)%list
             /\ List.length more <= 2)
      /\ (exists more,
             TableQuery.conditions q'
             = (TableQuery.conditions q
                ++ id_conditions (TableQuery.nextType q) (map step_id steps)
                ++ more)%list
             /\ List.length more <= 1).
Proof.
  intros items q m e q' m' O H.
  unfold TableQuery.insert, try_catch, throw in H. rewrite O in H.
  cbn [negb] in H.
  destruct (TableQuery.insert_loop drv items [] q m)
    as [[[r|thrown] q1] m1] eqn:L; [discriminate H|].
  injection H as <- <- <-.
  apply insert_loop_Throw in L.
  destruct L as (k & results & q_k & m_k & K & Done & Failed).
  pose proof Done as Inv. apply insert_loop_inv in Inv.
  destruct Inv as (steps & F & Hr & Hc & _ & Hd & _).
  cbn [app] in Hr. subst results.
  exists k, steps, q_k, m_k, thrown.
  destruct (insert_row_adds (nth k items Undefined) q_k m_k)
    as ((d & D & Ld) & (c & C & Lc)).
  rewrite Failed in D, C. cbn [fst snd] in D, C.
  repeat match goal with |- _ /\ _ => split end.
  - exact K.
  - rewrite <- (Forall2_length F), length_firstn. lia.
  - unfold TableQuery.insert, try_catch.
    rewrite (forallb_firstn _ k items O). cbn [negb]. now rewrite Done.
  - exact Hd.
  - exact Hc.
  - exact Failed.
  - reflexivity.
  - exists d. split; [|exact Ld]. now rewrite D, Hd, <- app_assoc.
  - exists c. split; [|exact Lc]. now rewrite C, Hc, <- app_assoc.
Qed.

End InsertFailure.

(** X15, on [insert([{name: 'Alice'}, {name: null}])] over the table whose
    [name] may not be [NULL]: the first row is in, as by an [insert] of it
    alone, its two statements stay dispatched before the INSERT that
    failed, and the iteration on the second row threw from there. *)
Lemma insert_failure_keeps_what_was_done_witness :
  exists q' m',
    TableQuery.insert Stored.driver
      (Array [Object [("name", Str "Alice")]; Object [("name", Null)]])
      Stored.users Stored.machine
    = (Throw (Error
         "Error al insertar los datos: Column 'name' cannot be null"),
       q', m')
    /\ world m' = 1
    /\ dispatched m'
       = ["INSERT INTO `users` (`name`) VALUES ('Alice')";
          "SELECT * FROM `users` WHERE id = 1";
          "INSERT INTO `users` (`name`) VALUES (NULL)"]
    /\ exists steps q_k m_k thrown,
        List.length steps = 1
        /\ TableQuery.insert Stored.driver
             (Array [Object [("name", Str "Alice")]])
             Stored.users Stored.machine
           = (Return (map step_row steps), q_k, m_k)
        /\ TableQuery.insert_row Stored.driver (Object [("name", Null)])
                                 q_k m_k
           = (Throw thrown, q', m').
Proof.
  eexists. eexists. split; [vm_compute; reflexivity|].
  split; [reflexivity|]. split; [reflexivity|].
  match goal with
  | |- exists steps q_k m_k thrown, _ /\ _ /\ _ = (_, ?q', ?m') =>
      destruct (insert_failure_keeps_what_was_done Stored.driver
                  [Object [("name", Str "Alice")]; Object [("name", Null)]]
                  Stored.users Stored.machine _ q' m' eq_refl eq_refl)
        as (k & steps & q_k & m_k & thrown & K & Len & Done & _ & _ & Failed
            & _)
  end.
  destruct k as [|[|k]].
  - exfalso. cbn in Done. injection Done as _ <- <-.
    vm_compute in Failed. discriminate Failed.
  - exists steps, q_k, m_k, thrown.
    split; [exact Len|]. split; [exact Done | exact Failed].
  - exfalso. cbn in K. lia.
Defined.

(* ===================================================================== *)
(** ** Column definitions *)
(* ===================================================================== *)

Lemma includes_In (xs : list string) (x : string) :
  includes xs x = true <-> In x xs.
Proof.
  unfold includes. rewrite existsb_exists. split.
  - intros (y & I & E). apply String.eqb_eq in E. now subst y.
  - intros I. exists x. split; [exact I | apply String.eqb_refl].
Qed.

Lemma includes_same_members (xs ys : list string) (x : string) :
  (forall o, In o xs <-> In o ys) -> includes xs x = includes ys x.
Proof.
  intros H. destruct (includes ys x) eqn:Y.
  - apply includes_In. apply H. now apply includes_In.
  - destruct (includes xs x) eqn:X; [|reflexivity].
    apply includes_In, H, includes_In in X. congruence.
Qed.

Lemma includes_as (xs : list string) (x : string) (b : bool) :
  (b = true <-> In x xs) -> includes xs x = b.
Proof.
  intros H. destruct b.
  - apply includes_In. now apply H.
  - destruct (includes xs x) eqn:I; [|reflexivity].
    apply includes_In, H in I. discriminate I.
Qed.

(** X16. Of the options of a field only the membership of [primary],
    [autoincrement] and [unique] is read, and the suffixes come in one
    order, [ PRIMARY KEY], then [ AUTO_INCREMENT], then [ UNIQUE], each
    once, whatever the order of the options and however often one is
    given: with all three among the options the suffix is [ PRIMARY KEY
    AUTO_INCREMENT UNIQUE], two option lists with the same members give
    the same text, and the empty list and no list give no suffix. *)
Theorem options_suffix_reads_membership :
  forall (opts : list string),
    (forall primary autoincrement unique : bool,
        (primary = true <-> In "primary" opts) ->
        (autoincrement = true <-> In "autoincrement" opts) ->
        (unique = true <-> In "unique" opts) ->
        Ddl.options_suffix (Some opts)
        = (if primary then " PRIMARY KEY" else EmptyString)
          ++ (if autoincrement then " AUTO_INCREMENT" else EmptyString)
          ++ (if unique then " UNIQUE" else EmptyString))
    /\ (In "primary" opts -> In "autoincrement" opts -> In "unique" opts ->
        Ddl.options_suffix (Some opts)
        = " PRIMARY KEY AUTO_INCREMENT UNIQUE")
    /\ (forall opts',
           (forall o, In o opts <-> In o opts') ->
           Ddl.options_suffix (Some opts) = Ddl.options_suffix (Some opts'))
    /\ Ddl.options_suffix (Some []) = EmptyString
    /\ Ddl.options_suffix None = EmptyString.
Proof.
  intros opts.
  assert (Rule : forall primary autoincrement unique : bool,
             (primary = true <-> In "primary" opts) ->
             (autoincrement = true <-> In "autoincrement" opts) ->
             (unique = true <-> In "unique" opts) ->
             Ddl.options_suffix (Some opts)
             = (if primary then " PRIMARY KEY" else EmptyString)
               ++ (if autoincrement then " AUTO_INCREMENT" else EmptyString)
               ++ (if unique then " UNIQUE" else EmptyString)).
  { intros p a u P A U. unfold Ddl.options_suffix.
    now rewrite (includes_as opts _ p P), (includes_as opts _ a A),
      (includes_as opts _ u U). }
  repeat match goal with |- _ /\ _ => split end.
  - exact Rule.
  - intros P A U. apply (Rule true true true); tauto.
  - intros opts' H. unfold Ddl.options_suffix.
    now rewrite !(includes_same_members opts opts' _ H).
  - reflexivity.
  - reflexivity.
Qed.

(** X16, on [['unique', 'primary', 'unique']]: [ PRIMARY KEY UNIQUE]. *)
Lemma options_suffix_reads_membership_witness :
  Ddl.options_suffix (Some ["unique"; "primary"; "unique"])
  = " PRIMARY KEY UNIQUE".
Proof.
  destruct (options_suffix_reads_membership ["unique"; "primary"; "unique"])
    as (rule & _).
  apply (rule true false true); cbn; split; intros H;
    try reflexivity; try discriminate H; try tauto;
    repeat (destruct H as [H|H]; try discriminate H); contradiction.
Defined.

(** X17. [Columns.edit] of a field given without [defaultValue] always
    modifies the column when the live default is anything but [undefined]
    ([SHOW COLUMNS] gives a string or [null]): the comparison [!==] of the
    live default with [undefined] holds, whatever the type and the options,
    and the statement carries [ DEFAULT NULL]. *)
Theorem edit_without_default_always_modifies :
  forall (existing : ColumnMeta.t) (field : Field.t) (tableName : string),
    Field.defaultValue field = Undefined ->
    ColumnMeta.defaultValue existing <> Undefined ->
    Ddl.edit_differs existing field = true
    /\ Ddl.edit_default existing (Field.type field) (Field.defaultValue field)
       = " DEFAULT NULL"
    /\ Ddl.edit_modifyQuery tableName existing field
       = "ALTER TABLE `" ++ tableName ++ "` MODIFY COLUMN `"
         ++ Field.name field ++ "` " ++ Ddl.fullType field ++ " DEFAULT NULL"
         ++ Ddl.options_suffix (Field.options field)
         ++ Ddl.foreing_suffix (Field.name field) (Field.foreing field).
Proof.
  intros existing field tableName U L.
  assert (S : strict_eq (ColumnMeta.defaultValue existing) Undefined = false)
    by now apply strict_eq_Undefined.
  assert (D : Ddl.edit_default existing (Field.type field)
                               (Field.defaultValue field) = " DEFAULT NULL").
  { unfold Ddl.edit_default, Ddl.default_branches. rewrite U, S.
    destruct (Ddl.includes_lower (Field.type field)); reflexivity. }
  repeat match goal with |- _ /\ _ => split end.
  - unfold Ddl.edit_differs. rewrite U, S. cbn.
    now rewrite orb_true_r.
  - exact D.
  - unfold Ddl.edit_modifyQuery. now rewrite D.
Qed.

(** X17, on the column [id int] with no default, edited as [{name: 'id',
    type: 'int', options: ['primary', 'autoincrement']}]: nothing differs
    but the default against [undefined]. *)
Lemma edit_without_default_always_modifies_witness :
  Ddl.edit_modifyQuery "users"
    (ColumnMeta.make (Str "int") Null (Str "PRI") (Str "auto_increment"))
    (Field.make "id" "int" Undefined None
                (Some ["primary"; "autoincrement"]) None)
  = "ALTER TABLE `users` MODIFY COLUMN `id` int DEFAULT NULL PRIMARY KEY AUTO_INCREMENT".
Proof.
  destruct (edit_without_default_always_modifies
              (ColumnMeta.make (Str "int") Null (Str "PRI")
                               (Str "auto_increment"))
              (Field.make "id" "int" Undefined None
                          (Some ["primary"; "autoincrement"]) None)
              "users" eq_refl) as (_ & _ & text); [discriminate|].
  exact text.
Defined.

(* ===================================================================== *)
(** ** [Columns] *)
(* ===================================================================== *)

Arguments Columns.conection {drv}.
Arguments Columns.tableName {drv}.
Arguments Columns.set_conection {drv}.

Lemma current_assign (key name : string) (meta : ColumnMeta.t)
      (acc : Columns.CurrentFields) :
  Columns.current name (Columns.assign key meta acc)
  = if key =? name then Some meta else Columns.current name acc.
Proof.
  induction acc as [|[k old] acc IH]; cbn.
  - reflexivity.
  - destruct (String.eqb_spec k key) as [->|N]; cbn.
    + destruct (key =? name); reflexivity.
    + rewrite IH. destruct (String.eqb_spec k name) as [->|_];
        [|reflexivity].
      destruct (String.eqb_spec key name) as [->|_];
        [now contradiction N | reflexivity].
Qed.

(** What [reduce_step] stores for a row under the name of the row. *)
Lemma reduce_step_inv (acc acc' : Columns.CurrentFields) (row : Js.value) :
  Columns.reduce_step acc row = Return acc' ->
  exists f ty d k x,
    member row "Field" = Return f /\ member row "Type" = Return ty
    /\ member row "Default" = Return d /\ member row "Key" = Return k
    /\ member row "Extra" = Return x
    /\ acc' = Columns.assign (toString f) (ColumnMeta.make ty d k x) acc.
Proof.
  unfold Columns.reduce_step.
  destruct (member row "Field") as [f|e]; [|discriminate].
  destruct (member row "Type") as [ty|e]; [|discriminate].
  destruct (member row "Default") as [d|e]; [|discriminate].
  destruct (member row "Key") as [k|e]; [|discriminate].
  destruct (member row "Extra") as [x|e]; [|discriminate].
  intros H. injection H as <-. exists f, ty, d, k, x. repeat split.
Qed.

Lemma reduce_lists (rows : list Js.value) :
  forall acc0 acc,
    Columns.reduce rows acc0 = Return acc ->
    (forall name meta,
        Columns.current name acc = Some meta ->
        Columns.current name acc0 = Some meta
        \/ exists row, In row rows /\ read_off row name meta)
    /\ (forall name,
           Columns.current name acc0 <> None ->
           Columns.current name acc <> None)
    /\ (forall row f,
           In row rows -> member row "Field" = Return f ->
           Columns.current (toString f) acc <> None).
Proof.
  induction rows as [|row rows IH]; intros acc0 acc H.
  - cbn in H. injection H as <-. repeat split; auto.
  - cbn in H. destruct (Columns.reduce_step acc0 row) as [acc1|e] eqn:S;
      [|discriminate H].
    apply reduce_step_inv in S.
    destruct S as (f & ty & d & k & x & Mf & Mt & Md & Mk & Mx & ->).
    destruct (IH _ _ H) as (A & B & C).
    repeat match goal with |- _ /\ _ => split end.
    + intros name meta Hc. destruct (A name meta Hc) as [Hc1|(r & I & R)].
      * rewrite current_assign in Hc1.
        destruct (String.eqb_spec (toString f) name) as [E|_];
          [|now left].
        injection Hc1 as <-. right. exists row. split; [now left|].
        exists f. repeat split; assumption.
      * right. exists r. split; [now right | exact R].
    + intros name N. apply B. rewrite current_assign.
      destruct (toString f =? name); [discriminate | exact N].
    + intros r g [<-|I] Mg.
      * apply B. rewrite current_assign.
        rewrite Mf in Mg. injection Mg as <-.
        now rewrite String.eqb_refl.
      * exact (C r g I Mg).
Qed.

Section ColumnsGet.

Variable drv : Driver.
Implicit Types c : Columns.t drv.
Implicit Types m : Machine drv.

Lemma columns_set_conection_same c :
  Columns.set_conection (Columns.conection c) c = c.
Proof. destruct c; reflexivity. Qed.

(** X18. [get] asks whether the table exists. Without a row in the answer
    it gives the empty object and that one statement is all it
    dispatched. With a row it asks for the columns and folds the rows
    listed into the object: two statements, in that order. In both cases
    the pool is kept. *)
Theorem columns_get_asks_then_lists :
  forall c m (pool : Pool drv) (tables : Js.value) (w : World drv),
    Columns.conection c = Some pool ->
    let exists_sql := "SHOW TABLES LIKE '" ++ Columns.tableName c ++ "'" in
    let columns_sql := "SHOW COLUMNS FROM `" ++ Columns.tableName c ++ "`" in
    query drv pool exists_sql (world m) = (Return tables, w) ->
    (Columns.has_rows tables = false ->
     Columns.get drv c m
     = (Return [], c,
        Build_Machine drv w (dispatched m ++ [exists_sql])%list))
    /\ (forall rows w',
           Columns.has_rows tables = true ->
           query drv pool columns_sql w = (Return (Array rows), w') ->
           Columns.get drv c m
           = (Columns.reduce rows [], c,
              Build_Machine drv w'
                (dispatched m ++ [exists_sql; columns_sql])%list)).
Proof.
  intros c m pool tables w P exists_sql columns_sql Q.
  unfold Columns.get, bind, eval, ret, Columns.get_response_, get_response.
  fold exists_sql columns_sql. rewrite P. cbn [Columns.tableName].
  fold exists_sql. rewrite Q. split.
  - intros H. rewrite H. rewrite <- P at 1.
    now rewrite columns_set_conection_same.
  - intros rows w' H Q'. rewrite H.
    cbn [Columns.conection Columns.set_conection Columns.tableName world
         dispatched].
    fold columns_sql. rewrite Q'. cbn [Columns.set_conection Columns.tableName].
    rewrite <- app_assoc. cbn [app].
    destruct c as [c0 t]. cbn in P. subst c0. reflexivity.
Qed.

(** X19. What [get] folds out of the rows has an entry for the name of
    every row, and every entry was read off a row of that name: its type,
    default, key and extra are the [Type], [Default], [Key] and [Extra] of
    that row. A name that no row carries has no entry. *)
Theorem columns_get_lists_the_rows :
  forall (rows : list Js.value) (fields : Columns.CurrentFields),
    Columns.reduce rows [] = Return fields ->
    (forall row f,
        In row rows -> member row "Field" = Return f ->
        Columns.current (toString f) fields <> None)
    /\ (forall name meta,
           Columns.current name fields = Some meta ->
           exists row, In row rows /\ read_off row name meta).
Proof.
  intros rows fields H. destruct (reduce_lists rows [] fields H) as (A & _ & C).
  split; [exact C|].
  intros name meta Hc. destruct (A name meta Hc) as [N|R];
    [discriminate N | exact R].
Qed.

End ColumnsGet.

(** X18, on a schema without the table, and on the schema with the columns
    [id] and [email]. *)
Lemma columns_get_asks_then_lists_witness :
  Columns.get Catalog.driver Catalog.users Catalog.empty_machine
  = (Return [], Catalog.users,
     Build_Machine Catalog.driver [] ["SHOW TABLES LIKE 'users'"])
  /\ fst (fst (Columns.get Catalog.driver Catalog.users Catalog.machine))
     = Return
         [("id", ColumnMeta.make (Str "int") Null (Str "PRI")
                                 (Str "auto_increment"));
          ("email", ColumnMeta.make (Str "varchar(255)") (Str "none")
                                    (Str EmptyString) (Str EmptyString))].
Proof.
  split.
  - destruct (columns_get_asks_then_lists Catalog.driver Catalog.users
                Catalog.empty_machine tt (Array []) [] eq_refl eq_refl)
      as (absent & _).
    exact (absent eq_refl).
  - destruct (columns_get_asks_then_lists Catalog.driver Catalog.users
                Catalog.machine tt
                (Array [Object [("Tables_in_app", Str "users")]])
                (world Catalog.machine) eq_refl eq_refl)
      as (_ & present).
    rewrite (present (world Catalog.machine) (world Catalog.machine)
                     eq_refl eq_refl).
    reflexivity.
Defined.

(** X19, on the two rows of the schema of the examples: [email] has the
    entry read off its row. *)
Lemma columns_get_lists_the_rows_witness :
  exists row,
    In row (world Catalog.machine)
    /\ read_off row "email"
                (ColumnMeta.make (Str "varchar(255)") (Str "none")
                                 (Str EmptyString) (Str EmptyString)).
Proof.
  destruct (columns_get_lists_the_rows (world Catalog.machine) _ eq_refl)
    as (_ & entries).
  exact (entries "email" _ eq_refl).
Defined.

Section ColumnsLoops.

Variable drv : Driver.
Implicit Types c : Columns.t drv.
Implicit Types m : Machine drv.

Lemma columns_get_response_Return (sql : string) c m (r : Js.value)
      (c' : Columns.t drv) (m' : Machine drv) :
  Columns.get_response_ drv sql c m = (Return r, c', m') ->
  dispatched m' = (dispatched m ++ [sql])%list
  /\ Columns.tableName c' = Columns.tableName c.
Proof.
  unfold Columns.get_response_.
  destruct (get_response drv (Columns.conection c) sql m)
    as [[r0 c0] m0] eqn:G.
  intros H. injection H as -> <- <-.
  split; [|reflexivity].
  now destruct (get_response_Return drv _ _ _ _ _ _ G).
Qed.

(** Whatever [get] does, it leaves the table name as it was. *)
Lemma columns_get_tableName c m :
  Columns.tableName (snd (fst (Columns.get drv c m))) = Columns.tableName c.
Proof.
  unfold Columns.get, bind, eval, ret, throw, Columns.get_response_.
  destruct (get_response drv (Columns.conection c) _ m) as [[[r|e] c0] m0];
    cbn [fst snd]; [|reflexivity].
  destruct (Columns.has_rows r); [|reflexivity].
  cbn [Columns.conection Columns.set_conection Columns.tableName].
  destruct (get_response drv c0 _ m0) as [[[r1|e] c1] m1];
    cbn [fst snd]; [|reflexivity].
  destruct r1; reflexivity.
Qed.

Lemma add_loop_dispatches (cur : Columns.CurrentFields)
      (fields : list Field.t) :
  forall c m,
    (add_statements (Columns.tableName c) cur fields = [] ->
     Columns.add_loop drv cur fields c m = (Return tt, c, m))
    /\ (forall r c' m',
           Columns.add_loop drv cur fields c m = (Return r, c', m') ->
           dispatched m'
           = (dispatched m
              ++ add_statements (Columns.tableName c) cur fields)%list).
Proof.
  induction fields as [|f fields IH]; intros c m.
  - split; [reflexivity|]. intros r c' m' H. injection H as <- <- <-.
    cbn. now rewrite app_nil_r.
  - cbn [Columns.add_loop add_statements flat_map].
    fold (add_statements (Columns.tableName c) cur fields).
    destruct (Columns.existing (Field.name f) cur) as [existing|].
    + exact (IH c m).
    + split; [intros H; discriminate H|].
      intros r c' m'. unfold bind, eval.
      destruct (Columns.get_response_ drv _ c m) as [[[r0|e] c0] m0] eqn:G;
        [|discriminate].
      apply columns_get_response_Return in G. destruct G as (D & T).
      intros H. apply (proj2 (IH c0 m0)) in H.
      rewrite H, D, T, <- app_assoc. reflexivity.
Qed.

Lemma edit_loop_dispatches (cur : Columns.CurrentFields)
      (fields : list Field.t) :
  forall c m,
    (edit_statements (Columns.tableName c) cur fields = [] ->
     Columns.edit_loop drv cur fields c m = (Return tt, c, m))
    /\ (forall r c' m',
           Columns.edit_loop drv cur fields c m = (Return r, c', m') ->
           dispatched m'
           = (dispatched m
              ++ edit_statements (Columns.tableName c) cur fields)%list).
Proof.
  induction fields as [|f fields IH]; intros c m.
  - split; [reflexivity|]. intros r c' m' H. injection H as <- <- <-.
    cbn. now rewrite app_nil_r.
  - cbn [Columns.edit_loop edit_statements flat_map].
    fold (edit_statements (Columns.tableName c) cur fields).
    destruct (Columns.existing (Field.name f) cur) as [existing|];
      [|exact (IH c m)].
    destruct (Ddl.edit_differs existing f); [|exact (IH c m)].
    split; [intros H; discriminate H|].
    intros r c' m'. unfold bind, eval.
    destruct (Columns.get_response_ drv _ c m) as [[[r0|e] c0] m0] eqn:G;
      [|discriminate].
    apply columns_get_response_Return in G. destruct G as (D & T).
    intros H. apply (proj2 (IH c0 m0)) in H.
    rewrite H, D, T, <- app_assoc. reflexivity.
Qed.

Lemma delete_loop_dispatches (cur : Columns.CurrentFields)
      (keys : list string) :
  forall c m,
    (delete_statements (Columns.tableName c) cur keys = [] ->
     Columns.delete_loop drv cur keys c m = (Return tt, c, m))
    /\ (forall r c' m',
           Columns.delete_loop drv cur keys c m = (Return r, c', m') ->
           dispatched m'
           = (dispatched m
              ++ delete_statements (Columns.tableName c) cur keys)%list).
Proof.
  induction keys as [|k keys IH]; intros c m.
  - split; [reflexivity|]. intros r c' m' H. injection H as <- <- <-.
    cbn. now rewrite app_nil_r.
  - cbn [Columns.delete_loop delete_statements flat_map].
    fold (delete_statements (Columns.tableName c) cur keys).
    destruct (Columns.existing k cur) as [existing|]; [|exact (IH c m)].
    split; [intros H; discriminate H|].
    intros r c' m'. unfold bind, eval.
    destruct (Columns.get_response_ drv _ c m) as [[[r0|e] c0] m0] eqn:G;
      [|discriminate].
    apply columns_get_response_Return in G. destruct G as (D & T).
    intros H. apply (proj2 (IH c0 m0)) in H.
    rewrite H, D, T, <- app_assoc. reflexivity.
Qed.

End ColumnsLoops.

(** What [currentFields[name]] finds: the entry of a column under its
    name; under a name of [Object.prototype] that is no column, a member
    of it, with none of the four properties; and, while no row is named
    [__proto__], nothing under any other name. *)
Lemma existing_stored (name : string) (cur : Columns.CurrentFields)
      (meta : ColumnMeta.t) :
  Columns.current name cur = Some meta ->
  Columns.existing name cur = Some meta.
Proof.
  intros H. unfold Columns.existing, Columns.read. now rewrite H.
Qed.

Lemma existing_builtin (name : string) (cur : Columns.CurrentFields) :
  In name Columns.object_prototype_names ->
  Columns.current name cur = None ->
  Columns.existing name cur = Some no_properties.
Proof.
  intros I H. unfold Columns.existing, Columns.read. rewrite H.
  assert (P : forall prototype,
             Columns.meta_property prototype name = None).
  { intros prototype. unfold Columns.object_prototype_names in I.
    repeat (destruct I as [<-|I]; [reflexivity|]). contradiction. }
  assert (B : includes Columns.object_prototype_names name = true)
    by now apply includes_In.
  destruct (Columns.current "__proto__" cur) as [prototype|];
    [rewrite P|]; now rewrite B.
Qed.

Lemma existing_missing (name : string) (cur : Columns.CurrentFields) :
  Columns.current name cur = None ->
  Columns.current "__proto__" cur = None ->
  ~ In name Columns.object_prototype_names ->
  Columns.existing name cur = None.
Proof.
  intros H P N. unfold Columns.existing, Columns.read. rewrite H, P.
  destruct (includes Columns.object_prototype_names name) eqn:B;
    [|reflexivity].
  apply includes_In in B. contradiction.
Qed.

Lemma strict_eq_Str (v : Js.value) (s : string) :
  strict_eq v (Str s) = true <-> v = Str s.
Proof.
  destruct v as [| |b|n|x|l|l]; cbn; try (split; discriminate).
  - destruct n; split; discriminate.
  - rewrite String.eqb_eq. split; [now intros -> | now intros [= ->]].
Qed.

Lemma asked_and_shown (asked : bool) (v : Js.value) (s : string) :
  (asked && negb (strict_eq v (Str s)))%bool = false <->
  (asked = true -> v = Str s).
Proof.
  rewrite <- strict_eq_Str.
  destruct asked, (strict_eq v (Str s)); cbn; split; auto; try discriminate.
  intros H. symmetry. now apply H.
Qed.

(** [edit] finds nothing to modify exactly when the field differs in
    nothing from what is there. *)
Lemma edit_differs_false (existing : ColumnMeta.t) (field : Field.t) :
  Ddl.edit_differs existing field = false <->
  nothing_to_modify existing field.
Proof.
  unfold Ddl.edit_differs, nothing_to_modify.
  rewrite !orb_false_iff, !asked_and_shown, !negb_false_iff, strict_eq_Str.
  tauto.
Qed.

Section ColumnsMethods.

Variable drv : Driver.
Implicit Types c : Columns.t drv.
Implicit Types m : Machine drv.

Lemma add_statements_nil (tableName : string)
      (cur : Columns.CurrentFields) (fields : list Field.t) :
  add_statements tableName cur fields = [] <->
  (forall f, In f fields -> Columns.existing (Field.name f) cur <> None).
Proof.
  induction fields as [|f fields IH]; cbn [add_statements flat_map].
  - split; [intros _ f [] | reflexivity].
  - fold (add_statements tableName cur fields).
    destruct (Columns.existing (Field.name f) cur) as [e|] eqn:E; cbn [app].
    + rewrite IH. split.
      * intros H g [<-|I]; [now rewrite E | now apply H].
      * intros H g I. apply H. now right.
    + split; [discriminate|]. intros H. exfalso.
      now apply (H f (or_introl eq_refl)).
Qed.

(** X20. [add] reads the current columns once, then hands one [ADD COLUMN]
    to [#get_response] for each field, in order, under whose name
    [currentFields] reads nothing, and nothing for the others: when
    something is read under the name of every field, [add] gives [true]
    having dispatched nothing of its own; when it gives [true], what it
    dispatched after reading is exactly those statements. Something is
    read under the name of every column of the table, and also under every
    name of [Object.prototype], [toString] or [constructor] say, so a
    column of such a name is never added; while no column is named
    [__proto__], nothing is read under any other name. *)
Theorem columns_add_only_missing :
  forall (fields : list Field.t) c m (cur : Columns.CurrentFields)
         (c1 : Columns.t drv) (m1 : Machine drv),
    Columns.get drv c m = (Return cur, c1, m1) ->
    ((forall f, In f fields -> Columns.existing (Field.name f) cur <> None) ->
     Columns.add drv fields c m = (Return true, c1, m1))
    /\ (forall c' m',
           Columns.add drv fields c m = (Return true, c', m') ->
           dispatched m'
           = (dispatched m1
              ++ add_statements (Columns.tableName c) cur fields)%list)
    /\ (forall field,
           Columns.current (Field.name field) cur <> None
           \/ In (Field.name field) Columns.object_prototype_names ->
           add_statements (Columns.tableName c) cur [field] = [])
    /\ (forall field,
           Columns.current (Field.name field) cur = None ->
           Columns.current "__proto__" cur = None ->
           ~ In (Field.name field) Columns.object_prototype_names ->
           add_statements (Columns.tableName c) cur [field]
           = [Ddl.add_alterQuery (Columns.tableName c) field]).
Proof.
  intros fields c m cur c1 m1 G.
  assert (T : Columns.tableName c1 = Columns.tableName c)
    by (rewrite <- (columns_get_tableName drv c m); now rewrite G).
  unfold Columns.add, bind, ret. rewrite G.
  destruct (add_loop_dispatches drv cur fields c1 m1) as (N & D).
  rewrite T in N, D.
  repeat match goal with |- _ /\ _ => split end.
  - intros H.
    now rewrite (N (proj2 (add_statements_nil (Columns.tableName c) cur
                                              fields) H)).
  - intros c' m'.
    destruct (Columns.add_loop drv cur fields c1 m1) as [[[r|e] c2] m2];
      [|discriminate].
    intros H. injection H as <- <-. exact (D r c2 m2 eq_refl).
  - intros field H. cbn [add_statements flat_map app].
    destruct (Columns.current (Field.name field) cur) as [meta|] eqn:E.
    + now rewrite (existing_stored _ _ meta E).
    + destruct H as [H|H]; [now contradiction H|].
      now rewrite (existing_builtin _ _ H E).
  - intros field E P N'. cbn [add_statements flat_map app].
    now rewrite (existing_missing _ _ E P N').
Qed.

(** X21. [edit] reads the current columns once, then hands one [MODIFY
    COLUMN] to [#get_response] for each field, in order, under whose name
    [currentFields] reads something the field differs from, and nothing
    for the others: when no field calls for a statement, [edit] gives
    [true] having dispatched nothing of its own; when it gives [true],
    what it dispatched after reading is exactly those statements. A field
    differs in nothing when its type with its length is the live type, its
    default is the live default, and each of [autoincrement], [unique] and
    [primary] it asks for shows as [auto_increment] in the live extra, or
    as [UNI] or [PRI] in the live key. Under the name of a column the
    entry of the column is read. Under a name of [Object.prototype] that
    is no column a member of it is read, from which every field differs:
    [edit] modifies a column [constructor] that the table does not have.
    While no column is named [__proto__], nothing is read under any other
    name, and such a field is passed over. *)
Theorem columns_edit_only_what_differs :
  forall (fields : list Field.t) c m (cur : Columns.CurrentFields)
         (c1 : Columns.t drv) (m1 : Machine drv),
    Columns.get drv c m = (Return cur, c1, m1) ->
    (edit_statements (Columns.tableName c) cur fields = [] ->
     Columns.edit drv fields c m = (Return true, c1, m1))
    /\ (forall c' m',
           Columns.edit drv fields c m = (Return true, c', m') ->
           dispatched m'
           = (dispatched m1
              ++ edit_statements (Columns.tableName c) cur fields)%list)
    /\ (forall field meta,
           Columns.current (Field.name field) cur = Some meta ->
           (nothing_to_modify meta field ->
            edit_statements (Columns.tableName c) cur [field] = [])
           /\ (~ nothing_to_modify meta field ->
               edit_statements (Columns.tableName c) cur [field]
               = [Ddl.edit_modifyQuery (Columns.tableName c) meta field]))
    /\ (forall field,
           In (Field.name field) Columns.object_prototype_names ->
           Columns.current (Field.name field) cur = None ->
           edit_statements (Columns.tableName c) cur [field]
           = [Ddl.edit_modifyQuery (Columns.tableName c) no_properties
                                   field])
    /\ (forall field,
           Columns.current (Field.name field) cur = None ->
           Columns.current "__proto__" cur = None ->
           ~ In (Field.name field) Columns.object_prototype_names ->
           edit_statements (Columns.tableName c) cur [field] = []).
Proof.
  intros fields c m cur c1 m1 G.
  assert (T : Columns.tableName c1 = Columns.tableName c)
    by (rewrite <- (columns_get_tableName drv c m); now rewrite G).
  unfold Columns.edit, bind, ret. rewrite G.
  destruct (edit_loop_dispatches drv cur fields c1 m1) as (N & D).
  rewrite T in N, D.
  repeat match goal with |- _ /\ _ => split end.
  - intros H. now rewrite (N H).
  - intros c' m'.
    destruct (Columns.edit_loop drv cur fields c1 m1) as [[[r|e] c2] m2];
      [|discriminate].
    intros H. injection H as <- <-. exact (D r c2 m2 eq_refl).
  - intros field meta E. cbn [edit_statements flat_map app].
    rewrite (existing_stored _ _ meta E).
    destruct (Ddl.edit_differs meta field) eqn:F; split; intros H.
    + apply edit_differs_false in H. congruence.
    + reflexivity.
    + reflexivity.
    + apply edit_differs_false in F. contradiction.
  - intros field I E. cbn [edit_statements flat_map app].
    now rewrite (existing_builtin _ _ I E).
  - intros field E P N'. cbn [edit_statements flat_map app].
    now rewrite (existing_missing _ _ E P N').
Qed.

(** X22. [delete] reads the current columns once, then hands one [DROP
    COLUMN] to [#get_response] for each name, in order, under which
    [currentFields] reads something, and skips the others: with no such
    name it gives [true] having dispatched nothing of its own; when it
    gives [true], what it dispatched after reading is exactly those
    statements. Something is read under the name of every column, and
    under every name of [Object.prototype] too: [delete] drops a column
    [constructor] that the table does not have. While no column is named
    [__proto__], any other name is skipped. *)
Theorem columns_delete_only_present :
  forall (keys : list string) c m (cur : Columns.CurrentFields)
         (c1 : Columns.t drv) (m1 : Machine drv),
    Columns.get drv c m = (Return cur, c1, m1) ->
    (delete_statements (Columns.tableName c) cur keys = [] ->
     Columns.delete drv keys c m = (Return true, c1, m1))
    /\ (forall c' m',
           Columns.delete drv keys c m = (Return true, c', m') ->
           dispatched m'
           = (dispatched m1
              ++ delete_statements (Columns.tableName c) cur keys)%list)
    /\ (forall key,
           Columns.current key cur <> None
           \/ In key Columns.object_prototype_names ->
           delete_statements (Columns.tableName c) cur [key]
           = ["ALTER TABLE " ++ Columns.tableName c ++ " DROP COLUMN `"
              ++ key ++ "`;"])
    /\ (forall key,
           Columns.current key cur = None ->
           Columns.current "__proto__" cur = None ->
           ~ In key Columns.object_prototype_names ->
           delete_statements (Columns.tableName c) cur [key] = []).
Proof.
  intros keys c m cur c1 m1 G.
  assert (T : Columns.tableName c1 = Columns.tableName c)
    by (rewrite <- (columns_get_tableName drv c m); now rewrite G).
  unfold Columns.delete, bind, ret. rewrite G.
  destruct (delete_loop_dispatches drv cur keys c1 m1) as (N & D).
  rewrite T in N, D.
  repeat match goal with |- _ /\ _ => split end.
  - intros H. now rewrite (N H).
  - intros c' m'.
    destruct (Columns.delete_loop drv cur keys c1 m1) as [[[r|e] c2] m2];
      [|discriminate].
    intros H. injection H as <- <-. exact (D r c2 m2 eq_refl).
  - intros key H. cbn [delete_statements flat_map app].
    destruct (Columns.current key cur) as [meta|] eqn:E.
    + now rewrite (existing_stored _ _ meta E).
    + destruct H as [H|H]; [now contradiction H|].
      now rewrite (existing_builtin _ _ H E).
  - intros key E P N'. cbn [delete_statements flat_map app].
    now rewrite (existing_missing _ _ E P N').
Qed.

End ColumnsMethods.

(** X20, on the schema with [id] and [email]: adding [email] again,
    [toString] and [age] dispatches the two reads and one [ADD COLUMN],
    for [age]. *)
Lemma columns_add_only_missing_witness :
  dispatched
    (snd (Columns.add Catalog.driver
            [Field.make "email" "VARCHAR" Undefined (Some (Finite 255))
                        None None;
             Field.make "toString" "INT" Undefined None None None;
             Field.make "age" "INT" (Number (Finite 18)) None None None]
            Catalog.users Catalog.machine))
  = ["SHOW TABLES LIKE 'users'"; "SHOW COLUMNS FROM `users`";
     "ALTER TABLE `users` ADD COLUMN `age` INT DEFAULT 18"].
Proof.
  destruct (columns_add_only_missing Catalog.driver
              [Field.make "email" "VARCHAR" Undefined (Some (Finite 255))
                          None None;
               Field.make "toString" "INT" Undefined None None None;
               Field.make "age" "INT" (Number (Finite 18)) None None None]
              Catalog.users Catalog.machine _ _ _ eq_refl) as (_ & sent & _).
  exact (sent _ _ eq_refl).
Defined.

(** X21, on the schema with [id] and [email]: editing [email] to what it
    is already, default included, a column [constructor] and a column
    [age], neither of which exists, dispatches the two reads and one
    [MODIFY COLUMN], for [constructor]. *)
Lemma columns_edit_only_what_differs_witness :
  dispatched
    (snd (Columns.edit Catalog.driver
            [Field.make "email" "varchar" (Str "none") (Some (Finite 255))
                        None None;
             Field.make "constructor" "int" Undefined None None None;
             Field.make "age" "INT" (Number (Finite 18)) None None None]
            Catalog.users Catalog.machine))
  = ["SHOW TABLES LIKE 'users'"; "SHOW COLUMNS FROM `users`";
     "ALTER TABLE `users` MODIFY COLUMN `constructor` int"].
Proof.
  destruct (columns_edit_only_what_differs Catalog.driver
              [Field.make "email" "varchar" (Str "none") (Some (Finite 255))
                          None None;
               Field.make "constructor" "int" Undefined None None None;
               Field.make "age" "INT" (Number (Finite 18)) None None None]
              Catalog.users Catalog.machine _ _ _ eq_refl) as (_ & sent & _).
  exact (sent _ _ eq_refl).
Defined.

(** X22, on the schema with [id] and [email]: deleting [email],
    [constructor] and [age] dispatches the two reads and two [DROP
    COLUMN], for [email] and for [constructor]. *)
Lemma columns_delete_only_present_witness :
  dispatched
    (snd (Columns.delete Catalog.driver ["email"; "constructor"; "age"]
                         Catalog.users Catalog.machine))
  = ["SHOW TABLES LIKE 'users'"; "SHOW COLUMNS FROM `users`";
     "ALTER TABLE users DROP COLUMN `email`;";
     "ALTER TABLE users DROP COLUMN `constructor`;"].
Proof.
  destruct (columns_delete_only_present Catalog.driver
              ["email"; "constructor"; "age"]
              Catalog.users Catalog.machine _ _ _ eq_refl) as (_ & sent & _).
  exact (sent _ _ eq_refl).
Defined.

(* ===================================================================== *)
(** ** [MySQL]: the raw query and the one instance *)
(* ===================================================================== *)

Lemma split_not_nil (sep : ascii) (s : string) : MySQL.split sep s <> [].
Proof.
  induction s as [|c s IH]; cbn; [discriminate|].
  destruct (Ascii.eqb c sep); [discriminate|].
  destruct (MySQL.split sep s); [now contradiction IH | discriminate].
Qed.

(** Joining the pieces with the separator gives the text back. *)
Lemma split_concat (sep : ascii) (s : string) :
  String.concat (String sep EmptyString) (MySQL.split sep s) = s.
Proof.
  induction s as [|c s IH]; [reflexivity|].
  cbn [MySQL.split]. pose proof (split_not_nil sep s) as N.
  destruct (Ascii.eqb_spec c sep) as [->|_].
  - destruct (MySQL.split sep s) as [|p ps]; [now contradiction N|].
    rewrite <- IH. reflexivity.
  - destruct (MySQL.split sep s) as [|p ps]; [now contradiction N|].
    rewrite <- IH. destruct ps; reflexivity.
Qed.

Lemma split_pieces_without_sep (sep : ascii) (s : string) :
  Forall (fun piece => has_char sep piece = false) (MySQL.split sep s).
Proof.
  induction s as [|c s IH]; cbn [MySQL.split].
  - constructor; [reflexivity | constructor].
  - destruct (Ascii.eqb c sep) eqn:E.
    + constructor; [reflexivity | exact IH].
    + destruct (MySQL.split sep s) as [|p ps];
        [constructor; [cbn; now rewrite E | constructor]|].
      inversion IH as [|? ? Hp Hps]; subst.
      constructor; [cbn; now rewrite E, Hp | exact Hps].
Qed.

Lemma split_without_sep (sep : ascii) (s : string) :
  has_char sep s = false -> MySQL.split sep s = [s].
Proof.
  induction s as [|c s IH]; [reflexivity|].
  cbn. intros H. apply orb_false_iff in H. destruct H as (E & H).
  now rewrite E, (IH H).
Qed.

Lemma byte_is (c : ascii) (k : N) :
  (N_of_ascii c =? k)%N = true -> c = ascii_of_N k.
Proof.
  intros H. apply N.eqb_eq in H. rewrite <- H. symmetry.
  apply ascii_N_embedding.
Qed.

Lemma byte_between (c : ascii) (lo hi : N) :
  ((lo <=? N_of_ascii c) && (N_of_ascii c <=? hi))%N%bool = true ->
  exists k, (k <= N.to_nat (hi - lo))%nat
            /\ c = ascii_of_N (lo + N.of_nat k).
Proof.
  intros H. apply andb_true_iff in H. destruct H as (L & U).
  apply N.leb_le in L, U.
  exists (N.to_nat (N_of_ascii c - lo)). split; [lia|].
  rewrite N2Nat.id. replace (lo + (N_of_ascii c - lo))%N with (N_of_ascii c)
    by lia.
  symmetry. apply ascii_N_embedding.
Qed.

Ltac in_list := cbn; repeat first [left; reflexivity | right].

Lemma is_space_white (c : ascii) :
  MySQL.is_space c = true -> In (String c EmptyString) white_space.
Proof.
  unfold MySQL.is_space. intros H. apply orb_true_iff in H.
  destruct H as [H|H].
  - apply byte_between in H. destruct H as (k & K & ->).
    cbn in K.
    do 5 (destruct k as [|k]; [in_list|]). lia.
  - apply byte_is in H. subst c. in_list.
Qed.

Lemma is_space2_white (c1 c2 : ascii) :
  MySQL.is_space2 c1 c2 = true ->
  In (String c1 (String c2 EmptyString)) white_space.
Proof.
  unfold MySQL.is_space2. intros H. apply andb_true_iff in H.
  destruct H as (H1 & H2). apply byte_is in H1, H2. subst. in_list.
Qed.

Lemma is_space3_white (c1 c2 c3 : ascii) :
  MySQL.is_space3 c1 c2 c3 = true ->
  In (String c1 (String c2 (String c3 EmptyString))) white_space.
Proof.
  unfold MySQL.is_space3. intros H.
  repeat match type of H with
         | (_ || _)%bool = true =>
             apply orb_true_iff in H; destruct H as [H|H]
         end;
    repeat match goal with
           | H : (_ && _)%bool = true |- _ =>
               apply andb_true_iff in H; destruct H
           | H : (_ || _)%bool = true |- _ =>
               apply orb_true_iff in H; destruct H
           end;
    repeat match goal with
           | H : (N_of_ascii _ =? _)%N = true |- _ =>
               apply byte_is in H; subst
           end;
    try (in_list; fail).
  assert (B : ((128 <=? N_of_ascii c3) && (N_of_ascii c3 <=? 138))%N%bool
              = true)
    by (apply andb_true_iff; split; assumption).
  apply byte_between in B. destruct B as (k & K & ->). cbn in K.
  do 11 (destruct k as [|k]; [in_list|]). lia.
Qed.

Lemma trimStart_white (space rest : string) :
  In space white_space ->
  MySQL.trimStart (space ++ rest) = MySQL.trimStart rest.
Proof.
  unfold white_space. intros H.
  repeat (destruct H as [<-|H]; [reflexivity|]). contradiction.
Qed.

Lemma blank_trimStart (s : string) :
  blank s -> MySQL.trimStart s = EmptyString.
Proof.
  induction 1 as [|space rest I B IH]; [reflexivity|].
  now rewrite (trimStart_white space rest I).
Qed.

(** What [trimStart] leaves: the string past the white space it starts
    with, found in at most three steps from any point. *)
Lemma trimStart_cases (s : string) :
  (exists space rest,
      In space white_space /\ s = space ++ rest
      /\ MySQL.trimStart s = MySQL.trimStart rest)
  \/ MySQL.trimStart s = s.
Proof.
  destruct s as [|c1 rest1]; [now right|].
  cbn [MySQL.trimStart].
  destruct (MySQL.is_space c1) eqn:S1.
  { left. exists (String c1 EmptyString), rest1.
    split; [now apply is_space_white | split; reflexivity]. }
  destruct rest1 as [|c2 rest2]; [now right|].
  destruct (MySQL.is_space2 c1 c2) eqn:S2.
  { left. exists (String c1 (String c2 EmptyString)), rest2.
    split; [now apply is_space2_white | split; reflexivity]. }
  destruct rest2 as [|c3 rest3]; [now right|].
  destruct (MySQL.is_space3 c1 c2 c3) eqn:S3; [|now right].
  left. exists (String c1 (String c2 (String c3 EmptyString))), rest3.
  split; [now apply is_space3_white | split; reflexivity].
Qed.

Lemma white_space_not_empty (space : string) :
  In space white_space -> 0 < String.length space.
Proof.
  unfold white_space. intros H.
  repeat (destruct H as [<-|H]; [cbn; lia|]). contradiction.
Qed.

Lemma trimStart_blank_fixed (n : nat) :
  forall s, String.length s <= n ->
            (MySQL.trimStart s = EmptyString -> blank s)
            /\ MySQL.trimStart (MySQL.trimStart s) = MySQL.trimStart s.
Proof.
  induction n as [|n IH]; intros s L.
  - destruct s; [|cbn in L; lia]. split; [constructor | reflexivity].
  - destruct (trimStart_cases s) as [(space & rest & I & -> & T)|T].
    + pose proof (white_space_not_empty space I) as P.
      rewrite length_append in L.
      destruct (IH rest ltac:(lia)) as (B & F).
      rewrite T. split; [|exact F].
      intros E. constructor; [exact I | now apply B].
    + rewrite T. split; [|exact T].
      intros ->. constructor.
Qed.

(** A piece is trimmed to nothing exactly when it is white space
    throughout. *)
Lemma trim_blank (s : string) : MySQL.trim s = EmptyString <-> blank s.
Proof.
  unfold MySQL.trim.
  destruct (trimStart_blank_fixed (String.length s) s (le_n _)) as (B & F).
  split.
  - intros H. apply B.
    destruct (MySQL.trimStart s) as [|c rest] eqn:E; [reflexivity|].
    unfold MySQL.trimEnd in H. fold MySQL.trimEnd in H.
    rewrite F in H. discriminate H.
  - intros H. now rewrite (blank_trimStart s H).
Qed.

(** X23. The commands of a query text are the pieces between its
    semicolons, wherever the semicolons stand, that hold more than white
    space, in order: joined by semicolons the pieces give the text back;
    a piece is dropped exactly when it is white space throughout, the
    white space of JavaScript, beyond ASCII too; no command holds a
    semicolon, none is blank, and a text without a semicolon is its own
    single command unless it is blank. *)
Theorem sqlCommands_are_the_nonblank_pieces :
  forall text : string,
    String.concat ";" (MySQL.split ";" text) = text
    /\ MySQL.sqlCommands text
       = filter (fun piece => negb (MySQL.trim piece =? EmptyString))
                (MySQL.split ";" text)
    /\ (forall piece, MySQL.trim piece = EmptyString <-> blank piece)
    /\ (forall piece,
           In piece (MySQL.sqlCommands text) <->
           In piece (MySQL.split ";" text) /\ ~ blank piece)
    /\ (forall command,
           In command (MySQL.sqlCommands text) ->
           has_char ";" command = false
           /\ MySQL.trim command <> EmptyString)
    /\ (has_char ";" text = false ->
        MySQL.sqlCommands text
        = if MySQL.trim text =? EmptyString then [] else [text]).
Proof.
  intros text.
  assert (F : forall piece,
             (0 <? String.length (MySQL.trim piece))%nat
             = negb (MySQL.trim piece =? EmptyString))
    by (intros piece; destruct (MySQL.trim piece); reflexivity).
  repeat match goal with |- _ /\ _ => split end.
  - exact (split_concat ";" text).
  - unfold MySQL.sqlCommands. apply filter_ext. exact F.
  - exact trim_blank.
  - intros piece. unfold MySQL.sqlCommands. rewrite filter_In, F.
    rewrite negb_true_iff, String.eqb_neq, trim_blank. reflexivity.
  - intros command H. unfold MySQL.sqlCommands in H. apply filter_In in H.
    destruct H as (I & T). split.
    + exact (proj1 (Forall_forall _ _) (split_pieces_without_sep ";" text)
                   command I).
    + rewrite F in T. apply negb_true_iff, String.eqb_neq in T. exact T.
  - intros H. unfold MySQL.sqlCommands.
    rewrite (split_without_sep ";" text H). cbn [filter]. rewrite F.
    destruct (MySQL.trim text =? EmptyString); reflexivity.
Qed.

(** X23, on a text with a blank piece and a semicolon inside quotes: the
    quoted text is cut in two. A text without a semicolon is one command,
    with the spaces around it; and a no-break space before a semicolon is
    a blank piece. *)
Lemma sqlCommands_are_the_nonblank_pieces_witness :
  MySQL.sqlCommands "SELECT 1;  ;SELECT 'a;b'"
  = ["SELECT 1"; "SELECT 'a"; "b'"]
  /\ MySQL.sqlCommands "  SELECT 1 " = ["  SELECT 1 "]
  /\ MySQL.sqlCommands (String "194" (String "160" ";SELECT 1"))
     = ["SELECT 1"].
Proof.
  split; [reflexivity|]. split; [|reflexivity].
  destruct (sqlCommands_are_the_nonblank_pieces "  SELECT 1 ")
    as (_ & _ & _ & _ & _ & single).
  exact (single eq_refl).
Defined.

Section RawQuery.

Variable drv : Driver.
Variable sqlMessage : Js.error -> Js.value.
Implicit Types m : Machine drv.

(** The loop of [query] hands the commands to the pool in order, each
    followed by a semicolon, up to and including the first that throws. *)
Lemma run_commands_dispatches (p : Pool drv) (commands : list string) :
  forall (results : list Js.value) m,
    match MySQL.run_commands drv p commands results m with
    | (Return results', m') =>
        List.length results'
        = List.length results + List.length commands
        /\ dispatched m'
           = (dispatched m ++ map (fun c => (c ++ ";")%string) commands)%list
    | (Throw e, m') =>
        exists k,
          k < List.length commands
          /\ dispatched m'
             = (dispatched m
                ++ firstn (S k) (map (fun c => (c ++ ";")%string) commands))%list
    end.
Proof.
  induction commands as [|command rest IH]; intros results m.
  - cbn. split; [lia | now rewrite app_nil_r].
  - cbn [MySQL.run_commands].
    destruct (query drv p (command ++ ";") (world m)) as [[result|e] w].
    + specialize (IH (results ++ [result])%list
                     (Build_Machine drv w
                        (dispatched m ++ [(command ++ ";")%string])%list)).
      destruct (MySQL.run_commands drv p rest _ _) as [[rs|e] m'].
      * destruct IH as (L & D). cbn [dispatched] in D.
        rewrite length_app in L. cbn [List.length] in *.
        split; [lia|]. rewrite D, <- app_assoc. reflexivity.
      * destruct IH as (k & K & D). cbn [dispatched] in D.
        exists (S k). cbn [List.length]. split; [lia|].
        rewrite D, <- app_assoc. reflexivity.
    + exists 0. cbn [List.length]. split; [lia|]. reflexivity.
Qed.

(** X24. [query] never throws on a string: it resolves to a [success]
    object or to an [error] object whose data is [null]. Without a pool it
    is the [error] object of the missing pool, and nothing is dispatched.
    What is not a string is refused by a throw, before anything else. *)
Theorem mysql_query_reports_errors_as_data :
  forall (text : string) (db : MySQL.t drv) m,
    (exists env m',
        MySQL.query drv sqlMessage (Str text) db m = (Return env, m')
        /\ ((exists data,
                env = MySQL.envelope "success"
                        (Str "Query executed successfully") data)
            \/ (exists message, env = MySQL.envelope "error" message Null)))
    /\ (MySQL.pool db = None ->
        MySQL.query drv sqlMessage (Str text) db m
        = (Return (MySQL.envelope "error"
                     (Str "Database connection pool is not available.")
                     Null), m))
    /\ (forall v,
           typeof v <> "string" ->
           MySQL.query drv sqlMessage v db m
           = (Throw (Error "The SQL query must be a string."), m)).
Proof.
  intros text db m. repeat match goal with |- _ /\ _ => split end.
  - unfold MySQL.query. destruct (MySQL.pool db) as [p|].
    + destruct (MySQL.run_commands drv p (MySQL.sqlCommands text) [] m)
        as [[rs|e] m']; eexists; eexists; (split; [reflexivity|]);
        [left | right]; eexists; reflexivity.
    + eexists. eexists. split; [reflexivity|]. right.
      eexists. reflexivity.
  - intros H. unfold MySQL.query. now rewrite H.
  - intros v H. destruct v; try reflexivity. now contradiction H.
Qed.

(** X25. With a pool, [query] hands the commands of the text to the pool
    in order, each followed by one semicolon. When all are answered it
    resolves to [success]; the data is the answer itself for one command
    and the array of the answers otherwise, the empty array for a text
    without a command. At the first command that throws it stops: the
    later commands are not dispatched, and it resolves to [error] with
    the [sqlMessage] of what was thrown when that is truthy, else with
    its message when that is not empty, else with the fixed text. *)
Theorem mysql_query_runs_the_commands_in_order :
  forall (text : string) (db : MySQL.t drv) (p : Pool drv) m,
    MySQL.pool db = Some p ->
    let commands := MySQL.sqlCommands text in
    let statements := map (fun c => c ++ ";") commands in
    match MySQL.run_commands drv p commands [] m with
    | (Return results, m') =>
        MySQL.query drv sqlMessage (Str text) db m
        = (Return (MySQL.envelope "success"
                     (Str "Query executed successfully")
                     match results with
                     | [only] => only
                     | _ => Array results
                     end), m')
        /\ List.length results = List.length commands
        /\ dispatched m' = (dispatched m ++ statements)%list
    | (Throw e, m') =>
        (exists message,
            MySQL.query drv sqlMessage (Str text) db m
            = (Return (MySQL.envelope "error" message Null), m')
            /\ (truthy (sqlMessage e) = true -> message = sqlMessage e)
            /\ (truthy (sqlMessage e) = false ->
                Js.message e <> EmptyString ->
                message = Str (Js.message e))
            /\ (truthy (sqlMessage e) = false ->
                Js.message e = EmptyString ->
                message
                = Str "An error occurred while executing the query."))
        /\ exists k,
            k < List.length commands
            /\ dispatched m'
               = (dispatched m ++ firstn (S k) statements)%list
    end.
Proof.
  intros text db p m P commands statements.
  unfold MySQL.query. rewrite P. fold commands.
  pose proof (run_commands_dispatches p commands [] m) as R.
  destruct (MySQL.run_commands drv p commands [] m) as [[rs|e] m'].
  - destruct R as (L & D). split; [|split; assumption].
    destruct rs as [|r [|r' rs]]; reflexivity.
  - split; [|exact R].
    eexists. split; [reflexivity|]. unfold MySQL.error_message.
    destruct (truthy (sqlMessage e)).
    + repeat split; intros; try reflexivity; discriminate.
    + split; [discriminate|]. cbn [truthy].
      destruct (String.eqb_spec (Js.message e) EmptyString) as [E|N];
        cbn [negb]; split; intros; try reflexivity; contradiction.
Qed.

(** X26. [new MySQL()] creates a pool only while there is no instance:
    once a construction has left an instance, every later construction
    gives that instance and leaves the world alone. A construction whose
    pool cannot be created leaves no instance and gives an object without
    a pool, so the next construction tries again. *)
Theorem mysql_constructor_keeps_one_instance :
  forall (instance : option (MySQL.t drv)) (w : World drv),
    let out := MySQL.constructor drv instance w in
    (forall db, instance = Some db -> out = (db, Some db, w))
    /\ (forall kept,
           snd (fst out) = Some kept ->
           fst (fst out) = kept
           /\ forall w', MySQL.constructor drv (snd (fst out)) w'
                         = (kept, Some kept, w'))
    /\ (instance = None -> snd (fst out) = None ->
        MySQL.pool (fst (fst out)) = None
        /\ exists e, fst (createPool drv true w) = Throw e).
Proof.
  intros instance w out. subst out. unfold MySQL.constructor.
  repeat match goal with |- _ /\ _ => split end.
  - intros db ->. reflexivity.
  - destruct instance as [db|]; cbn [fst snd].
    + intros kept H. injection H as <-. split; reflexivity.
    + destruct (createPool drv true w) as [[p|e] w']; cbn [fst snd];
        intros kept H; [|discriminate H].
      injection H as <-. split; reflexivity.
  - intros ->. destruct (createPool drv true w) as [[p|e] w']; cbn [fst snd].
    + discriminate.
    + intros _. split; [reflexivity | eauto].
Qed.

End RawQuery.

(** X25, over the pool of the examples: [query('INSERT INTO t VALUES (1);
    SELECT 1')] hands over two statements and gives the array of the two
    answers; and [query] on a no-break space, a semicolon and [SELECT 1]
    hands over the one statement and gives its answer. *)
Lemma mysql_query_runs_the_commands_in_order_witness :
  MySQL.query Sample.driver (fun _ => Undefined)
              (Str "INSERT INTO t VALUES (1); SELECT 1")
              (MySQL.make Sample.driver (Some tt)) Sample.machine
  = (Return (MySQL.envelope "success" (Str "Query executed successfully")
               (Array [Object [("insertId", Number (Finite 1))];
                       Array [Object [("id", Number (Finite 1))]]])),
     Build_Machine Sample.driver 1
       ["INSERT INTO t VALUES (1);"; " SELECT 1;"])
  /\ MySQL.query Sample.driver (fun _ => Undefined)
                 (Str (String "194" (String "160" ";SELECT 1")))
                 (MySQL.make Sample.driver (Some tt)) Sample.machine
     = (Return (MySQL.envelope "success" (Str "Query executed successfully")
                  (Array [Object [("id", Number (Finite 0))]])),
        Build_Machine Sample.driver 0 ["SELECT 1;"]).
Proof.
  split.
  - pose proof (mysql_query_runs_the_commands_in_order Sample.driver
                  (fun _ => Undefined)
                  "INSERT INTO t VALUES (1); SELECT 1"
                  (MySQL.make Sample.driver (Some tt)) tt Sample.machine
                  eq_refl) as run.
    cbv zeta in run.
    change (MySQL.run_commands Sample.driver tt
              (MySQL.sqlCommands "INSERT INTO t VALUES (1); SELECT 1") []
              Sample.machine)
      with (@Return (list Js.value)
              [Object [("insertId", Number (Finite 1))];
               Array [Object [("id", Number (Finite 1))]]],
            Build_Machine Sample.driver 1
              ["INSERT INTO t VALUES (1);"; " SELECT 1;"]) in run.
    exact (proj1 run).
  - pose proof (mysql_query_runs_the_commands_in_order Sample.driver
                  (fun _ => Undefined)
                  (String "194" (String "160" ";SELECT 1"))
                  (MySQL.make Sample.driver (Some tt)) tt Sample.machine
                  eq_refl) as run.
    cbv zeta in run.
    change (MySQL.run_commands Sample.driver tt
              (MySQL.sqlCommands (String "194" (String "160" ";SELECT 1")))
              [] Sample.machine)
      with (@Return (list Js.value)
              [Array [Object [("id", Number (Finite 0))]]],
            Build_Machine Sample.driver 0 ["SELECT 1;"]) in run.
    exact (proj1 run).
Defined.

(** X8, on [whereIn('id', [1, 3, 5])] as the only condition. *)
Lemma whereIn_lists_the_values_witness :
  TableQuery.buildConditions
    (TableQuery.whereIn "id"
       (Array [Number (Finite 1); Number (Finite 3); Number (Finite 5)])
       Sample.users)
  = Return "id IN (1, 3, 5)".
Proof.
  destruct (whereIn_lists_the_values Sample.driver Sample.users "id"
              (Number (Finite 1)) [Number (Finite 3); Number (Finite 5)])
    as (_ & text & _).
  exact (text EmptyString eq_refl).
Defined.

(** X11, on [find(1)] over the pool of the examples: the statement is the
    builder it leaves, compiled. *)
Lemma find_leaves_its_condition_witness :
  dispatched
    (snd (TableQuery.find Sample.driver (Number (Finite 1)) None
                          Sample.users Sample.machine))
  = ["SELECT * FROM `users` WHERE id = 1"].
Proof.
  destruct (find_leaves_its_condition Sample.driver (Number (Finite 1)) None
              Sample.users Sample.machine) as (_ & _ & sent).
  destruct (sent _ eq_refl) as (look & L & D).
  injection L as <-. exact D.
Defined.
